(** * The adaptive service executor (mongo/transport/service_executor_adaptive.cpp)

    A shallow embedding of [ServiceExecutorAdaptive]: the options provider,
    the timers, the admission path ([schedule] and the task wrapper it builds),
    the starvation predicate, the controller round, the worker's run slice and
    the spawn path.  Each C++ member function is a function on an explicit
    executor state; every atomic counter is a field of that state, and a thread
    is identified by the list iterator [_startWorkerThread] hands to it.

    Threads are modelled one action at a time: a function below is what one
    thread does when no other thread runs in between.  What other threads and
    the operating system contribute (how long a wait lasted, whether a thread
    could be launched, which random number was drawn, how many handlers the
    reactor ran) enters as an explicit argument or as an oracle field. *)

From Stdlib Require Import ZArith List Bool Lia.
From Stdlib Require Import SpecFloat.
Import ListNotations.
Open Scope Z_scope.

(** ** Machine integers *)

(** [int] is 32 bits wide and [int64_t] 64 bits wide, both in two's
    complement.  [wrap w z] is the value a [w]-bit signed word holds after [z]
    is stored into it. *)
Definition wrap (w : Z) (z : Z) : Z :=
  (z + 2 ^ (w - 1)) mod 2 ^ w - 2 ^ (w - 1).

Definition in_range (w : Z) (z : Z) : Prop :=
  - 2 ^ (w - 1) <= z < 2 ^ (w - 1).

Definition INT_MAX : Z := 2 ^ 31 - 1.
Definition is_int (z : Z) : Prop := in_range 32 z.
Definition is_int64 (z : Z) : Prop := in_range 64 z.

(** Arithmetic on plain [int] operands. *)
Definition int_add (x y : Z) : Z := wrap 32 (x + y).
Definition int_sub (x y : Z) : Z := wrap 32 (x - y).

(** ** Doubles *)

(** [double] is IEEE 754 binary64, with the operations of the reference
    implementation in [SpecFloat]. *)
Definition double : Set := spec_float.
Definition dprec : Z := 53.
Definition demax : Z := 1024.

(** [static_cast<double>(z)] for an integer [z]: rounded to nearest, ties to
    even. *)
Definition to_double (z : Z) : double := binary_normalize dprec demax z 0 false.

Definition ddiv (x y : double) : double := SFdiv dprec demax x y.
Definition dmul (x y : double) : double := SFmul dprec demax x y.
Definition dltb (x y : double) : bool := SFltb x y.

(** [static_cast<int>(d)]: the fractional part is discarded; the conversion is
    undefined ([None]) for a NaN, an infinity, or a value that does not fit. *)
Definition double_to_int (d : double) : option Z :=
  match d with
  | S754_zero _ => Some 0
  | S754_finite s m e =>
      let mag := if 0 <=? e then Z.pos m * 2 ^ e else Z.pos m / 2 ^ (- e) in
      let v := if s then - mag else mag in
      if (- 2 ^ 31 <=? v) && (v <? 2 ^ 31) then Some v else None
  | S754_infinity _ | S754_nan => None
  end.

(** ** Options *)

(** The values [ServiceExecutorAdaptive::Options] hands out.  Durations are
    kept in the unit of their C++ type: [Milliseconds] for the run time and the
    stuck timeout, [Microseconds] for the queue latency. *)
Record Options : Type := {
  reservedThreads : Z;
  workerThreadRunTime : Z;
  runTimeJitter : Z;
  stuckThreadTimeout : Z;
  maxQueueLatency : Z;
  idlePctThreshold : Z;
  recursionLimit : Z
}.

(** [ProcessInfo]: the cores the process may use, when the platform tells,
    and the cores of the machine. *)
Record ProcessInfo : Type := {
  getNumAvailableCores : option Z;
  getNumCores : Z
}.

(** [int / int] in C++ truncates towards zero. *)
Definition int_div (x y : Z) : Z := Z.quot x y.

Module ServerParameterOptions.

(** The exported server parameters, each an atomic [int]. *)
Record Parameters : Type := {
  adaptiveServiceExecutorReservedThreads : Z;
  adaptiveServiceExecutorRunTimeMillis : Z;
  adaptiveServiceExecutorRunTimeJitterMillis : Z;
  adaptiveServiceExecutorStuckThreadTimeoutMillis : Z;
  adaptiveServiceExecutorMaxQueueLatencyMicros : Z;
  adaptiveServiceExecutorIdlePctThreshold : Z;
  adaptiveServiceExecutorRecursionLimit : Z
}.

(** The initial values given to [MONGO_EXPORT_SERVER_PARAMETER]. *)
Definition initial : Parameters := {|
  adaptiveServiceExecutorReservedThreads := 1;
  adaptiveServiceExecutorRunTimeMillis := 5000;
  adaptiveServiceExecutorRunTimeJitterMillis := 500;
  adaptiveServiceExecutorStuckThreadTimeoutMillis := 250;
  adaptiveServiceExecutorMaxQueueLatencyMicros := 500;
  adaptiveServiceExecutorIdlePctThreshold := 60;
  adaptiveServiceExecutorRecursionLimit := 8
|}.

Definition store_reservedThreads (v : Z) (p : Parameters) : Parameters := {|
  adaptiveServiceExecutorReservedThreads := v;
  adaptiveServiceExecutorRunTimeMillis := adaptiveServiceExecutorRunTimeMillis p;
  adaptiveServiceExecutorRunTimeJitterMillis := adaptiveServiceExecutorRunTimeJitterMillis p;
  adaptiveServiceExecutorStuckThreadTimeoutMillis :=
    adaptiveServiceExecutorStuckThreadTimeoutMillis p;
  adaptiveServiceExecutorMaxQueueLatencyMicros := adaptiveServiceExecutorMaxQueueLatencyMicros p;
  adaptiveServiceExecutorIdlePctThreshold := adaptiveServiceExecutorIdlePctThreshold p;
  adaptiveServiceExecutorRecursionLimit := adaptiveServiceExecutorRecursionLimit p
|}.

(** [reservedThreads()]: the value returned and the parameters after the
    call (the method stores the resolved value back). *)
Definition reservedThreads (pi : ProcessInfo) (p : Parameters) : Z * Parameters :=
  let value := adaptiveServiceExecutorReservedThreads p in
  if value =? -1 then
    let cores :=
      match getNumAvailableCores pi with
      | Some n => n
      | None => getNumCores pi
      end in
    let value := int_div cores 2 in
    let value := Z.max value 2 in
    (value, store_reservedThreads value p)
  else (value, p).

Definition workerThreadRunTime (p : Parameters) : Z :=
  adaptiveServiceExecutorRunTimeMillis p.
Definition runTimeJitter (p : Parameters) : Z :=
  adaptiveServiceExecutorRunTimeJitterMillis p.
Definition stuckThreadTimeout (p : Parameters) : Z :=
  adaptiveServiceExecutorStuckThreadTimeoutMillis p.
Definition maxQueueLatency (p : Parameters) : Z :=
  adaptiveServiceExecutorMaxQueueLatencyMicros p.
Definition idlePctThreshold (p : Parameters) : Z :=
  adaptiveServiceExecutorIdlePctThreshold p.
Definition recursionLimit (p : Parameters) : Z :=
  adaptiveServiceExecutorRecursionLimit p.

End ServerParameterOptions.

(** What the executor reads through its [Options] pointer when the provider is
    [ServerParameterOptions]: one reading of every method. *)
Definition server_options (pi : ProcessInfo) (p : ServerParameterOptions.Parameters)
  : Options := {|
  reservedThreads := fst (ServerParameterOptions.reservedThreads pi p);
  workerThreadRunTime := ServerParameterOptions.workerThreadRunTime p;
  runTimeJitter := ServerParameterOptions.runTimeJitter p;
  stuckThreadTimeout := ServerParameterOptions.stuckThreadTimeout p;
  maxQueueLatency := ServerParameterOptions.maxQueueLatency p;
  idlePctThreshold := ServerParameterOptions.idlePctThreshold p;
  recursionLimit := ServerParameterOptions.recursionLimit p
|}.

(** ** Ticks and timers *)

(** [TickSource::Tick]. *)
Definition Tick : Set := Z.

(** Modelled from the spec: [TickTimer], declared in
    service_executor_adaptive.h, which is not among the sources.  A monotonic
    timer over the tick source: [reset] records the current tick,
    [sinceStartTicks] is the distance from it, and [sinceStart] is that
    distance in whole milliseconds. *)
Record TickTimer : Set := { tt_start : Tick }.

Definition tt_reset (now : Tick) : TickTimer := {| tt_start := now |}.
Definition sinceStartTicks (now : Tick) (t : TickTimer) : Tick := now - tt_start t.
Definition sinceStart (ticksPerMillisecond : Z) (now : Tick) (t : TickTimer) : Z :=
  int_div (sinceStartTicks now t) ticksPerMillisecond.

(** Modelled from the spec: [CumulativeTickTimer], declared in
    service_executor_adaptive.h, which is not among the sources.  The spec's
    ThreadTimer stopwatch: [markRunning] opens an interval, [markStopped]
    closes it, commits it to the accumulator and returns its length, and
    [totalTime] is the committed accumulator plus, if currently running, the
    open interval. *)
Record CumulativeTickTimer : Set := {
  ct_timer : TickTimer;
  ct_accumulator : Tick;
  ct_running : bool
}.

Definition ct_new (now : Tick) : CumulativeTickTimer :=
  {| ct_timer := tt_reset now; ct_accumulator := 0; ct_running := false |}.

Definition markRunning (now : Tick) (c : CumulativeTickTimer) : CumulativeTickTimer :=
  {| ct_timer := tt_reset now; ct_accumulator := ct_accumulator c; ct_running := true |}.

Definition markStopped (now : Tick) (c : CumulativeTickTimer) : Tick * CumulativeTickTimer :=
  let curTime := sinceStartTicks now (ct_timer c) in
  (curTime,
   {| ct_timer := ct_timer c;
      ct_accumulator := ct_accumulator c + curTime;
      ct_running := false |}).

Definition totalTime (now : Tick) (c : CumulativeTickTimer) : Tick :=
  if ct_running c then sinceStartTicks now (ct_timer c) + ct_accumulator c
  else ct_accumulator c.

(** ** Thread state *)

(** [ServiceExecutorAdaptive::ThreadState]. *)
Record ThreadState : Set := {
  running : CumulativeTickTimer;
  executing : CumulativeTickTimer;
  executingCurRun : Tick;
  recursionDepth : Z
}.

Definition ThreadState_new (now : Tick) : ThreadState := {|
  running := ct_new now;
  executing := ct_new now;
  executingCurRun := 0;
  recursionDepth := 0
|}.

Definition set_running (c : CumulativeTickTimer) (ts : ThreadState) : ThreadState :=
  {| running := c; executing := executing ts;
     executingCurRun := executingCurRun ts; recursionDepth := recursionDepth ts |}.
Definition set_executing (c : CumulativeTickTimer) (ts : ThreadState) : ThreadState :=
  {| running := running ts; executing := c;
     executingCurRun := executingCurRun ts; recursionDepth := recursionDepth ts |}.
Definition set_executingCurRun (v : Tick) (ts : ThreadState) : ThreadState :=
  {| running := running ts; executing := executing ts;
     executingCurRun := v; recursionDepth := recursionDepth ts |}.
Definition set_recursionDepth (v : Z) (ts : ThreadState) : ThreadState :=
  {| running := running ts; executing := executing ts;
     executingCurRun := executingCurRun ts; recursionDepth := v |}.

(** A [ThreadList::iterator]: the identity of one node of [_threads]. *)
Definition ThreadIter : Set := nat.

(** [_threads], a [std::list<ThreadState>], as the list of its nodes. *)
Definition ThreadList : Set := list (ThreadIter * ThreadState).

Fixpoint deref (it : ThreadIter) (l : ThreadList) : option ThreadState :=
  match l with
  | [] => None
  | (i, ts) :: l' => if Nat.eqb i it then Some ts else deref it l'
  end.

(** A write through the iterator. *)
Fixpoint assign (it : ThreadIter) (ts : ThreadState) (l : ThreadList) : ThreadList :=
  match l with
  | [] => []
  | (i, old) :: l' =>
      if Nat.eqb i it then (i, ts) :: l' else (i, old) :: assign it ts l'
  end.

(** [_threads.erase(it)]. *)
Fixpoint erase (it : ThreadIter) (l : ThreadList) : ThreadList :=
  match l with
  | [] => []
  | (i, ts) :: l' => if Nat.eqb i it then l' else (i, ts) :: erase it l'
  end.

(** ** Tasks *)

(** [ScheduleFlags]: the two bits of the flag word. *)
Record ScheduleFlags : Set := {
  kDeferredTask : bool;
  kMayRecurse : bool
}.

Definition kEmptyFlags : ScheduleFlags :=
  {| kDeferredTask := false; kMayRecurse := false |}.

(** A task is opaque to the executor.  What a task body can do that the
    executor observes is: let time pass, submit further tasks to [schedule],
    and return or throw.  [Task] is the script of one body. *)
Inductive Task : Set :=
| Return : Task
| Throw : Task
| Work : N -> Task -> Task
| Submit : ScheduleFlags -> Task -> Task -> Task.

(** Which of the two pending counters [pendingCounterPtr] points to. *)
Inductive PendingCounter : Set := TasksQueued | DeferredTasksQueued.

(** The closure [wrappedTask]: the task with the captured [scheduleTime] and
    [pendingCounterPtr]. *)
Record WrappedTask : Set := {
  w_task : Task;
  w_scheduleTime : Tick;
  w_pendingCounterPtr : PendingCounter
}.

(** What the executor did, in order: the calls it made on the reactor, on the
    condition variables and on the thread launcher, and the task bodies it
    invoked.  The log is ghost state: nothing reads it. *)
Inductive Event : Set :=
| EvDispatch : WrappedTask -> Event
| EvPost : WrappedTask -> Event
| EvTask : Z -> Event
| EvScheduleNotify : Event
| EvLaunch : bool -> Event
| EvSleep : Z -> Event
| EvDeathNotify : Event
| EvRestart : Event.

(** ** The executor *)

(** The atomic words of the executor, by the name of the member. *)
Inductive Counter : Set :=
| _threadsRunning
| _threadsPending
| _threadsInUse
| _tasksQueued
| _deferredTasksQueued
| _totalQueued
| _totalExecuted
| _totalSpentQueued
| _pastThreadsSpentExecuting
| _pastThreadsSpentRunning.

Definition Counter_eq_dec (c c' : Counter) : {c = c'} + {c <> c'}.
Proof. decide equality. Defined.

(** The first five are [AtomicWord<int>]; the totals are [AtomicWord<int64_t>]
    and [AtomicWord<TickSource::Tick>]. *)
Definition width (c : Counter) : Z :=
  match c with
  | _threadsRunning | _threadsPending | _threadsInUse
  | _tasksQueued | _deferredTasksQueued => 32
  | _ => 64
  end.

Record Executor : Set := {
  isRunning : bool;
  threads : ThreadList;
  nextIter : ThreadIter;
  atomics : Counter -> Z;
  lastScheduleTimer : TickTimer;
  ioQueue : list WrappedTask;
  ioStopped : bool;
  now : Tick;
  ticksPerSecond : Z;
  launchOracle : list bool;
  events : list Event
}.

Definition set_isRunning (v : bool) (st : Executor) : Executor :=
  {| isRunning := v; threads := threads st; nextIter := nextIter st; atomics := atomics st;
     lastScheduleTimer := lastScheduleTimer st; ioQueue := ioQueue st;
     ioStopped := ioStopped st; now := now st; ticksPerSecond := ticksPerSecond st;
     launchOracle := launchOracle st; events := events st |}.
Definition set_threads (v : ThreadList) (st : Executor) : Executor :=
  {| isRunning := isRunning st; threads := v; nextIter := nextIter st;
     atomics := atomics st; lastScheduleTimer := lastScheduleTimer st;
     ioQueue := ioQueue st; ioStopped := ioStopped st; now := now st;
     ticksPerSecond := ticksPerSecond st; launchOracle := launchOracle st;
     events := events st |}.
Definition set_nextIter (v : ThreadIter) (st : Executor) : Executor :=
  {| isRunning := isRunning st; threads := threads st; nextIter := v;
     atomics := atomics st; lastScheduleTimer := lastScheduleTimer st;
     ioQueue := ioQueue st; ioStopped := ioStopped st; now := now st;
     ticksPerSecond := ticksPerSecond st; launchOracle := launchOracle st;
     events := events st |}.
Definition set_atomics (v : Counter -> Z) (st : Executor) : Executor :=
  {| isRunning := isRunning st; threads := threads st; nextIter := nextIter st;
     atomics := v; lastScheduleTimer := lastScheduleTimer st; ioQueue := ioQueue st;
     ioStopped := ioStopped st; now := now st; ticksPerSecond := ticksPerSecond st;
     launchOracle := launchOracle st; events := events st |}.
Definition set_lastScheduleTimer (v : TickTimer) (st : Executor) : Executor :=
  {| isRunning := isRunning st; threads := threads st; nextIter := nextIter st;
     atomics := atomics st; lastScheduleTimer := v; ioQueue := ioQueue st;
     ioStopped := ioStopped st; now := now st; ticksPerSecond := ticksPerSecond st;
     launchOracle := launchOracle st; events := events st |}.
Definition set_ioQueue (v : list WrappedTask) (st : Executor) : Executor :=
  {| isRunning := isRunning st; threads := threads st; nextIter := nextIter st;
     atomics := atomics st; lastScheduleTimer := lastScheduleTimer st; ioQueue := v;
     ioStopped := ioStopped st; now := now st; ticksPerSecond := ticksPerSecond st;
     launchOracle := launchOracle st; events := events st |}.
Definition set_ioStopped (v : bool) (st : Executor) : Executor :=
  {| isRunning := isRunning st; threads := threads st; nextIter := nextIter st;
     atomics := atomics st; lastScheduleTimer := lastScheduleTimer st;
     ioQueue := ioQueue st; ioStopped := v; now := now st;
     ticksPerSecond := ticksPerSecond st; launchOracle := launchOracle st;
     events := events st |}.
Definition set_now (v : Tick) (st : Executor) : Executor :=
  {| isRunning := isRunning st; threads := threads st; nextIter := nextIter st;
     atomics := atomics st; lastScheduleTimer := lastScheduleTimer st;
     ioQueue := ioQueue st; ioStopped := ioStopped st; now := v;
     ticksPerSecond := ticksPerSecond st; launchOracle := launchOracle st;
     events := events st |}.
Definition set_launchOracle (v : list bool) (st : Executor) : Executor :=
  {| isRunning := isRunning st; threads := threads st; nextIter := nextIter st;
     atomics := atomics st; lastScheduleTimer := lastScheduleTimer st;
     ioQueue := ioQueue st; ioStopped := ioStopped st; now := now st;
     ticksPerSecond := ticksPerSecond st; launchOracle := v; events := events st |}.
Definition set_events (v : list Event) (st : Executor) : Executor :=
  {| isRunning := isRunning st; threads := threads st; nextIter := nextIter st;
     atomics := atomics st; lastScheduleTimer := lastScheduleTimer st;
     ioQueue := ioQueue st; ioStopped := ioStopped st; now := now st;
     ticksPerSecond := ticksPerSecond st; launchOracle := launchOracle st; events := v |}.

(** [c.load()]. *)
Definition load (c : Counter) (st : Executor) : Z := atomics st c.

Definition store (c : Counter) (v : Z) (st : Executor) : Executor :=
  set_atomics (fun c' => if Counter_eq_dec c c' then v else atomics st c') st.

(** [c.addAndFetch(d)] and [c.subtractAndFetch(d)]: the word wraps. *)
Definition addAndFetch (c : Counter) (d : Z) (st : Executor) : Executor :=
  store c (wrap (width c) (load c st + d)) st.
Definition subtractAndFetch (c : Counter) (d : Z) (st : Executor) : Executor :=
  store c (wrap (width c) (load c st - d)) st.

Definition log (e : Event) (st : Executor) : Executor :=
  set_events (events st ++ [e]) st.

(** [_tickSource->getTicks()] reads [now]; time passes only where a function
    below says so. *)
Definition advance (d : N) (st : Executor) : Executor :=
  set_now (now st + Z.of_N d) st.

Definition ticksPerMillisecond (st : Executor) : Z := int_div (ticksPerSecond st) 1000.

(** [ServiceExecutorAdaptive::_isStarved]. *)
Definition _isStarved (st : Executor) : bool :=
  if load _threadsPending st >? 0 then false
  else
    let tasksQueued := load _tasksQueued st in
    if tasksQueued =? 0 then false
    else
      let available := int_sub (load _threadsRunning st) (load _threadsInUse st) in
      tasksQueued >? available.

(** How a call ended: it returned a value, an exception left it, or it ran
    into undefined behaviour (a null [_localThreadState], an iterator that is
    not in [_threads], a conversion that is not defined). *)
Inductive Result (A : Type) : Type :=
| Ret : A -> Result A
| Exn : Result A
| UB : Result A.
Arguments Ret {A} _.
Arguments Exn {A}.
Arguments UB {A}.

Inductive Status : Set := OK | ShutdownInProgress.

Definition counter_of (p : PendingCounter) : Counter :=
  match p with
  | TasksQueued => _tasksQueued
  | DeferredTasksQueued => _deferredTasksQueued
  end.

(** [_ioContext->post]: the handler goes to the back of the reactor's queue. *)
Definition post (w : WrappedTask) (st : Executor) : Executor :=
  set_ioQueue (ioQueue st ++ [w]) (log (EvPost w) st).

(** [_threads.emplace(_threads.begin(), _tickSource)] with the iterator it
    returns. *)
Definition emplace_front (st : Executor) : ThreadIter * Executor :=
  let it := nextIter st in
  (it, set_threads ((it, ThreadState_new (now st)) :: threads st) (set_nextIter (S it) st)).

(** [launchServiceWorkerThread]: whether the thread could be started is the
    next entry of the oracle (an exhausted oracle launches). *)
Definition launchServiceWorkerThread (st : Executor) : bool * Executor :=
  match launchOracle st with
  | [] => (true, log (EvLaunch true) st)
  | ok :: rest => (ok, log (EvLaunch ok) (set_launchOracle rest st))
  end.

(** [ServiceExecutorAdaptive::_startWorkerThread]. *)
Definition _startWorkerThread (st : Executor) : Executor :=
  let (it, st) := emplace_front st in
  let st := addAndFetch _threadsPending 1 st in
  let st := addAndFetch _threadsRunning 1 st in
  let (launchResult, st) := launchServiceWorkerThread st in
  if launchResult then st
  else
    let st := subtractAndFetch _threadsPending 1 st in
    let st := subtractAndFetch _threadsRunning 1 st in
    set_threads (erase it (threads st)) st.

(** A [for (int i = 0; i < n; i++) _startWorkerThread();] loop. *)
Fixpoint startWorkerThreads (n : nat) (st : Executor) : Executor :=
  match n with
  | O => st
  | S n' => startWorkerThreads n' (_startWorkerThread st)
  end.

Section WithOptions.

(** [_config], read as constant while one function runs. *)
Variable cfg : Options.

(** The scope guard of [wrappedTask], run on the worker [self]. *)
Definition wrappedTask_guard (self : ThreadIter) (st : Executor) : option Executor :=
  match deref self (threads st) with
  | None => None
  | Some ts =>
      let depth := int_sub (recursionDepth ts) 1 in
      let ts := set_recursionDepth depth ts in
      let st :=
        if depth =? 0 then
          let (elapsed, ex) := markStopped (now st) (executing ts) in
          let ts := set_executingCurRun (executingCurRun ts + elapsed) (set_executing ex ts) in
          subtractAndFetch _threadsInUse 1 (set_threads (assign self ts (threads st)) st)
        else set_threads (assign self ts (threads st)) st in
      Some (addAndFetch _totalExecuted 1 st)
  end.

(** The accounting [wrappedTask] does before it builds the guard. *)
Definition wrappedTask_enter (w : WrappedTask) (self : ThreadIter) (st : Executor)
  : option Executor :=
  let st := subtractAndFetch (counter_of (w_pendingCounterPtr w)) 1 st in
  let start := now st in
  let st := addAndFetch _totalSpentQueued (start - w_scheduleTime w) st in
  match deref self (threads st) with
  | None => None
  | Some ts =>
      let depth := recursionDepth ts in
      let ts := set_recursionDepth (int_add depth 1) ts in
      if depth =? 0 then
        let ts := set_executing (markRunning (now st) (executing ts)) ts in
        Some (addAndFetch _threadsInUse 1 (set_threads (assign self ts (threads st)) st))
      else Some (set_threads (assign self ts (threads st)) st)
  end.

(** The depth the thread [self] is at, for the log. *)
Definition depth_of (self : ThreadIter) (st : Executor) : Z :=
  match deref self (threads st) with
  | Some ts => recursionDepth ts
  | None => 0
  end.

(** [wrappedTask], over the function [task] that runs the captured body. *)
Definition wrappedTask_gen (task : ThreadIter -> Executor -> Result unit * Executor)
    (w : WrappedTask) (self : ThreadIter) (st : Executor) : Result unit * Executor :=
  match wrappedTask_enter w self st with
  | None => (UB, st)
  | Some st =>
      let (r, st) := task self (log (EvTask (depth_of self st)) st) in
      match r with
      | UB => (UB, st)
      | _ =>
          match wrappedTask_guard self st with
          | None => (UB, st)
          | Some st => (r, st)
          end
      end
  end.

(** [_ioContext->dispatch] from a worker thread that is inside the reactor:
    the handler runs at once, on the caller's stack. *)
Definition dispatch (inline : WrappedTask -> ThreadIter -> Executor -> Result unit * Executor)
    (w : WrappedTask) (self : ThreadIter) (st : Executor) : Result unit * Executor :=
  inline w self (log (EvDispatch w) st).

(** [ServiceExecutorAdaptive::schedule], over the function that runs a
    dispatched handler.  [localThreadState] is the calling thread's
    [_localThreadState]: [None] is the null pointer of a thread that is not
    a worker. *)
Definition schedule_gen
    (inline : WrappedTask -> ThreadIter -> Executor -> Result unit * Executor)
    (task : Task) (flags : ScheduleFlags) (localThreadState : option ThreadIter)
    (st : Executor) : Result Status * Executor :=
  let scheduleTime := now st in
  let pendingCounterPtr :=
    if kDeferredTask flags then DeferredTasksQueued else TasksQueued in
  let st := addAndFetch (counter_of pendingCounterPtr) 1 st in
  if negb (isRunning st) then (Ret ShutdownInProgress, st)
  else
    let wrapped := {| w_task := task; w_scheduleTime := scheduleTime;
                      w_pendingCounterPtr := pendingCounterPtr |} in
    let (r, st) :=
      if kMayRecurse flags then
        match localThreadState with
        | None => (UB, st)
        | Some self =>
            match deref self (threads st) with
            | None => (UB, st)
            | Some ts =>
                if int_add (recursionDepth ts) 1 <? recursionLimit cfg
                then dispatch inline wrapped self st
                else (Ret tt, post wrapped st)
            end
        end
      else (Ret tt, post wrapped st) in
    match r with
    | Ret _ =>
        let st := set_lastScheduleTimer (tt_reset (now st)) st in
        let st := addAndFetch _totalQueued 1 st in
        let st :=
          if _isStarved st && negb (kDeferredTask flags)
          then log EvScheduleNotify st else st in
        (Ret OK, st)
    | Exn => (Exn, st)
    | UB => (UB, st)
    end.

(** A task body, run on the worker [self].  A submission that is dispatched
    runs the submitted body before the submitter's body goes on. *)
Fixpoint runTask (t : Task) (self : ThreadIter) (st : Executor) {struct t}
  : Result unit * Executor :=
  match t with
  | Return => (Ret tt, st)
  | Throw => (Exn, st)
  | Work d k => runTask k self (advance d st)
  | Submit flags sub k =>
      let (r, st) :=
        schedule_gen (wrappedTask_gen (runTask sub)) sub flags (Some self) st in
      match r with
      | Ret _ => runTask k self st
      | Exn => (Exn, st)
      | UB => (UB, st)
      end
  end.

(** The handler the reactor holds for a posted or dispatched task. *)
Definition wrappedTask (w : WrappedTask) (self : ThreadIter) (st : Executor)
  : Result unit * Executor :=
  wrappedTask_gen (runTask (w_task w)) w self st.

(** [schedule] as its callers see it. *)
Definition schedule (task : Task) (flags : ScheduleFlags)
    (localThreadState : option ThreadIter) (st : Executor) : Result Status * Executor :=
  schedule_gen wrappedTask task flags localThreadState st.

(** *** The reactor, driven by a worker *)

(** What a worker finds when it drives the reactor for one slice: how many
    handlers become ready before the time is up, and how long the thread
    then sits in the reactor with nothing to run. *)
Record SliceEnv : Set := {
  ready : nat;
  idle : N
}.

(** The reactor runs up to [n] handlers from the front of its queue on the
    thread [self]; an exception that leaves a handler leaves the run. *)
Fixpoint run_handlers (n : nat) (self : ThreadIter) (st : Executor)
  : Result unit * Executor :=
  match n with
  | O => (Ret tt, st)
  | S n' =>
      match ioQueue st with
      | [] => (Ret tt, st)
      | w :: rest =>
          let (r, st) := wrappedTask w self (set_ioQueue rest st) in
          match r with
          | Ret _ => run_handlers n' self st
          | Exn => (Exn, st)
          | UB => (UB, st)
          end
      end
  end.

Definition after_handlers (env : SliceEnv) (res : Result unit * Executor)
  : Result unit * Executor :=
  match res with
  | (Ret _, st) => (Ret tt, advance (idle env) st)
  | other => other
  end.

(** [_ioContext->run_for(runTime)]. *)
Definition run_for (env : SliceEnv) (self : ThreadIter) (st : Executor)
  : Result unit * Executor :=
  after_handlers env (run_handlers (ready env) self st).

(** [_ioContext->run_one_for(runTime)]: at most one handler. *)
Definition run_one_for (env : SliceEnv) (self : ThreadIter) (st : Executor)
  : Result unit * Executor :=
  after_handlers env (run_handlers (Nat.min 1 (ready env)) self st).

(** [_ioContext->restart()]. *)
Definition restart (st : Executor) : Executor :=
  set_ioStopped false (log EvRestart st).

(** *** The worker *)

(** [ServiceExecutorAdaptive::_getThreadJitter]; [draw] is the number
    [jitterDist(randomEngine)] returns, between [- jitterParam] and
    [jitterParam]. *)
Definition _getThreadJitter (draw : Z) : Z :=
  let jitterParam := runTimeJitter cfg in
  if jitterParam =? 0 then 0
  else
    let jitter := draw in
    let jitter := if jitter >? workerThreadRunTime cfg then 0 else jitter in
    jitter.

Definition valid_draw (draw : Z) : Prop :=
  - runTimeJitter cfg <= draw <= runTimeJitter cfg.

(** The locals of [_workerThreadRoutine]. *)
Record Worker : Set := {
  state : ThreadIter;
  stillPending : bool;
  jitter : Z
}.

(** [Milliseconds runTime = _config->workerThreadRunTime() + jitter]. *)
Definition runTime (wk : Worker) : Z := workerThreadRunTime cfg + jitter wk.

(** The condition of [dassert(runTime.count() > 0)]. *)
Definition dassert_runTime (wk : Worker) : bool := runTime wk >? 0.

(** [pctExecuting]: the ratio in [double], times 100, cast to [int]. *)
Definition pctExecuting (executingCurRun spentRunning : Tick) : option Z :=
  let executingToRunning := ddiv (to_double executingCurRun) (to_double spentRunning) in
  let executingToRunning := dmul executingToRunning (to_double 100) in
  double_to_int executingToRunning.

(** How one pass through the worker's loop ends. *)
Inductive WorkerStep : Set :=
| KeepRunning
| ExitIdle
| ExitException
| ExitShutdown
| ExitUB.

(** The [if (stillPending) ... else if ...] that ends a pass. *)
Definition afterRun (wk : Worker) (spentRunning : Tick) (st : Executor)
  : WorkerStep * Worker * Executor :=
  if stillPending wk then
    (KeepRunning,
     {| state := state wk; stillPending := false; jitter := jitter wk |},
     subtractAndFetch _threadsPending 1 st)
  else if load _threadsRunning st >? reservedThreads cfg then
    match deref (state wk) (threads st) with
    | None => (ExitUB, wk, st)
    | Some ts =>
        match pctExecuting (executingCurRun ts) spentRunning with
        | None => (ExitUB, wk, st)
        | Some pct =>
            if pct <? idlePctThreshold cfg then (ExitIdle, wk, st)
            else (KeepRunning, wk, st)
        end
    end
  else (KeepRunning, wk, st).

(** One pass through the body of [while (_isRunning.load())]. *)
Definition workerSlice (env : SliceEnv) (wk : Worker) (st : Executor)
  : WorkerStep * Worker * Executor :=
  match deref (state wk) (threads st) with
  | None => (ExitUB, wk, st)
  | Some ts =>
      let ts := set_executingCurRun 0 ts in
      let ts := set_running (markRunning (now st) (running ts)) ts in
      let st := set_threads (assign (state wk) ts (threads st)) st in
      let (r, st) :=
        if stillPending wk then run_one_for env (state wk) st
        else run_for env (state wk) st in
      match r with
      | UB => (ExitUB, wk, st)
      | Exn => (ExitException, wk, _startWorkerThread st)
      | Ret _ =>
          let st := if ioStopped st then restart st else st in
          match deref (state wk) (threads st) with
          | None => (ExitUB, wk, st)
          | Some ts =>
              let (spentRunning, rn) := markStopped (now st) (running ts) in
              let st := set_threads (assign (state wk) (set_running rn ts) (threads st)) st in
              afterRun wk spentRunning st
          end
      end
  end.

(** The scope guard of [_workerThreadRoutine]. *)
Definition workerExit (wk : Worker) (st : Executor) : option Executor :=
  let st := if stillPending wk then subtractAndFetch _threadsPending 1 st else st in
  let st := subtractAndFetch _threadsRunning 1 st in
  match deref (state wk) (threads st) with
  | None => None
  | Some ts =>
      let st := addAndFetch _pastThreadsSpentRunning (totalTime (now st) (running ts)) st in
      let st :=
        addAndFetch _pastThreadsSpentExecuting (totalTime (now st) (executing ts)) st in
      let st := set_threads (erase (state wk) (threads st)) st in
      Some (log EvDeathNotify st)
  end.

(** The loop of [_workerThreadRoutine], one [SliceEnv] per pass.  When the
    list is used up the thread is still in the loop ([KeepRunning]). *)
Fixpoint workerLoop (envs : list SliceEnv) (wk : Worker) (st : Executor)
  : WorkerStep * Worker * Executor :=
  match envs with
  | [] => (KeepRunning, wk, st)
  | env :: envs' =>
      if negb (isRunning st) then (ExitShutdown, wk, st)
      else
        match workerSlice env wk st with
        | (KeepRunning, wk, st) => workerLoop envs' wk st
        | ended => ended
        end
  end.

(** [ServiceExecutorAdaptive::_workerThreadRoutine] on the node [it]: the
    step that ended the loop and the executor after the exit guard, or
    [None] while the thread is still running or after undefined behaviour. *)
Definition _workerThreadRoutine (draw : Z) (envs : list SliceEnv) (it : ThreadIter)
    (st : Executor) : option (WorkerStep * Executor) :=
  let wk := {| state := it; stillPending := true; jitter := _getThreadJitter draw |} in
  match workerLoop envs wk st with
  | (KeepRunning, _, _) | (ExitUB, _, _) => None
  | (step, wk, st) =>
      match workerExit wk st with
      | None => None
      | Some st => Some (step, st)
      end
  end.

(** *** The controller *)

Inductive ThreadTimer : Set := Running | Executing.

(** [ServiceExecutorAdaptive::_getThreadTimerTotal]. *)
Definition _getThreadTimerTotal (which : ThreadTimer) (st : Executor) : Tick :=
  let accumulator :=
    match which with
    | Running => load _pastThreadsSpentRunning st
    | Executing => load _pastThreadsSpentExecuting st
    end in
  fold_left
    (fun accumulator (node : ThreadIter * ThreadState) =>
       match which with
       | Running => accumulator + totalTime (now st) (running (snd node))
       | Executing => accumulator + totalTime (now st) (executing (snd node))
       end)
    (threads st) accumulator.

(** The locals of [_controllerThreadRoutine]. *)
Record Controller : Set := {
  sinceLastControlRound : TickTimer;
  lastSpentExecuting : Tick;
  lastSpentRunning : Tick
}.

Definition controller_start (st : Executor) : Controller := {|
  sinceLastControlRound := tt_reset (now st);
  lastSpentExecuting := _getThreadTimerTotal Executing st;
  lastSpentRunning := _getThreadTimerTotal Running st
|}.

(** [timerResetGuard]. *)
Definition timerReset (c : Controller) (st : Executor) : Controller := {|
  sinceLastControlRound := tt_reset (now st);
  lastSpentExecuting := lastSpentExecuting c;
  lastSpentRunning := lastSpentRunning c
|}.

(** The block that computes [utilizationPct]. *)
Definition utilization (c : Controller) (st : Executor) : double * Controller :=
  let spentExecuting := _getThreadTimerTotal Executing st in
  let spentRunning := _getThreadTimerTotal Running st in
  let diffExecuting := spentExecuting - lastSpentExecuting c in
  let diffRunning := spentRunning - lastSpentRunning c in
  if (spentRunning =? 0) || (diffRunning =? 0) then (to_double 0, c)
  else
    let c := {| sinceLastControlRound := sinceLastControlRound c;
                lastSpentExecuting := spentExecuting;
                lastSpentRunning := spentRunning |} in
    let utilizationPct := ddiv (to_double diffExecuting) (to_double diffRunning) in
    (dmul utilizationPct (to_double 100), c).

(** The body of [if (sinceLastControlRound.sinceStart() >=
    _config->stuckThreadTimeout())], up to its [continue]. *)
Definition stuckDetection (st : Executor) : Executor :=
  let sinceLastSchedule :=
    sinceStart (ticksPerMillisecond st) (now st) (lastScheduleTimer st) in
  if (load _threadsInUse st =? load _threadsRunning st)
     && (sinceLastSchedule >=? stuckThreadTimeout cfg)
  then startWorkerThreads (Z.to_nat (reservedThreads cfg)) st
  else st.

(** [while (_threadsRunning.load() < _config->reservedThreads())
    _startWorkerThread();], at most [fuel] times round. *)
Fixpoint replenish_loop (fuel : nat) (st : Executor) : Executor :=
  match fuel with
  | O => st
  | S fuel' =>
      if load _threadsRunning st <? reservedThreads cfg
      then replenish_loop fuel' (_startWorkerThread st)
      else st
  end.

(** Every launch that succeeds brings [_threadsRunning] one closer to the
    reserve and every failed launch uses up one entry of the oracle, which
    bounds the rounds of the loop. *)
Definition replenish (st : Executor) : Executor :=
  replenish_loop
    (length (launchOracle st) + Z.to_nat (reservedThreads cfg - load _threadsRunning st))
    st.

(** [sleep_for(_config->maxQueueLatency())]: the clock moves by the latency,
    and by one tick at least. *)
Definition sleepTicks (st : Executor) : N :=
  Z.to_N (Z.max 1 (maxQueueLatency cfg * int_div (ticksPerSecond st) 1000000)).

Definition sleep_for (st : Executor) : Executor :=
  advance (sleepTicks st) (log (EvSleep (maxQueueLatency cfg)) st).

(** The [do ... while] that waits for pending threads, at most [S fuel]
    times round. *)
Fixpoint latencyWait_loop (fuel : nat) (c : Controller) (st : Executor) : Executor :=
  let st := sleep_for st in
  match fuel with
  | O => st
  | S fuel' =>
      if (load _threadsPending st >? 0)
         && (sinceStart (ticksPerMillisecond st) (now st) (sinceLastControlRound c)
             <? stuckThreadTimeout cfg)
      then latencyWait_loop fuel' c st
      else st
  end.

(** The clock moves at every sleep, so the ticks left until the stuck timeout
    bound the rounds of the loop. *)
Definition latencyWait (c : Controller) (st : Executor) : Executor :=
  latencyWait_loop
    (Z.to_nat (stuckThreadTimeout cfg * ticksPerMillisecond st
               - sinceStartTicks (now st) (sinceLastControlRound c)))
    c st.

Inductive ControllerStep : Set := NextRound | ControllerExit.

(** One pass through the body of the controller's [while
    (_isRunning.load())]; [waited] is how long [wait_for] blocked. *)
Definition controllerRound (waited : N) (c : Controller) (st : Executor)
  : ControllerStep * Controller * Executor :=
  let st := advance waited st in
  if negb (isRunning st) then (ControllerExit, timerReset c st, st)
  else
    let (utilizationPct, c) := utilization c st in
    if sinceStart (ticksPerMillisecond st) (now st) (sinceLastControlRound c)
       >=? stuckThreadTimeout cfg
    then
      let st := stuckDetection st in
      (NextRound, timerReset c st, st)
    else
      let threadsRunning := load _threadsRunning st in
      let st := if threadsRunning <? reservedThreads cfg then replenish st else st in
      if dltb utilizationPct (to_double (idlePctThreshold cfg))
      then (NextRound, timerReset c st, st)
      else
        let st := latencyWait c st in
        let st := if _isStarved st then _startWorkerThread st else st in
        (NextRound, timerReset c st, st).

(** [ServiceExecutorAdaptive::start], without the controller thread it
    launches. *)
Definition start (st : Executor) : Status * Executor :=
  let st := set_isRunning true st in
  (OK, startWorkerThreads (Z.to_nat (reservedThreads cfg)) st).

End WithOptions.

(** ** Sample configurations and states *)

(** The executor as its constructor leaves it, on a tick source that reads
    [t] and counts [tps] ticks to the second. *)
Definition executor_new (tps : Z) (t : Tick) : Executor := {|
  isRunning := false;
  threads := [];
  nextIter := O;
  atomics := fun _ => 0;
  lastScheduleTimer := tt_reset t;
  ioQueue := [];
  ioStopped := false;
  now := t;
  ticksPerSecond := tps;
  launchOracle := [];
  events := []
|}.

(** The options of the unit tests' scale: two reserved threads, recursion
    limit three, the other values at their defaults. *)
Definition sample_options : Options := {|
  reservedThreads := 2;
  workerThreadRunTime := 5000;
  runTimeJitter := 500;
  stuckThreadTimeout := 250;
  maxQueueLatency := 500;
  idlePctThreshold := 60;
  recursionLimit := 3
|}.

(** A started executor with its two reserved workers, at one tick to the
    microsecond. *)
Definition sample_started : Executor :=
  snd (start sample_options (executor_new 1000000 0)).

(** A task that submits itself again with [kMayRecurse], [n] levels deep. *)
Fixpoint resubmit (n : nat) : Task :=
  match n with
  | O => Return
  | S n' =>
      Submit {| kDeferredTask := false; kMayRecurse := true |} (resubmit n') Return
  end.

(** The events of a log that are thread launches, and those that are task
    bodies. *)
Definition is_launch (e : Event) : bool :=
  match e with EvLaunch _ => true | _ => false end.
Definition is_task (e : Event) : bool :=
  match e with EvTask _ => true | _ => false end.
Definition is_sleep (e : Event) : bool :=
  match e with EvSleep _ => true | _ => false end.

Definition count_launches (l : list Event) : nat := length (filter is_launch l).
Definition count_tasks (l : list Event) : nat := length (filter is_task l).

(** What the next [n] calls of [launchServiceWorkerThread] answer. *)
Fixpoint next_launches (n : nat) (oracle : list bool) : list bool :=
  match n with
  | O => []
  | S n' =>
      match oracle with
      | [] => true :: next_launches n' []
      | ok :: rest => ok :: next_launches n' rest
      end
  end.

(** One [addAndFetch(1)] on a word of [w] bits. *)
Definition incr (w : Z) (x : Z) : Z := wrap w (x + 1).

(** The first event a call added to the log, between the executor before and
    after. *)
Definition first_event (before after : Executor) : option Event :=
  nth_error (events after) (length (events before)).
Definition second_event (before after : Executor) : option Event :=
  nth_error (events after) (S (length (events before))).

(** A machine with eight cores, all of them available. *)
Definition eight_cores : ProcessInfo :=
  {| getNumAvailableCores := Some 8; getNumCores := 8 |}.

(** The parameters with no thread count configured. *)
Definition unconfigured : ServerParameterOptions.Parameters :=
  ServerParameterOptions.store_reservedThreads (-1) ServerParameterOptions.initial.

(** A short run time under the default jitter: slices of 100 ms, jitter of up
    to 500 ms either way. *)
Definition short_slices : Options := {|
  reservedThreads := 2;
  workerThreadRunTime := 100;
  runTimeJitter := 500;
  stuckThreadTimeout := 250;
  maxQueueLatency := 500;
  idlePctThreshold := 60;
  recursionLimit := 8
|}.

(** The started executor when the next thread launch is going to fail. *)
Definition sample_launch_fails : Executor :=
  set_launchOracle [false] sample_started.

(** The started executor once both workers are past their first slice and
    busy, with three tasks waiting. *)
Definition sample_starved : Executor :=
  store _tasksQueued 3 (store _threadsInUse 2 (store _threadsPending 0 sample_started)).

(** How many times [_startWorkerThread] tried to launch a thread, and by how
    many nodes [_threads] grew, between two states of the executor. *)
Definition spawned (before after : Executor) : nat :=
  count_launches (events after) - count_launches (events before).
Definition workers_added (before after : Executor) : Z :=
  Z.of_nat (length (threads after)) - Z.of_nat (length (threads before)).

(** The condition under which the controller takes the pool for stuck, read
    on the state [st] the controller wakes up in. *)
Definition stuck (cfg : Options) (st : Executor) : Prop :=
  load _threadsInUse st = load _threadsRunning st
  /\ sinceStart (ticksPerMillisecond st) (now st) (lastScheduleTimer st)
     >= stuckThreadTimeout cfg.

(** The wait of the controller's round timed out: the controller [c] wakes up
    in [st] with the stuck timeout elapsed since the last reset. *)
Definition timed_out (cfg : Options) (c : Controller) (st : Executor) : Prop :=
  sinceStart (ticksPerMillisecond st) (now st) (sinceLastControlRound c)
  >= stuckThreadTimeout cfg.

(** The started executor with both workers past their first slice and inside
    a task body. *)
Definition sample_stuck : Executor :=
  store _threadsInUse 2 (store _threadsPending 0 sample_started).

(** The started executor after the worker on node 1 has left. *)
Definition sample_one_left : Executor :=
  match workerExit {| state := 1%nat; stillPending := true; jitter := 0 |} sample_started with
  | Some st => st
  | None => sample_started
  end.

(** The retirement criterion as the specification words it: the worker is
    past its pending slice, the pool is above the reserve, and
    [100 * executing_this_run / spent_running], in exact arithmetic, is below
    the idle threshold. *)
Definition spec_retires (cfg : Options) (still_pending : bool) (threads_running : Z)
    (executing_this_run spent_running : Tick) : bool :=
  negb still_pending
  && (threads_running >? reservedThreads cfg)
  && (100 * executing_this_run / spent_running <? idlePctThreshold cfg).

(** The sample options with the idle threshold set to 58 per cent. *)
Definition idle_58 : Options := {|
  reservedThreads := 2;
  workerThreadRunTime := 5000;
  runTimeJitter := 500;
  stuckThreadTimeout := 250;
  maxQueueLatency := 500;
  idlePctThreshold := 58;
  recursionLimit := 3
|}.

(** The worker on node [it] after its pending slice. *)
Definition seasoned (it : ThreadIter) : Worker :=
  {| state := it; stillPending := false; jitter := 0 |}.

(** A pool of three: the two reserved workers have done their pending slice
    on an empty reactor, a third worker has been started, and one task of 58
    ticks has been posted from outside the pool. *)
Definition sample_three : Executor :=
  let fresh it := {| state := it; stillPending := true; jitter := 0 |} in
  let quiet := {| ready := O; idle := 10 |} in
  let st := snd (workerSlice idle_58 quiet (fresh 0%nat) sample_started) in
  let st := snd (workerSlice idle_58 quiet (fresh 1%nat) st) in
  let st := _startWorkerThread st in
  snd (schedule idle_58 (Work 58 Return) kEmptyFlags None st).

(** The slice in which worker 0 runs the posted task and then sits idle for
    42 ticks: 58 ticks executing out of 100 running. *)
Definition slice_58_of_100 : SliceEnv := {| ready := 1; idle := 42 |}.

(** The retirement criterion as the code evaluates it, on the executor [st]
    after a slice in which the worker [wk] was checked out for [spentRunning]
    ticks: the worker is past its pending slice, [_threadsRunning] is above
    the reserve, and [pctExecuting] is defined and below the idle threshold. *)
Definition retires (cfg : Options) (wk : Worker) (spentRunning : Tick) (st : Executor) : Prop :=
  stillPending wk = false
  /\ load _threadsRunning st > reservedThreads cfg
  /\ exists ts pct,
       deref (state wk) (threads st) = Some ts
       /\ pctExecuting (executingCurRun ts) spentRunning = Some pct
       /\ pct < idlePctThreshold cfg.

(** [after] has the log of [before] and possibly more. *)
Definition extends (before after : Executor) : Prop :=
  exists l, events after = events before ++ l.

(** What a task body and the tasks dispatched within it leave of the
    executor [before], seen from the thread that runs them: the thread states
    and [_threadsInUse] are as before, the clock has not gone back, and
    [_totalExecuted] has been counted up once for every task body in the new
    part of the log. *)
Definition nested (before after : Executor) : Prop :=
  threads after = threads before
  /\ load _threadsInUse after = load _threadsInUse before
  /\ now before <= now after
  /\ exists l,
       events after = events before ++ l
       /\ load _totalExecuted after
          = Nat.iter (count_tasks l) (incr 64) (load _totalExecuted before).

(** The events a call added to the log. *)
Definition new_events (before after : Executor) : list Event :=
  skipn (length (events before)) (events after).

Definition is_dispatch (e : Event) : bool :=
  match e with EvDispatch _ => true | _ => false end.

(** The hand-offs and task bodies of a log, without the closures. *)
Inductive Trace : Set :=
| Dispatched
| Posted
| Ran (depth : Z).

Fixpoint trace (l : list Event) : list Trace :=
  match l with
  | [] => []
  | EvDispatch _ :: l' => Dispatched :: trace l'
  | EvPost _ :: l' => Posted :: trace l'
  | EvTask d :: l' => Ran d :: trace l'
  | _ :: l' => trace l'
  end.

(** The closure [schedule] builds for [task] when called on [st]. *)
Definition wrapped_for (task : Task) (flags : ScheduleFlags) (st : Executor) : WrappedTask :=
  {| w_task := task;
     w_scheduleTime := now st;
     w_pendingCounterPtr :=
       if kDeferredTask flags then DeferredTasksQueued else TasksQueued |}.

Definition mayRecurse : ScheduleFlags :=
  {| kDeferredTask := false; kMayRecurse := true |}.

(** A body that works for 2 ticks and then submits, with [kMayRecurse], a task
    that works for 7 ticks and throws. *)
Definition throwing_task : Task :=
  Work 2 (Submit mayRecurse (Work 7 Throw) (Work 3 Return)).

(** The started executor with [throwing_task] posted from outside the pool
    and taken off the queue by the reactor. *)
Definition sample_posted : Executor :=
  set_ioQueue [] (snd (schedule sample_options throwing_task kEmptyFlags None sample_started)).

(** ** Shutdown *)


(** The rest of a pass through the worker's loop once [run_for] or
    [run_one_for] has returned without an exception: the restart of a stopped
    reactor, the stop of the running stopwatch and the check that ends the
    pass. *)
Definition afterReactor (cfg : Options) (wk : Worker) (st : Executor)
  : WorkerStep * Worker * Executor :=
  let st := if ioStopped st then restart st else st in
  match deref (state wk) (threads st) with
  | None => (ExitUB, wk, st)
  | Some ts =>
      let (spentRunning, rn) := markStopped (now st) (running ts) in
      let st := set_threads (assign (state wk) (set_running rn ts) (threads st)) st in
      afterRun cfg wk spentRunning st
  end.




(** ** The hand-off as the specification words it *)

(** "If MAY_RECURSE is set and the calling thread is a worker with
    recursion_depth + 1 < recursionLimit(), call dispatch; otherwise post." *)
Definition spec_handoff (cfg : Options) (flags : ScheduleFlags)
    (caller : option ThreadIter) (st : Executor) : Trace :=
  let worker_below_limit :=
    match caller with
    | Some self =>
        match deref self (threads st) with
        | Some ts => recursionDepth ts + 1 <? recursionLimit cfg
        | None => false
        end
    | None => false
    end in
  if kMayRecurse flags && worker_below_limit then Dispatched else Posted.

(** Whether a task body submits a task of its own. *)
Fixpoint submits (t : Task) : bool :=
  match t with
  | Return | Throw => false
  | Work _ k => submits k
  | Submit _ _ _ => true
  end.

(** ** Relations between states *)

(** What running tasks leaves alone: the running flag, the size of the pool
    and its bookkeeping, the nodes of [_threads], the launch oracle and the
    tick rate; the clock does not go back. *)
Definition same_pool (before after : Executor) : Prop :=
  isRunning after = isRunning before
  /\ load _threadsRunning after = load _threadsRunning before
  /\ load _threadsPending after = load _threadsPending before
  /\ load _pastThreadsSpentRunning after = load _pastThreadsSpentRunning before
  /\ load _pastThreadsSpentExecuting after = load _pastThreadsSpentExecuting before
  /\ map fst (threads after) = map fst (threads before)
  /\ nextIter after = nextIter before
  /\ launchOracle after = launchOracle before
  /\ ticksPerSecond after = ticksPerSecond before
  /\ now before <= now after.

(** The atomic words a task and its wrapper write. *)
Definition written_by_tasks (c : Counter) : bool :=
  match c with
  | _tasksQueued | _deferredTasksQueued | _totalQueued | _totalExecuted
  | _totalSpentQueued | _threadsInUse => true
  | _ => false
  end.

(** [_threadsRunning] counts the nodes of [_threads]. *)
Definition pool_consistent (st : Executor) : Prop :=
  load _threadsRunning st = Z.of_nat (length (threads st)).

(** The handlers of a queue that count against the pending counter [p]. *)
Definition counts_against (p : PendingCounter) (w : WrappedTask) : bool :=
  match p, w_pendingCounterPtr w with
  | TasksQueued, TasksQueued => true
  | DeferredTasksQueued, DeferredTasksQueued => true
  | _, _ => false
  end.

Definition queued (p : PendingCounter) (q : list WrappedTask) : nat :=
  length (filter (counts_against p) q).

(** Each pending counter holds the number of handlers of its kind that are in
    the reactor's queue or, taken off it, in [taken]. *)
Definition balanced (taken : list WrappedTask) (st : Executor) : Prop :=
  forall p : PendingCounter,
    load (counter_of p) st = wrap 32 (Z.of_nat (queued p (taken ++ ioQueue st))).

(** The sum of [totalTime] over a thread list, for one of the two timers. *)
Definition timer_of (which : ThreadTimer) (ts : ThreadState) : CumulativeTickTimer :=
  match which with
  | Running => running ts
  | Executing => executing ts
  end.

Definition past_of (which : ThreadTimer) : Counter :=
  match which with
  | Running => _pastThreadsSpentRunning
  | Executing => _pastThreadsSpentExecuting
  end.

(** Whether a replacement worker was started when the loop ended in [step]
    on an executor whose next launch is [oracle]'s head. *)
Definition replaced (step : WorkerStep) (oracle : list bool) : Z :=
  match step with
  | ExitException => if hd true oracle then 1 else 0
  | _ => 0
  end.


(** The events the admission path and the task wrapper log. *)
Definition logged_by_tasks (e : Event) : bool :=
  match e with
  | EvDispatch _ | EvPost _ | EvTask _ | EvScheduleNotify => true
  | _ => false
  end.

(** No thread was launched between two states. *)
Definition no_launch (before after : Executor) : Prop :=
  count_launches (events after) = count_launches (events before).


(** * Properties *)

(** ** Machine integers *)

Lemma wrap_id (w z : Z) : 0 < w -> in_range w z -> wrap w z = z.
Proof.
  unfold wrap, in_range. intros Hw [Hlo Hhi].
  assert (Hp : 2 ^ w = 2 * 2 ^ (w - 1)).
  { replace w with (Z.succ (w - 1)) at 1 by lia. apply Z.pow_succ_r. lia. }
  rewrite Z.mod_small; lia.
Qed.

Lemma wrap_in_range (w z : Z) : 0 < w -> in_range w (wrap w z).
Proof.
  unfold wrap, in_range. intros Hw.
  assert (Hp : 2 ^ w = 2 * 2 ^ (w - 1)).
  { replace w with (Z.succ (w - 1)) at 1 by lia. apply Z.pow_succ_r. lia. }
  assert (Hpos : 0 < 2 ^ (w - 1)) by (apply Z.pow_pos_nonneg; lia).
  pose proof (Z.mod_pos_bound (z + 2 ^ (w - 1)) (2 ^ w) ltac:(lia)). lia.
Qed.

Lemma wrap_wrap_add (w a b : Z) : 0 < w -> wrap w (wrap w a + b) = wrap w (a + b).
Proof.
  unfold wrap. intros Hw.
  assert (Hpos : 0 < 2 ^ w) by (apply Z.pow_pos_nonneg; lia).
  f_equal.
  replace ((a + 2 ^ (w - 1)) mod 2 ^ w - 2 ^ (w - 1) + b + 2 ^ (w - 1))
    with ((a + 2 ^ (w - 1)) mod 2 ^ w + b) by lia.
  rewrite Zplus_mod_idemp_l. f_equal. lia.
Qed.

Lemma wrap_inc_dec (w x : Z) : 0 < w -> in_range w x -> wrap w (wrap w (x + 1) - 1) = x.
Proof.
  intros Hw Hx. unfold Z.sub at 1. rewrite wrap_wrap_add by assumption.
  replace (x + 1 + - (1)) with x by lia. apply wrap_id; assumption.
Qed.

Lemma int_add_exact (x y : Z) : is_int (x + y) -> int_add x y = x + y.
Proof. intros H. apply wrap_id; [lia | exact H]. Qed.

Lemma int_sub_exact (x y : Z) : is_int (x - y) -> int_sub x y = x - y.
Proof. intros H. apply wrap_id; [lia | exact H]. Qed.

Lemma width_pos (c : Counter) : 0 < width c.
Proof. destruct c; simpl; lia. Qed.

(** ** The atomic words *)

Lemma load_store_eq (c : Counter) (v : Z) (st : Executor) : load c (store c v st) = v.
Proof. unfold load, store. simpl. destruct (Counter_eq_dec c c); congruence. Qed.

Lemma load_store_neq (c c' : Counter) (v : Z) (st : Executor) :
  c <> c' -> load c' (store c v st) = load c' st.
Proof. intros H. unfold load, store. simpl. destruct (Counter_eq_dec c c'); congruence. Qed.

Lemma load_addAndFetch_eq (c : Counter) (d : Z) (st : Executor) :
  load c (addAndFetch c d st) = wrap (width c) (load c st + d).
Proof. apply load_store_eq. Qed.

Lemma load_addAndFetch_neq (c c' : Counter) (d : Z) (st : Executor) :
  c <> c' -> load c' (addAndFetch c d st) = load c' st.
Proof. apply load_store_neq. Qed.

Lemma load_subtractAndFetch_eq (c : Counter) (d : Z) (st : Executor) :
  load c (subtractAndFetch c d st) = wrap (width c) (load c st - d).
Proof. apply load_store_eq. Qed.

Lemma load_subtractAndFetch_neq (c c' : Counter) (d : Z) (st : Executor) :
  c <> c' -> load c' (subtractAndFetch c d st) = load c' st.
Proof. apply load_store_neq. Qed.

Lemma load_log (c : Counter) (e : Event) (st : Executor) : load c (log e st) = load c st.
Proof. reflexivity. Qed.

(** ** The starvation predicate *)

(** C1.  On every executor state whose free-thread count
    [threads_running - threads_in_use] is representable as an [int],
    [_isStarved] is false when [threads_pending > 0]; otherwise false when
    [tasks_queued = 0]; otherwise true exactly when [tasks_queued] is greater
    than [threads_running - threads_in_use]. *)
Theorem isStarved_spec (st : Executor) :
  is_int (load _threadsRunning st - load _threadsInUse st) ->
  (load _threadsPending st > 0 -> _isStarved st = false)
  /\ (load _threadsPending st <= 0 -> load _tasksQueued st = 0 -> _isStarved st = false)
  /\ (load _threadsPending st <= 0 -> load _tasksQueued st <> 0 ->
      (_isStarved st = true
       <-> load _tasksQueued st > load _threadsRunning st - load _threadsInUse st)).
Proof.
  intros Hrange. unfold _isStarved. rewrite (int_sub_exact _ _ Hrange).
  repeat split.
  - intros Hp. destruct (Z.gtb_spec (load _threadsPending st) 0); [reflexivity | lia].
  - intros Hp Hq. destruct (Z.gtb_spec (load _threadsPending st) 0); [reflexivity |].
    rewrite Hq. reflexivity.
  - intros Hs.
    destruct (Z.gtb_spec (load _threadsPending st) 0); [lia |].
    destruct (Z.eqb_spec (load _tasksQueued st) 0); [lia |].
    destruct (Z.gtb_spec (load _tasksQueued st)
                (load _threadsRunning st - load _threadsInUse st)); [lia | discriminate].
  - intros Hgt.
    destruct (Z.gtb_spec (load _threadsPending st) 0); [lia |].
    destruct (Z.eqb_spec (load _tasksQueued st) 0); [lia |].
    destruct (Z.gtb_spec (load _tasksQueued st)
                (load _threadsRunning st - load _threadsInUse st)); [reflexivity | lia].
Qed.

Lemma isStarved_spec_witness : _isStarved sample_starved = true.
Proof.
  assert (Hrange : is_int (load _threadsRunning sample_starved
                           - load _threadsInUse sample_starved)).
  { unfold is_int, in_range. vm_compute. split; [discriminate | reflexivity]. }
  destruct (isStarved_spec sample_starved Hrange) as (_ & _ & H3).
  apply H3; vm_compute; [discriminate | discriminate | reflexivity].
Defined.

(** ** The options provider *)

(** A stored -1 resolves to the larger of half the cores and 2, and the
    resolved value is stored back. *)
Lemma reservedThreads_resolves (pi : ProcessInfo) (p : ServerParameterOptions.Parameters) :
  ServerParameterOptions.adaptiveServiceExecutorReservedThreads p = -1 ->
  let cores := match getNumAvailableCores pi with
               | Some n => n
               | None => getNumCores pi
               end in
  let v := Z.max (cores ÷ 2) 2 in
  ServerParameterOptions.reservedThreads pi p
  = (v, ServerParameterOptions.store_reservedThreads v p).
Proof.
  intros H. unfold ServerParameterOptions.reservedThreads. rewrite H. reflexivity.
Qed.

(** After the first call every later call returns the same value and leaves
    the parameters alone. *)
Lemma reservedThreads_memoized (pi pi' : ProcessInfo) (p : ServerParameterOptions.Parameters) :
  let (v, p') := ServerParameterOptions.reservedThreads pi p in
  ServerParameterOptions.reservedThreads pi' p' = (v, p').
Proof.
  unfold ServerParameterOptions.reservedThreads.
  destruct (Z.eqb_spec (ServerParameterOptions.adaptiveServiceExecutorReservedThreads p) (-1))
    as [Heq | Hne].
  - simpl.
    destruct (Z.eqb_spec
                (Z.max (int_div match getNumAvailableCores pi with
                                | Some n => n
                                | None => getNumCores pi
                                end 2) 2) (-1)) as [Hbad | _]; [lia | reflexivity].
  - destruct (Z.eqb_spec (ServerParameterOptions.adaptiveServiceExecutorReservedThreads p) (-1));
      [contradiction | reflexivity].
Qed.

Example reservedThreads_unconfigured_eight_cores :
  fst (ServerParameterOptions.reservedThreads eight_cores unconfigured) = 4.
Proof. reflexivity. Qed.

(** C8.  The parameter's initial value is 1, not -1: on the initial
    parameters [reservedThreads()] returns 1 whatever the number of cores, and
    stores nothing.  (The resolution of a stored -1 and its memoization are
    [reservedThreads_resolves] and [reservedThreads_memoized].) *)
Theorem reservedThreads_initial (pi : ProcessInfo) :
  ServerParameterOptions.adaptiveServiceExecutorReservedThreads
    ServerParameterOptions.initial = 1
  /\ ServerParameterOptions.reservedThreads pi ServerParameterOptions.initial
     = (1, ServerParameterOptions.initial).
Proof. split; reflexivity. Qed.

(** ** The run time of a slice *)

(** The jitter is the draw, unless the jitter parameter is zero or the draw
    exceeds the run time. *)
Lemma getThreadJitter_spec (cfg : Options) (draw : Z) :
  _getThreadJitter cfg draw
  = if (runTimeJitter cfg =? 0) || (draw >? workerThreadRunTime cfg) then 0 else draw.
Proof.
  unfold _getThreadJitter.
  destruct (runTimeJitter cfg =? 0); [reflexivity |].
  destruct (draw >? workerThreadRunTime cfg); reflexivity.
Qed.

(** When the jitter parameter stays below the run time, the run time of every
    slice is positive. *)
Lemma runTime_positive (cfg : Options) (draw : Z) (it : ThreadIter) (pending : bool) :
  0 <= runTimeJitter cfg < workerThreadRunTime cfg ->
  valid_draw cfg draw ->
  dassert_runTime cfg
    {| state := it; stillPending := pending; jitter := _getThreadJitter cfg draw |} = true.
Proof.
  unfold valid_draw, dassert_runTime, runTime. simpl. intros Hcfg Hdraw.
  rewrite getThreadJitter_spec.
  destruct (runTimeJitter cfg =? 0); simpl.
  - apply Z.gtb_lt. lia.
  - destruct (Z.gtb_spec draw (workerThreadRunTime cfg)); apply Z.gtb_lt; lia.
Qed.

(** C5.  With a run time of 100 ms and the default jitter of 500 ms, the draw
    -300 lies in the distribution's range and is not clamped (only a draw above
    the run time is), so the slice's run time is -200 ms and the asserted
    condition is false. *)
Theorem runTime_dassert_fails :
  valid_draw short_slices (-300)
  /\ _getThreadJitter short_slices (-300) = -300
  /\ runTime short_slices
       {| state := O; stillPending := true;
          jitter := _getThreadJitter short_slices (-300) |} = -200
  /\ dassert_runTime short_slices
       {| state := O; stillPending := true;
          jitter := _getThreadJitter short_slices (-300) |} = false.
Proof.
  unfold valid_draw. simpl. repeat split; lia.
Qed.

(** ** Spawning *)

Lemma erase_head (it : ThreadIter) (ts : ThreadState) (l : ThreadList) :
  erase it ((it, ts) :: l) = l.
Proof. simpl. rewrite Nat.eqb_refl. reflexivity. Qed.

(** A launch that fails leaves every atomic word as it was. *)
Lemma startWorkerThread_failed_atomics (st : Executor) (rest : list bool) (c : Counter) :
  launchOracle st = false :: rest ->
  is_int (load _threadsPending st) ->
  is_int (load _threadsRunning st) ->
  load c (_startWorkerThread st) = load c st.
Proof.
  intros Ho Hp Hr. unfold _startWorkerThread, emplace_front, launchServiceWorkerThread.
  simpl. rewrite Ho. simpl.
  unfold load, subtractAndFetch, addAndFetch, store, load. simpl.
  destruct c; simpl; try reflexivity.
  - apply wrap_inc_dec; [lia | exact Hr].
  - apply wrap_inc_dec; [lia | exact Hp].
Qed.

(** C9.  When the launch fails, [_startWorkerThread] leaves [_threads],
    [_threadsPending] and [_threadsRunning] equal to their values before the
    call; what remains of the call is the launch attempt in the log and the
    used-up iterator.  The function returns nothing to its caller. *)
Theorem startWorkerThread_launch_failure (st : Executor) (rest : list bool) :
  launchOracle st = false :: rest ->
  is_int (load _threadsPending st) ->
  is_int (load _threadsRunning st) ->
  threads (_startWorkerThread st) = threads st
  /\ load _threadsPending (_startWorkerThread st) = load _threadsPending st
  /\ load _threadsRunning (_startWorkerThread st) = load _threadsRunning st
  /\ events (_startWorkerThread st) = events st ++ [EvLaunch false]
  /\ isRunning (_startWorkerThread st) = isRunning st
  /\ ioQueue (_startWorkerThread st) = ioQueue st.
Proof.
  intros Ho Hp Hr.
  split; [| split; [| split]].
  - unfold _startWorkerThread, emplace_front, launchServiceWorkerThread.
    simpl. rewrite Ho. simpl. rewrite Nat.eqb_refl. reflexivity.
  - eapply startWorkerThread_failed_atomics; eassumption.
  - eapply startWorkerThread_failed_atomics; eassumption.
  - unfold _startWorkerThread, emplace_front, launchServiceWorkerThread.
    simpl. rewrite Ho. simpl. repeat split.
Qed.

Lemma startWorkerThread_launch_failure_witness :
  threads (_startWorkerThread sample_launch_fails) = threads sample_launch_fails
  /\ load _threadsPending (_startWorkerThread sample_launch_fails) = 2
  /\ load _threadsRunning (_startWorkerThread sample_launch_fails) = 2.
Proof.
  assert (Hp : is_int (load _threadsPending sample_launch_fails)).
  { unfold is_int, in_range. vm_compute. split; [discriminate | reflexivity]. }
  assert (Hr : is_int (load _threadsRunning sample_launch_fails)).
  { unfold is_int, in_range. vm_compute. split; [discriminate | reflexivity]. }
  destruct (startWorkerThread_launch_failure sample_launch_fails [] eq_refl Hp Hr)
    as (Ht & Hpe & Hru & _).
  split; [exact Ht | split; [rewrite Hpe | rewrite Hru]; reflexivity].
Defined.

(** What one call of [_startWorkerThread] leaves in the log and in the
    oracle. *)
Lemma startWorkerThread_events (st : Executor) :
  events (_startWorkerThread st) = events st ++ map EvLaunch (next_launches 1 (launchOracle st))
  /\ launchOracle (_startWorkerThread st) = tl (launchOracle st).
Proof.
  unfold _startWorkerThread, emplace_front, launchServiceWorkerThread. simpl.
  destruct (launchOracle st) as [| [|] rest] eqn:Ho; simpl; rewrite ?Ho; split; reflexivity.
Qed.

Lemma startWorkerThread_frame (st : Executor) :
  now (_startWorkerThread st) = now st
  /\ isRunning (_startWorkerThread st) = isRunning st
  /\ ticksPerSecond (_startWorkerThread st) = ticksPerSecond st
  /\ lastScheduleTimer (_startWorkerThread st) = lastScheduleTimer st
  /\ ioQueue (_startWorkerThread st) = ioQueue st.
Proof.
  unfold _startWorkerThread, emplace_front, launchServiceWorkerThread. simpl.
  destruct (launchOracle st) as [| [|] rest] eqn:Ho; simpl; repeat split; reflexivity.
Qed.

(** A launch that succeeds adds one node and one to [_threadsRunning]. *)
Lemma startWorkerThread_launched (st : Executor) :
  hd true (launchOracle st) = true ->
  length (threads (_startWorkerThread st)) = S (length (threads st))
  /\ load _threadsRunning (_startWorkerThread st) = incr 32 (load _threadsRunning st)
  /\ load _threadsPending (_startWorkerThread st) = incr 32 (load _threadsPending st).
Proof.
  unfold _startWorkerThread, emplace_front, launchServiceWorkerThread. simpl.
  destruct (launchOracle st) as [| [|] rest]; simpl; intros H; try discriminate;
    repeat split; reflexivity.
Qed.

Lemma next_launches_S (n : nat) (oracle : list bool) :
  next_launches (S n) oracle = hd true oracle :: next_launches n (tl oracle).
Proof. destruct oracle; reflexivity. Qed.

Lemma next_launches_length (n : nat) (oracle : list bool) :
  length (next_launches n oracle) = n.
Proof.
  revert oracle. induction n as [| n IH]; intros oracle; [reflexivity |].
  rewrite next_launches_S. simpl. rewrite IH. reflexivity.
Qed.

(** The [for] loop over [_startWorkerThread] tries exactly [n] launches. *)
Lemma startWorkerThreads_events (n : nat) (st : Executor) :
  events (startWorkerThreads n st)
  = events st ++ map EvLaunch (next_launches n (launchOracle st)).
Proof.
  revert st. induction n as [| n IH]; intros st.
  - simpl. rewrite app_nil_r. reflexivity.
  - cbn [startWorkerThreads]. rewrite IH.
    destruct (startWorkerThread_events st) as [He Ho]. rewrite He, Ho.
    rewrite <- app_assoc. f_equal.
    rewrite (next_launches_S n). destruct (launchOracle st); reflexivity.
Qed.

Lemma startWorkerThreads_frame (n : nat) (st : Executor) :
  now (startWorkerThreads n st) = now st
  /\ isRunning (startWorkerThreads n st) = isRunning st.
Proof.
  revert st. induction n as [| n IH]; intros st; [split; reflexivity |].
  cbn [startWorkerThreads]. destruct (IH (_startWorkerThread st)) as [H1 H2].
  destruct (startWorkerThread_frame st) as (F1 & F2 & _).
  split; congruence.
Qed.

(** When none of the [n] launches fails, the loop adds [n] nodes and counts
    [_threadsRunning] up [n] times. *)
Lemma startWorkerThreads_launched (n : nat) (st : Executor) :
  Forall (eq true) (next_launches n (launchOracle st)) ->
  length (threads (startWorkerThreads n st)) = (n + length (threads st))%nat
  /\ load _threadsRunning (startWorkerThreads n st)
     = Nat.iter n (incr 32) (load _threadsRunning st).
Proof.
  revert st. induction n as [| n IH]; intros st Hall; [split; reflexivity |].
  rewrite next_launches_S in Hall. inversion Hall as [| ? ? Hhd Htl]; subst.
  cbn [startWorkerThreads].
  destruct (startWorkerThread_events st) as [_ Ho].
  destruct (startWorkerThread_launched st (eq_sym Hhd)) as (Hlen & Hrun & _).
  rewrite <- Ho in Htl. destruct (IH _ Htl) as [IH1 IH2].
  rewrite IH1, IH2, Hlen, Hrun. split; [lia |].
  symmetry. apply Nat.iter_succ_r.
Qed.

Lemma count_launches_app (l l' : list Event) :
  count_launches (l ++ l') = (count_launches l + count_launches l')%nat.
Proof. unfold count_launches. rewrite filter_app, length_app. reflexivity. Qed.

Lemma count_launches_map (oks : list bool) :
  count_launches (map EvLaunch oks) = length oks.
Proof.
  unfold count_launches. induction oks as [| ok oks IH]; [reflexivity |].
  simpl. rewrite IH. reflexivity.
Qed.

Lemma spawned_startWorkerThreads (n : nat) (st : Executor) :
  spawned st (startWorkerThreads n st) = n.
Proof.
  unfold spawned. rewrite startWorkerThreads_events, count_launches_app,
    count_launches_map, next_launches_length. lia.
Qed.

(** ** The controller *)

Lemma utilization_timer (c : Controller) (st : Executor) :
  sinceLastControlRound (snd (utilization c st)) = sinceLastControlRound c.
Proof.
  unfold utilization.
  destruct ((_getThreadTimerTotal Running st =? 0)
            || (_getThreadTimerTotal Running st - lastSpentRunning c =? 0)); reflexivity.
Qed.

(** A round whose wait timed out does the stuck check and nothing after it. *)
Lemma controllerRound_timed_out (cfg : Options) (waited : N) (c : Controller) (st : Executor) :
  isRunning st = true ->
  timed_out cfg c (advance waited st) ->
  controllerRound cfg waited c st
  = (NextRound,
     timerReset (snd (utilization c (advance waited st)))
       (stuckDetection cfg (advance waited st)),
     stuckDetection cfg (advance waited st)).
Proof.
  unfold timed_out, controllerRound. intros Hrun Hto.
  change (isRunning (advance waited st)) with (isRunning st). rewrite Hrun. simpl negb. cbv iota.
  pose proof (utilization_timer c (advance waited st)) as Ht.
  destruct (utilization c (advance waited st)) as [u c']. simpl in Ht. rewrite Ht.
  destruct (Z.geb_spec
              (sinceStart (ticksPerMillisecond (advance waited st)) (now (advance waited st))
                 (sinceLastControlRound c)) (stuckThreadTimeout cfg)) as [_ | Hlt];
    [reflexivity | lia].
Qed.

Lemma stuckDetection_stuck (cfg : Options) (st : Executor) :
  stuck cfg st ->
  stuckDetection cfg st = startWorkerThreads (Z.to_nat (reservedThreads cfg)) st.
Proof.
  unfold stuck, stuckDetection. intros [Heq Hge]. rewrite Heq, Z.eqb_refl. simpl.
  destruct (Z.geb_spec
              (sinceStart (ticksPerMillisecond st) (now st) (lastScheduleTimer st))
              (stuckThreadTimeout cfg)); [reflexivity | lia].
Qed.

Lemma stuckDetection_not_stuck (cfg : Options) (st : Executor) :
  ~ stuck cfg st -> stuckDetection cfg st = st.
Proof.
  unfold stuck, stuckDetection. intros Hn.
  destruct (Z.eqb_spec (load _threadsInUse st) (load _threadsRunning st)) as [Heq | Hne];
    [| reflexivity].
  destruct (Z.geb_spec
              (sinceStart (ticksPerMillisecond st) (now st) (lastScheduleTimer st))
              (stuckThreadTimeout cfg)) as [Hge | Hlt]; [| reflexivity].
  exfalso. apply Hn. split; [exact Heq | lia].
Qed.

(** C2.  In a round of the running controller whose wait timed out: if every
    running worker is in use and the last schedule is at least the stuck
    timeout old, the round calls [_startWorkerThread] exactly
    [reservedThreads()] times, and when none of these launches fails the pool
    grows by exactly [reservedThreads()] workers; if either condition fails,
    the round spawns none and leaves the executor as the wait left it. *)
Theorem stuck_round_spawns_reserve
    (cfg : Options) (waited : N) (c : Controller) (st : Executor) :
  isRunning st = true ->
  0 <= reservedThreads cfg ->
  timed_out cfg c (advance waited st) ->
  let woken := advance waited st in
  let after := snd (controllerRound cfg waited c st) in
  (stuck cfg woken ->
     Z.of_nat (spawned woken after) = reservedThreads cfg
     /\ (Forall (eq true)
           (next_launches (Z.to_nat (reservedThreads cfg)) (launchOracle st)) ->
         workers_added woken after = reservedThreads cfg
         /\ load _threadsRunning after
            = Nat.iter (Z.to_nat (reservedThreads cfg)) (incr 32)
                (load _threadsRunning st)))
  /\ (~ stuck cfg woken -> spawned woken after = O /\ after = woken).
Proof.
  intros Hrun Hres Hto woken after. subst woken after.
  rewrite (controllerRound_timed_out cfg waited c st Hrun Hto). cbn [snd].
  split.
  - intros Hs. rewrite (stuckDetection_stuck cfg _ Hs). split.
    + rewrite spawned_startWorkerThreads. apply Z2Nat.id. exact Hres.
    + intros Hall.
      destruct (startWorkerThreads_launched (Z.to_nat (reservedThreads cfg))
                  (advance waited st) Hall) as [Hlen Hr].
      split; [| exact Hr].
      unfold workers_added. rewrite Hlen. rewrite Nat2Z.inj_add, Z2Nat.id by exact Hres. lia.
  - intros Hn. rewrite (stuckDetection_not_stuck cfg _ Hn). split; [| reflexivity].
    unfold spawned. lia.
Qed.

Lemma stuck_round_spawns_reserve_witness :
  Z.of_nat (spawned (advance 250000 sample_stuck)
              (snd (controllerRound sample_options 250000
                      (controller_start sample_stuck) sample_stuck))) = 2
  /\ workers_added (advance 250000 sample_stuck)
       (snd (controllerRound sample_options 250000
               (controller_start sample_stuck) sample_stuck)) = 2.
Proof.
  assert (Hrun : isRunning sample_stuck = true) by reflexivity.
  assert (Hres : 0 <= reservedThreads sample_options) by (simpl; lia).
  assert (Hto : timed_out sample_options (controller_start sample_stuck)
                  (advance 250000 sample_stuck)).
  { unfold timed_out. vm_compute. discriminate. }
  assert (Hs : stuck sample_options (advance 250000 sample_stuck)).
  { unfold stuck. split; [reflexivity | vm_compute; discriminate]. }
  destruct (stuck_round_spawns_reserve sample_options 250000
              (controller_start sample_stuck) sample_stuck Hrun Hres Hto) as [Hyes _].
  destruct (Hyes Hs) as [Hn Hall]. split; [exact Hn |].
  apply Hall. vm_compute. repeat constructor.
Defined.

Lemma filter_sleep_launches (oks : list bool) : filter is_sleep (map EvLaunch oks) = [].
Proof. induction oks as [| ok oks IH]; [reflexivity | exact IH]. Qed.

(** C10.  A round whose wait timed out ends right after the stuck check: the
    executor it leaves is the one the stuck check leaves (or, when the executor
    has stopped, the one the wait left), so it holds no sleep of the latency
    wait and no spawn besides the stuck path's; and when the stuck condition
    does not hold the executor is left exactly as the wait left it, whatever
    [_threadsRunning] is against the reserve and whatever [_isStarved]
    says. *)
Theorem timed_out_round_ends_after_stuck_check
    (cfg : Options) (waited : N) (c : Controller) (st : Executor) :
  timed_out cfg c (advance waited st) ->
  let woken := advance waited st in
  let round := controllerRound cfg waited c st in
  snd round = (if isRunning st then stuckDetection cfg woken else woken)
  /\ filter is_sleep (events (snd round)) = filter is_sleep (events st)
  /\ (~ stuck cfg woken -> snd round = woken /\ spawned woken (snd round) = O)
  /\ sinceLastControlRound (snd (fst round)) = tt_reset (now woken).
Proof.
  intros Hto woken round. subst woken round.
  destruct (isRunning st) eqn:Hrun.
  - rewrite (controllerRound_timed_out cfg waited c st Hrun Hto). cbn [fst snd].
    split; [reflexivity |]. split; [| split].
    + unfold stuckDetection.
      destruct ((load _threadsInUse (advance waited st)
                 =? load _threadsRunning (advance waited st))
                && (sinceStart (ticksPerMillisecond (advance waited st))
                      (now (advance waited st)) (lastScheduleTimer (advance waited st))
                    >=? stuckThreadTimeout cfg)); [| reflexivity].
      rewrite startWorkerThreads_events, filter_app, filter_sleep_launches, app_nil_r.
      reflexivity.
    + intros Hn. rewrite (stuckDetection_not_stuck cfg _ Hn).
      split; [reflexivity | unfold spawned; lia].
    + unfold timerReset. cbn [sinceLastControlRound]. f_equal.
      unfold stuckDetection.
      destruct ((load _threadsInUse (advance waited st)
                 =? load _threadsRunning (advance waited st))
                && (sinceStart (ticksPerMillisecond (advance waited st))
                      (now (advance waited st)) (lastScheduleTimer (advance waited st))
                    >=? stuckThreadTimeout cfg)); [| reflexivity].
      apply startWorkerThreads_frame.
  - unfold controllerRound.
    change (isRunning (advance waited st)) with (isRunning st). rewrite Hrun.
    cbn. repeat split. unfold spawned. lia.
Qed.

Lemma timed_out_round_ends_after_stuck_check_witness :
  load _threadsRunning sample_one_left < reservedThreads sample_options
  /\ snd (controllerRound sample_options 250000
            (controller_start sample_one_left) sample_one_left)
     = advance 250000 sample_one_left.
Proof.
  split; [vm_compute; reflexivity |].
  assert (Hto : timed_out sample_options (controller_start sample_one_left)
                  (advance 250000 sample_one_left)).
  { unfold timed_out. vm_compute. discriminate. }
  assert (Hn : ~ stuck sample_options (advance 250000 sample_one_left)).
  { unfold stuck. intros [Heq _]. vm_compute in Heq. discriminate. }
  destruct (timed_out_round_ends_after_stuck_check sample_options 250000
              (controller_start sample_one_left) sample_one_left Hto) as (_ & _ & H3 & _).
  apply H3. exact Hn.
Defined.

(** The same executor, one worker short of the reserve, in a round woken
    after one millisecond: the round replenishes the reserve. *)
Example early_round_replenishes :
  spawned (advance 1000 sample_one_left)
    (snd (controllerRound sample_options 1000
            (controller_start sample_one_left) sample_one_left)) = 1%nat
  /\ load _threadsRunning
       (snd (controllerRound sample_options 1000
               (controller_start sample_one_left) sample_one_left)) = 2.
Proof. split; reflexivity. Qed.

(** ** The worker *)

(** The check that ends a pass retires the worker exactly on [retires]. *)
Lemma afterRun_exits_idle (cfg : Options) (wk : Worker) (spentRunning : Tick) (st : Executor) :
  fst (fst (afterRun cfg wk spentRunning st)) = ExitIdle <-> retires cfg wk spentRunning st.
Proof.
  unfold afterRun, retires. split.
  - destruct (stillPending wk); [discriminate |].
    destruct (Z.gtb_spec (load _threadsRunning st) (reservedThreads cfg)) as [Hgt | Hle];
      [| discriminate].
    destruct (deref (state wk) (threads st)) as [ts |] eqn:Hd; [| discriminate].
    destruct (pctExecuting (executingCurRun ts) spentRunning) as [pct |] eqn:Hpct;
      [| discriminate].
    destruct (Z.ltb_spec pct (idlePctThreshold cfg)) as [Hlt | Hge]; [| discriminate].
    intros _. split; [reflexivity |]. split; [lia |]. exists ts, pct.
    split; [reflexivity |]. split; [exact Hpct | exact Hlt].
  - intros (Hp & Hgt & ts & pct & Hd & Hpct & Hlt).
    rewrite Hp, Hd, Hpct.
    destruct (Z.gtb_spec (load _threadsRunning st) (reservedThreads cfg)); [| lia].
    destruct (Z.ltb_spec pct (idlePctThreshold cfg)); [reflexivity | lia].
Qed.

(** [afterRun] does not touch the executor when it retires the worker. *)
Lemma afterRun_exit_state (cfg : Options) (wk wk' : Worker) (spentRunning : Tick)
    (st st' : Executor) :
  afterRun cfg wk spentRunning st = (ExitIdle, wk', st') -> st' = st /\ wk' = wk.
Proof.
  unfold afterRun.
  destruct (stillPending wk); [discriminate |].
  destruct (load _threadsRunning st >? reservedThreads cfg); [| discriminate].
  destruct (deref (state wk) (threads st)) as [ts |]; [| discriminate].
  destruct (pctExecuting (executingCurRun ts) spentRunning) as [pct |]; [| discriminate].
  destruct (pct <? idlePctThreshold cfg); [| discriminate].
  intros H. inversion H. auto.
Qed.

Lemma deref_assign_same (it : ThreadIter) (ts ts0 : ThreadState) (l : ThreadList) :
  deref it l = Some ts0 -> deref it (assign it ts l) = Some ts.
Proof.
  induction l as [| [i old] l IH]; simpl; [discriminate |].
  destruct (Nat.eqb i it) eqn:E; simpl; rewrite E; auto.
Qed.

(** A slice that ends in [ExitIdle] went through the retirement check, with
    the running time the slice's stopwatch measured. *)
Lemma workerSlice_exits_idle (cfg : Options) (env : SliceEnv) (wk wk' : Worker)
    (st st' : Executor) :
  workerSlice cfg env wk st = (ExitIdle, wk', st') ->
  exists ts,
    deref (state wk) (threads st') = Some ts
    /\ ct_running (running ts) = false
    /\ retires cfg wk (sinceStartTicks (now st') (ct_timer (running ts))) st'.
Proof.
  unfold workerSlice.
  destruct (deref (state wk) (threads st)) as [ts0 |]; [| discriminate].
  match goal with
  | |- context [if stillPending wk then ?a else ?b] =>
      destruct (if stillPending wk then a else b) as [r st1]
  end.
  destruct r as [u | |]; [| discriminate | discriminate].
  set (st2 := if ioStopped st1 then restart st1 else st1).
  destruct (deref (state wk) (threads st2)) as [ts |] eqn:Hd; [| discriminate].
  unfold markStopped.
  set (spent := sinceStartTicks (now st2) (ct_timer (running ts))).
  set (ts' := set_running _ ts).
  set (st3 := set_threads _ st2).
  intros H.
  pose proof (afterRun_exits_idle cfg wk spent st3) as Hiff.
  rewrite H in Hiff. cbn [fst] in Hiff.
  destruct (afterRun_exit_state _ _ _ _ _ _ H) as [Hst _]. subst st'.
  exists ts'. split; [| split].
  - subst st3. cbn [threads set_threads]. eapply deref_assign_same. exact Hd.
  - reflexivity.
  - apply Hiff. reflexivity.
Qed.

Lemma workerLoop_exits_idle (cfg : Options) (envs : list SliceEnv) (wk wk' : Worker)
    (st st' : Executor) :
  workerLoop cfg envs wk st = (ExitIdle, wk', st') ->
  load _threadsRunning st' > reservedThreads cfg.
Proof.
  revert wk st. induction envs as [| env envs IH]; intros wk st; simpl; [discriminate |].
  destruct (isRunning st); simpl; [| discriminate].
  destruct (workerSlice cfg env wk st) as [[step wk1] st1] eqn:Hs.
  destruct step; try (intros H; discriminate H).
  - apply IH.
  - intros H. inversion H; subst.
    destruct (workerSlice_exits_idle _ _ _ _ _ _ Hs) as (ts & _ & _ & _ & Hgt & _).
    exact Hgt.
Qed.

(** C3, as the code has it.  The check that ends a completed slice retires
    the worker exactly when the worker is past its pending slice,
    [_threadsRunning] is above [reservedThreads()], and the percentage the
    code computes, [executingCurRun] divided by the slice's running time in
    [double], times 100, cast to [int], is below [idlePctThreshold()].  A
    slice, and so the worker's loop, ends in a voluntary exit only through
    this check; hence never while [_threadsRunning] is at or below the
    reserve. *)
Theorem worker_retires_on_idle_percentage
    (cfg : Options) (wk : Worker) (spentRunning : Tick) (st : Executor) :
  (fst (fst (afterRun cfg wk spentRunning st)) = ExitIdle
   <-> retires cfg wk spentRunning st)
  /\ (forall env st0 wk' st',
        workerSlice cfg env wk st0 = (ExitIdle, wk', st') ->
        exists ts,
          deref (state wk) (threads st') = Some ts
          /\ retires cfg wk (sinceStartTicks (now st') (ct_timer (running ts))) st')
  /\ (forall envs wk0 st0 wk' st',
        workerLoop cfg envs wk0 st0 = (ExitIdle, wk', st') ->
        load _threadsRunning st' > reservedThreads cfg)
  /\ (load _threadsRunning st <= reservedThreads cfg ->
      fst (fst (afterRun cfg wk spentRunning st)) <> ExitIdle).
Proof.
  split; [apply afterRun_exits_idle |]. split; [| split].
  - intros env st0 wk' st' H.
    destruct (workerSlice_exits_idle _ _ _ _ _ _ H) as (ts & Hd & _ & Hr).
    exists ts. split; assumption.
  - intros envs wk0 st0 wk' st'. apply workerLoop_exits_idle.
  - intros Hle H. apply afterRun_exits_idle in H. destruct H as (_ & Hgt & _). lia.
Qed.

(** At 58 ticks executing out of 100 running and an idle threshold of 58, the
    code computes 57 per cent and the worker exits, although
    [100 * 58 / 100 = 58] is not below the threshold. *)
Lemma worker_retires_at_exact_threshold :
  let after := workerSlice idle_58 slice_58_of_100 (seasoned 0%nat) sample_three in
  fst (fst after) = ExitIdle
  /\ load _threadsRunning (snd after) = 3
  /\ option_map executingCurRun (deref 0%nat (threads (snd after))) = Some 58
  /\ option_map (fun ts => sinceStartTicks (now (snd after)) (ct_timer (running ts)))
       (deref 0%nat (threads (snd after))) = Some 100
  /\ pctExecuting 58 100 = Some 57
  /\ spec_retires idle_58 false 3 58 100 = false.
Proof. vm_compute. repeat split. Qed.

(** ** The thread list *)

Lemma assign_assign (it : ThreadIter) (a b : ThreadState) (l : ThreadList) :
  assign it a (assign it b l) = assign it a l.
Proof.
  induction l as [| [i old] l IH]; simpl; [reflexivity |].
  destruct (Nat.eqb i it) eqn:E; simpl; rewrite E; [reflexivity | rewrite IH; reflexivity].
Qed.

Lemma assign_deref_id (it : ThreadIter) (ts : ThreadState) (l : ThreadList) :
  deref it l = Some ts -> assign it ts l = l.
Proof.
  induction l as [| [i old] l IH]; simpl; [reflexivity |].
  destruct (Nat.eqb i it) eqn:E.
  - intros H. inversion H. reflexivity.
  - intros H. rewrite (IH H). reflexivity.
Qed.

Lemma set_recursionDepth_id (ts : ThreadState) (d : Z) :
  recursionDepth ts = d -> set_recursionDepth d ts = ts.
Proof. destruct ts. simpl. intros ->. reflexivity. Qed.

(** ** Logs *)

Lemma extends_refl (st : Executor) : extends st st.
Proof. exists []. rewrite app_nil_r. reflexivity. Qed.

Lemma extends_trans (a b c : Executor) : extends a b -> extends b c -> extends a c.
Proof.
  intros [l Hl] [l' Hl']. exists (l ++ l'). rewrite Hl', Hl, app_assoc. reflexivity.
Qed.

Lemma extends_same (a b : Executor) : events b = events a -> extends a b.
Proof. intros H. exists []. rewrite app_nil_r. exact H. Qed.

Lemma extends_log (e : Event) (a b : Executor) : extends a b -> extends a (log e b).
Proof.
  intros [l Hl]. exists (l ++ [e]). simpl. rewrite Hl, app_assoc. reflexivity.
Qed.

Lemma count_tasks_app (l l' : list Event) :
  count_tasks (l ++ l') = (count_tasks l + count_tasks l')%nat.
Proof. unfold count_tasks. rewrite filter_app, length_app. reflexivity. Qed.

Lemma new_events_app (a b : Executor) (l : list Event) :
  events b = events a ++ l -> new_events a b = l.
Proof.
  intros H. unfold new_events. rewrite H.
  rewrite skipn_app, Nat.sub_diag, skipn_all. reflexivity.
Qed.

Lemma first_event_app (a b : Executor) (e : Event) (l : list Event) :
  events b = events a ++ e :: l -> first_event a b = Some e.
Proof.
  intros H. unfold first_event. rewrite H.
  rewrite nth_error_app2 by lia. rewrite Nat.sub_diag. reflexivity.
Qed.

Lemma second_event_app (a b : Executor) (e e' : Event) (l : list Event) :
  events b = events a ++ e :: e' :: l -> second_event a b = Some e'.
Proof.
  intros H. unfold second_event. rewrite H.
  rewrite nth_error_app2 by lia.
  replace (S (length (events a)) - length (events a))%nat with 1%nat by lia. reflexivity.
Qed.

(** ** The task wrapper, step by step *)

(** What the wrapper does on entry, on a worker at depth [recursionDepth ts]:
    only at depth 0 is the executing stopwatch started and [_threadsInUse]
    counted up. *)
Lemma wrappedTask_enter_spec (w : WrappedTask) (self : ThreadIter) (st : Executor)
    (ts : ThreadState) :
  deref self (threads st) = Some ts ->
  exists st1,
    wrappedTask_enter w self st = Some st1
    /\ threads st1
       = assign self
           (if recursionDepth ts =? 0
            then set_executing (markRunning (now st) (executing ts))
                   (set_recursionDepth (int_add (recursionDepth ts) 1) ts)
            else set_recursionDepth (int_add (recursionDepth ts) 1) ts)
           (threads st)
    /\ load _threadsInUse st1
       = (if recursionDepth ts =? 0 then incr 32 (load _threadsInUse st)
          else load _threadsInUse st)
    /\ load _totalExecuted st1 = load _totalExecuted st
    /\ load _totalQueued st1 = load _totalQueued st
    /\ events st1 = events st
    /\ now st1 = now st
    /\ isRunning st1 = isRunning st.
Proof.
  intros Hd. unfold wrappedTask_enter.
  change (threads (addAndFetch _totalSpentQueued
                     (now (subtractAndFetch (counter_of (w_pendingCounterPtr w)) 1 st)
                      - w_scheduleTime w)
                     (subtractAndFetch (counter_of (w_pendingCounterPtr w)) 1 st)))
    with (threads st).
  rewrite Hd.
  destruct (recursionDepth ts =? 0); eexists; (split; [reflexivity |]).
  - repeat split; try reflexivity.
    + rewrite load_addAndFetch_eq. unfold incr. simpl width. f_equal. f_equal.
      destruct (w_pendingCounterPtr w); reflexivity.
    + destruct (w_pendingCounterPtr w); reflexivity.
    + destruct (w_pendingCounterPtr w); reflexivity.
  - repeat split; try reflexivity; destruct (w_pendingCounterPtr w); reflexivity.
Qed.

(** What the scope guard does, on a worker the body left at depth
    [recursionDepth tb]: it counts the depth down and [_totalExecuted] up,
    and only when the depth returns to 0 does it fold the executing interval
    into [executingCurRun] and count [_threadsInUse] down. *)
Lemma wrappedTask_guard_spec (self : ThreadIter) (st : Executor) (tb : ThreadState) :
  deref self (threads st) = Some tb ->
  exists st',
    wrappedTask_guard self st = Some st'
    /\ threads st'
       = assign self
           (if int_sub (recursionDepth tb) 1 =? 0
            then set_executingCurRun
                   (executingCurRun tb + sinceStartTicks (now st) (ct_timer (executing tb)))
                   (set_executing (snd (markStopped (now st) (executing tb)))
                      (set_recursionDepth (int_sub (recursionDepth tb) 1) tb))
            else set_recursionDepth (int_sub (recursionDepth tb) 1) tb)
           (threads st)
    /\ load _threadsInUse st'
       = (if int_sub (recursionDepth tb) 1 =? 0
          then wrap 32 (load _threadsInUse st - 1)
          else load _threadsInUse st)
    /\ load _totalExecuted st' = incr 64 (load _totalExecuted st)
    /\ load _totalQueued st' = load _totalQueued st
    /\ events st' = events st
    /\ now st' = now st
    /\ isRunning st' = isRunning st.
Proof.
  intros Hd. unfold wrappedTask_guard. rewrite Hd.
  destruct (int_sub (recursionDepth tb) 1 =? 0); eexists; (split; [reflexivity |]);
    repeat split; reflexivity.
Qed.

Lemma wrappedTask_enter_some (w : WrappedTask) (self : ThreadIter) (st st1 : Executor) :
  wrappedTask_enter w self st = Some st1 ->
  exists ts, deref self (threads st) = Some ts.
Proof.
  unfold wrappedTask_enter.
  change (threads (addAndFetch _totalSpentQueued
                     (now (subtractAndFetch (counter_of (w_pendingCounterPtr w)) 1 st)
                      - w_scheduleTime w)
                     (subtractAndFetch (counter_of (w_pendingCounterPtr w)) 1 st)))
    with (threads st).
  destruct (deref self (threads st)) as [ts |]; [eauto | discriminate].
Qed.

Lemma wrappedTask_guard_extends (self : ThreadIter) (st st' : Executor) :
  wrappedTask_guard self st = Some st' -> events st' = events st.
Proof.
  unfold wrappedTask_guard.
  destruct (deref self (threads st)) as [tb |] eqn:Hd; [| discriminate].
  destruct (wrappedTask_guard_spec self st tb Hd) as (st2 & Hg & _ & _ & _ & _ & He & _).
  unfold wrappedTask_guard in Hg. rewrite Hd in Hg. rewrite Hg.
  intros H. inversion H; subst. exact He.
Qed.

(** The wrapper logs the body it invokes, at the depth it runs at, and then
    whatever the body logs. *)
Lemma wrappedTask_gen_events
    (task : ThreadIter -> Executor -> Result unit * Executor)
    (w : WrappedTask) (self : ThreadIter) (st : Executor) (ts : ThreadState) :
  (forall st1, extends st1 (snd (task self st1))) ->
  deref self (threads st) = Some ts ->
  exists l,
    events (snd (wrappedTask_gen task w self st))
    = events st ++ EvTask (int_add (recursionDepth ts) 1) :: l.
Proof.
  intros Htask Hd. unfold wrappedTask_gen.
  destruct (wrappedTask_enter_spec w self st ts Hd)
    as (st1 & He & Hth & _ & _ & _ & Hev & _).
  rewrite He.
  assert (Hdepth : depth_of self st1 = int_add (recursionDepth ts) 1).
  { unfold depth_of. rewrite Hth.
    rewrite (deref_assign_same _ _ _ _ Hd).
    destruct (recursionDepth ts =? 0); reflexivity. }
  rewrite Hdepth.
  specialize (Htask (log (EvTask (int_add (recursionDepth ts) 1)) st1)).
  destruct (task self (log (EvTask (int_add (recursionDepth ts) 1)) st1)) as [r st2].
  destruct Htask as [l Hl]. simpl in Hl. rewrite Hev, <- app_assoc in Hl. simpl in Hl.
  destruct r as [u | |].
  - destruct (wrappedTask_guard self st2) as [st3 |] eqn:Hg.
    + exists l. simpl. rewrite (wrappedTask_guard_extends _ _ _ Hg). exact Hl.
    + exists l. exact Hl.
  - destruct (wrappedTask_guard self st2) as [st3 |] eqn:Hg.
    + exists l. simpl. rewrite (wrappedTask_guard_extends _ _ _ Hg). exact Hl.
    + exists l. exact Hl.
  - exists l. exact Hl.
Qed.

Lemma wrappedTask_gen_extends
    (task : ThreadIter -> Executor -> Result unit * Executor)
    (w : WrappedTask) (self : ThreadIter) (st : Executor) :
  (forall st1, extends st1 (snd (task self st1))) ->
  extends st (snd (wrappedTask_gen task w self st)).
Proof.
  intros Htask.
  destruct (wrappedTask_enter w self st) as [st1 |] eqn:He.
  - destruct (wrappedTask_enter_some _ _ _ _ He) as [ts Hd].
    destruct (wrappedTask_gen_events task w self st ts Htask Hd) as [l Hl].
    exists (EvTask (int_add (recursionDepth ts) 1) :: l). exact Hl.
  - unfold wrappedTask_gen. rewrite He. apply extends_refl.
Qed.

(** Whatever the dispatched handler logs, [schedule] only adds to the log. *)
Lemma schedule_gen_extends
    (inline : WrappedTask -> ThreadIter -> Executor -> Result unit * Executor)
    (cfg : Options) (task : Task) (flags : ScheduleFlags) (caller : option ThreadIter)
    (st : Executor) :
  (forall w self st1, extends st1 (snd (inline w self st1))) ->
  extends st (snd (schedule_gen cfg inline task flags caller st)).
Proof.
  intros Hin. unfold schedule_gen.
  set (pc := counter_of (if kDeferredTask flags then DeferredTasksQueued else TasksQueued)).
  set (st0 := addAndFetch pc 1 st).
  change (isRunning st0) with (isRunning st). change (threads st0) with (threads st).
  destruct (isRunning st); simpl negb; cbv iota; [| apply extends_same; reflexivity].
  set (w := Build_WrappedTask _ _ _).
  assert (Hpost : extends st (post w st0)).
  { exists [EvPost w]. reflexivity. }
  assert (Hfin : forall st1, extends st st1 ->
            extends st
              (if _isStarved
                    (addAndFetch _totalQueued 1
                       (set_lastScheduleTimer (tt_reset (now st1)) st1))
                  && negb (kDeferredTask flags)
               then log EvScheduleNotify
                      (addAndFetch _totalQueued 1
                         (set_lastScheduleTimer (tt_reset (now st1)) st1))
               else addAndFetch _totalQueued 1
                      (set_lastScheduleTimer (tt_reset (now st1)) st1))).
  { intros st1 [l Hl].
    destruct (_isStarved _ && negb (kDeferredTask flags)); [apply extends_log |];
      exists l; exact Hl. }
  destruct (kMayRecurse flags).
  - destruct caller as [self |]; [| apply extends_same; reflexivity].
    destruct (deref self (threads st)) as [ts |]; [| apply extends_same; reflexivity].
    destruct (int_add (recursionDepth ts) 1 <? recursionLimit cfg).
    + unfold dispatch.
      pose proof (Hin w self (log (EvDispatch w) st0)) as Hx.
      destruct (inline w self (log (EvDispatch w) st0)) as [r st1]. simpl in Hx.
      assert (H1 : extends st st1).
      { eapply extends_trans; [| exact Hx]. exists [EvDispatch w]. reflexivity. }
      destruct r; [exact (Hfin st1 H1) | exact H1 | exact H1].
    + exact (Hfin _ Hpost).
  - exact (Hfin _ Hpost).
Qed.

(** A task body only ever adds to the log. *)
Lemma runTask_extends (cfg : Options) (t : Task) :
  forall (self : ThreadIter) (st : Executor), extends st (snd (runTask cfg t self st)).
Proof.
  induction t as [| | d k IHk | flags sub IHsub k IHk]; intros self st; simpl.
  - apply extends_refl.
  - apply extends_refl.
  - eapply extends_trans; [| apply IHk]. apply extends_same. reflexivity.
  - pose proof (schedule_gen_extends (wrappedTask_gen (runTask cfg sub)) cfg sub flags
                  (Some self) st) as Hs.
    destruct (schedule_gen cfg (wrappedTask_gen (runTask cfg sub)) sub flags (Some self) st)
      as [r st1].
    simpl in Hs.
    assert (H1 : extends st st1).
    { apply Hs. intros w self' st'. apply wrappedTask_gen_extends. intros st2. apply IHsub. }
    destruct r; simpl; [| exact H1 | exact H1].
    eapply extends_trans; [exact H1 | apply IHk].
Qed.

Lemma wrappedTask_extends (cfg : Options) (w : WrappedTask) (self : ThreadIter)
    (st : Executor) :
  extends st (snd (wrappedTask cfg w self st)).
Proof.
  unfold wrappedTask. apply wrappedTask_gen_extends. intros st1. apply runTask_extends.
Qed.

(** ** Admission *)

(** On a stopped executor [schedule] counts the pending counter up and
    returns. *)
Lemma schedule_stopped (cfg : Options) (task : Task) (flags : ScheduleFlags)
    (caller : option ThreadIter) (st : Executor) :
  isRunning st = false ->
  schedule cfg task flags caller st
  = (Ret ShutdownInProgress,
     addAndFetch (counter_of (w_pendingCounterPtr (wrapped_for task flags st))) 1 st).
Proof.
  intros Hrun. unfold schedule, schedule_gen.
  change (isRunning (addAndFetch _ 1 st)) with (isRunning st). rewrite Hrun. reflexivity.
Qed.

(** The path through [post]: the closure goes to the back of the queue, the
    schedule timer is reset, [_totalQueued] is counted up, and the controller
    is notified if the pool is starved and the task is not deferred. *)
Lemma schedule_gen_posts
    (inline : WrappedTask -> ThreadIter -> Executor -> Result unit * Executor)
    (cfg : Options) (task : Task) (flags : ScheduleFlags) (caller : option ThreadIter)
    (st : Executor) :
  isRunning st = true ->
  (kMayRecurse flags = false
   \/ exists self ts,
        caller = Some self /\ deref self (threads st) = Some ts
        /\ recursionLimit cfg <= int_add (recursionDepth ts) 1) ->
  let res := schedule_gen cfg inline task flags caller st in
  fst res = Ret OK
  /\ ioQueue (snd res) = ioQueue st ++ [wrapped_for task flags st]
  /\ (exists l, events (snd res) = events st ++ EvPost (wrapped_for task flags st) :: l
                /\ (l = [] \/ l = [EvScheduleNotify]))
  /\ lastScheduleTimer (snd res) = tt_reset (now st)
  /\ load _totalQueued (snd res) = incr 64 (load _totalQueued st)
  /\ threads (snd res) = threads st
  /\ now (snd res) = now st
  /\ load _threadsInUse (snd res) = load _threadsInUse st
  /\ load _totalExecuted (snd res) = load _totalExecuted st
  /\ load (counter_of (w_pendingCounterPtr (wrapped_for task flags st))) (snd res)
     = incr 32 (load (counter_of (w_pendingCounterPtr (wrapped_for task flags st))) st).
Proof.
  intros Hrun Hwhy res. subst res. unfold schedule_gen.
  set (pc := counter_of (if kDeferredTask flags then DeferredTasksQueued else TasksQueued)).
  set (st0 := addAndFetch pc 1 st).
  change (isRunning st0) with (isRunning st). change (threads st0) with (threads st).
  rewrite Hrun. simpl negb. cbv iota.
  change (Build_WrappedTask task (now st)
            (if kDeferredTask flags then DeferredTasksQueued else TasksQueued))
    with (wrapped_for task flags st).
  set (w := wrapped_for task flags st).
  assert (Hpath :
    (if kMayRecurse flags
     then match caller with
          | Some self =>
              match deref self (threads st) with
              | Some ts =>
                  if int_add (recursionDepth ts) 1 <? recursionLimit cfg
                  then dispatch inline w self st0
                  else (Ret tt, post w st0)
              | None => (UB, st0)
              end
          | None => (UB, st0)
          end
     else (Ret tt, post w st0)) = (Ret tt, post w st0)).
  { destruct Hwhy as [Hno | (self & ts & Hc & Hd & Hlim)].
    - rewrite Hno. reflexivity.
    - rewrite Hc, Hd.
      destruct (Z.ltb_spec (int_add (recursionDepth ts) 1) (recursionLimit cfg)); [lia |].
      destruct (kMayRecurse flags); reflexivity. }
  rewrite Hpath.
  assert (Hpc1 : pc <> _totalQueued) by (subst pc; destruct (kDeferredTask flags); discriminate).
  assert (Hpc2 : pc <> _threadsInUse) by (subst pc; destruct (kDeferredTask flags); discriminate).
  assert (Hpc3 : pc <> _totalExecuted)
    by (subst pc; destruct (kDeferredTask flags); discriminate).
  destruct (_isStarved _ && negb (kDeferredTask flags)); cbn [fst snd];
    (split; [reflexivity |]); (split; [reflexivity |]);
    (split; [eexists; split;
               [first [reflexivity | simpl; rewrite <- app_assoc; reflexivity] | auto] |]);
    (split; [reflexivity |]);
    (split; [rewrite ?load_log, load_addAndFetch_eq; unfold incr; simpl width;
             f_equal; f_equal; exact (load_addAndFetch_neq pc _totalQueued 1 st Hpc1) |]);
    (split; [reflexivity |]); (split; [reflexivity |]);
    (split; [exact (load_addAndFetch_neq pc _threadsInUse 1 st Hpc2) |]);
    (split; [exact (load_addAndFetch_neq pc _totalExecuted 1 st Hpc3) |]);
    rewrite ?load_log; (rewrite load_addAndFetch_neq by (intros E; symmetry in E; contradiction));
    change (load (counter_of (w_pendingCounterPtr w)) (addAndFetch pc 1 st)
            = incr 32 (load pc st));
    rewrite load_addAndFetch_eq; unfold incr; f_equal;
    subst pc; destruct (kDeferredTask flags); reflexivity.
Qed.

(** The path through [dispatch]: the closure is handed to [dispatch] and its
    body is invoked, one level deeper, before [schedule] returns. *)
Lemma schedule_dispatches (cfg : Options) (task : Task) (flags : ScheduleFlags)
    (self : ThreadIter) (ts : ThreadState) (st : Executor) :
  isRunning st = true ->
  kMayRecurse flags = true ->
  deref self (threads st) = Some ts ->
  int_add (recursionDepth ts) 1 < recursionLimit cfg ->
  exists l,
    events (snd (schedule cfg task flags (Some self) st))
    = events st ++ EvDispatch (wrapped_for task flags st)
                 :: EvTask (int_add (recursionDepth ts) 1) :: l.
Proof.
  intros Hrun Hmay Hd Hlim. unfold schedule, schedule_gen.
  set (pc := counter_of (if kDeferredTask flags then DeferredTasksQueued else TasksQueued)).
  set (st0 := addAndFetch pc 1 st).
  change (isRunning st0) with (isRunning st). change (threads st0) with (threads st).
  rewrite Hrun, Hmay, Hd. simpl negb. cbv iota.
  change (Build_WrappedTask task (now st)
            (if kDeferredTask flags then DeferredTasksQueued else TasksQueued))
    with (wrapped_for task flags st).
  set (w := wrapped_for task flags st).
  destruct (Z.ltb_spec (int_add (recursionDepth ts) 1) (recursionLimit cfg)); [| lia].
  unfold dispatch, wrappedTask.
  destruct (wrappedTask_gen_events (runTask cfg (w_task w)) w self
              (log (EvDispatch w) st0) ts) as [l Hl].
  { intros st1. apply runTask_extends. }
  { exact Hd. }
  destruct (wrappedTask_gen (runTask cfg (w_task w)) w self (log (EvDispatch w) st0))
    as [r st1].
  cbn [snd] in Hl.
  change (events (log (EvDispatch w) st0)) with (events st ++ [EvDispatch w]) in Hl.
  rewrite <- app_assoc in Hl. simpl app in Hl.
  destruct r as [u | |]; cbn [snd]; [| exists l; exact Hl | exists l; exact Hl].
  destruct (_isStarved _ && negb (kDeferredTask flags)).
  - exists (l ++ [EvScheduleNotify]). simpl. rewrite Hl, <- app_assoc. reflexivity.
  - exists l. exact Hl.
Qed.

(** A [kMayRecurse] call from a thread that is not a worker reads
    [_localThreadState->recursionDepth] through the null pointer. *)
Lemma schedule_mayRecurse_off_pool (cfg : Options) (task : Task) (flags : ScheduleFlags)
    (st : Executor) :
  isRunning st = true ->
  kMayRecurse flags = true ->
  fst (schedule cfg task flags None st) = UB.
Proof.
  intros Hrun Hmay. unfold schedule, schedule_gen.
  change (isRunning (addAndFetch _ 1 st)) with (isRunning st).
  rewrite Hrun, Hmay. reflexivity.
Qed.

(** C4.  On a running executor, a [schedule] call with [kMayRecurse] from a
    worker thread whose [recursionDepth + 1] is below [recursionLimit()]
    hands the wrapped task to [dispatch], and its body is invoked one level
    deeper before [schedule] returns; a call without [kMayRecurse], or from a
    worker whose [recursionDepth + 1] has reached the limit, hands it to
    [post] and dispatches nothing.  A call with [kMayRecurse] from a thread
    that is not a worker reads [recursionDepth] through the null
    [_localThreadState]: it is undefined, and nothing is handed to [post] or
    to [dispatch].  On a stopped executor nothing is handed off either.  With
    [recursionLimit = 3], a task that keeps submitting itself with
    [kMayRecurse] runs inline at depths 1 and 2, and its third submission is
    posted. *)
Theorem schedule_dispatches_below_limit
    (cfg : Options) (task : Task) (flags : ScheduleFlags) (caller : option ThreadIter)
    (st : Executor) :
  let wrapped := wrapped_for task flags st in
  let res := schedule cfg task flags caller st in
  (forall self ts,
      isRunning st = true ->
      kMayRecurse flags = true ->
      caller = Some self ->
      deref self (threads st) = Some ts ->
      is_int (recursionDepth ts + 1) ->
      (recursionDepth ts + 1 < recursionLimit cfg ->
       first_event st (snd res) = Some (EvDispatch wrapped)
       /\ second_event st (snd res) = Some (EvTask (recursionDepth ts + 1)))
      /\ (recursionLimit cfg <= recursionDepth ts + 1 ->
          fst res = Ret OK
          /\ first_event st (snd res) = Some (EvPost wrapped)
          /\ ioQueue (snd res) = ioQueue st ++ [wrapped]
          /\ filter is_dispatch (new_events st (snd res)) = []))
  /\ (isRunning st = true ->
      kMayRecurse flags = false ->
      fst res = Ret OK
      /\ first_event st (snd res) = Some (EvPost wrapped)
      /\ ioQueue (snd res) = ioQueue st ++ [wrapped]
      /\ filter is_dispatch (new_events st (snd res)) = [])
  /\ (isRunning st = true ->
      kMayRecurse flags = true ->
      caller = None ->
      fst res = UB
      /\ ioQueue (snd res) = ioQueue st
      /\ new_events st (snd res) = [])
  /\ (isRunning st = false ->
      fst res = Ret ShutdownInProgress
      /\ ioQueue (snd res) = ioQueue st
      /\ new_events st (snd res) = [])
  /\ (recursionLimit sample_options = 3
      /\ trace (new_events sample_started
                  (snd (schedule sample_options (resubmit 5) mayRecurse (Some 0%nat)
                          sample_started)))
         = [Dispatched; Ran 1; Dispatched; Ran 2; Posted]).
Proof.
  intros wrapped res. subst wrapped res.
  assert (Hposted :
    isRunning st = true ->
    (kMayRecurse flags = false
     \/ exists self ts,
          caller = Some self /\ deref self (threads st) = Some ts
          /\ recursionLimit cfg <= int_add (recursionDepth ts) 1) ->
    fst (schedule cfg task flags caller st) = Ret OK
    /\ first_event st (snd (schedule cfg task flags caller st))
       = Some (EvPost (wrapped_for task flags st))
    /\ ioQueue (snd (schedule cfg task flags caller st))
       = ioQueue st ++ [wrapped_for task flags st]
    /\ filter is_dispatch (new_events st (snd (schedule cfg task flags caller st))) = []).
  { intros Hrun Hwhy.
    destruct (schedule_gen_posts (wrappedTask cfg) cfg task flags caller st Hrun Hwhy)
      as (Hr & Hq & (l & Hl & Hnote) & _).
    fold (schedule cfg task flags caller st) in Hr, Hq, Hl.
    split; [exact Hr |]. split; [exact (first_event_app _ _ _ _ Hl) |].
    split; [exact Hq |].
    rewrite (new_events_app _ _ _ Hl). destruct Hnote as [-> | ->]; reflexivity. }
  split; [| split; [| split; [| split]]].
  - intros self ts Hrun Hmay Hc Hd Hint. rewrite <- (int_add_exact _ _ Hint). split.
    + intros Hlim. subst caller.
      destruct (schedule_dispatches cfg task flags self ts st Hrun Hmay Hd Hlim) as [l Hl].
      split; [exact (first_event_app _ _ _ _ Hl) | exact (second_event_app _ _ _ _ _ Hl)].
    + intros Hlim. apply (Hposted Hrun). right. exists self, ts. auto.
  - intros Hrun Hno. apply (Hposted Hrun). left. exact Hno.
  - intros Hrun Hmay Hc. subst caller. unfold schedule, schedule_gen.
    change (isRunning (addAndFetch _ 1 st)) with (isRunning st).
    rewrite Hrun, Hmay. cbn [negb fst snd].
    split; [reflexivity |]. split; [reflexivity |].
    apply new_events_app. simpl. rewrite app_nil_r. reflexivity.
  - intros Hrun. rewrite (schedule_stopped cfg task flags caller st Hrun). cbn [fst snd].
    split; [reflexivity |]. split; [reflexivity |].
    apply new_events_app. simpl. rewrite app_nil_r. reflexivity.
  - split; reflexivity.
Qed.

(** A [kMayRecurse] call from outside the pool on the started executor: the
    specification's rule says [post], the call is undefined and the reactor
    is handed nothing. *)
Lemma schedule_mayRecurse_non_worker_not_posted :
  let res := schedule sample_options Return mayRecurse None sample_started in
  isRunning sample_started = true
  /\ spec_handoff sample_options mayRecurse None sample_started = Posted
  /\ fst res = UB
  /\ ioQueue (snd res) = []
  /\ trace (new_events sample_started (snd res)) = [].
Proof. vm_compute. repeat split. Qed.

Lemma schedule_dispatches_below_limit_witness :
  first_event sample_started
    (snd (schedule sample_options (resubmit 5) mayRecurse (Some 0%nat) sample_started))
  = Some (EvDispatch (wrapped_for (resubmit 5) mayRecurse sample_started))
  /\ second_event sample_started
       (snd (schedule sample_options (resubmit 5) mayRecurse (Some 0%nat) sample_started))
     = Some (EvTask 1).
Proof.
  destruct (schedule_dispatches_below_limit sample_options (resubmit 5) mayRecurse
              (Some 0%nat) sample_started) as (Hworker & _ & _).
  destruct (Hworker 0%nat (ThreadState_new 0) eq_refl eq_refl eq_refl eq_refl) as [Hbelow _].
  - unfold is_int, in_range. simpl. lia.
  - apply Hbelow. simpl. lia.
Defined.

(** The same task posted from outside the pool: the worker that picks it up
    runs it at depth 1, its first resubmission runs inline at depth 2, and the
    second is posted. *)
Example resubmit_posted_from_outside :
  let posted := snd (schedule sample_options (resubmit 5) kEmptyFlags None sample_started) in
  let slice := workerSlice sample_options {| ready := 1; idle := 0 |} (seasoned 0%nat) posted in
  trace (new_events sample_started posted) = [Posted]
  /\ trace (new_events posted (snd slice)) = [Ran 1; Dispatched; Ran 2; Posted].
Proof. split; reflexivity. Qed.

(** The task wrapper and a body that submits nothing leave [_totalQueued]
    alone. *)
Lemma wrappedTask_enter_totalQueued (w : WrappedTask) (self : ThreadIter)
    (st st1 : Executor) :
  wrappedTask_enter w self st = Some st1 ->
  load _totalQueued st1 = load _totalQueued st.
Proof.
  unfold wrappedTask_enter. cbv zeta.
  destruct (deref self (threads _)) as [ts |]; [| discriminate].
  destruct (recursionDepth ts =? 0); intros H; injection H as <-;
    destruct (w_pendingCounterPtr w); reflexivity.
Qed.

Lemma wrappedTask_guard_totalQueued (self : ThreadIter) (st st1 : Executor) :
  wrappedTask_guard self st = Some st1 ->
  load _totalQueued st1 = load _totalQueued st.
Proof.
  unfold wrappedTask_guard. cbv zeta.
  destruct (deref self (threads st)) as [ts |]; [| discriminate].
  destruct (int_sub (recursionDepth ts) 1 =? 0); intros H; injection H as <-; reflexivity.
Qed.

Lemma runTask_plain_totalQueued (cfg : Options) (t : Task) :
  submits t = false ->
  forall (self : ThreadIter) (st : Executor),
    load _totalQueued (snd (runTask cfg t self st)) = load _totalQueued st.
Proof.
  induction t as [| | d k IHk | flags sub _ k _]; intros Hplain self st; cbn [runTask].
  - reflexivity.
  - reflexivity.
  - rewrite (IHk Hplain). reflexivity.
  - discriminate Hplain.
Qed.

Lemma wrappedTask_plain_totalQueued (cfg : Options) (w : WrappedTask) (self : ThreadIter)
    (st : Executor) :
  submits (w_task w) = false ->
  load _totalQueued (snd (wrappedTask cfg w self st)) = load _totalQueued st.
Proof.
  intros Hplain. unfold wrappedTask, wrappedTask_gen.
  destruct (wrappedTask_enter w self st) as [st1 |] eqn:He; [| reflexivity].
  pose proof (wrappedTask_enter_totalQueued _ _ _ _ He) as H1.
  pose proof (runTask_plain_totalQueued cfg (w_task w) Hplain self
                (log (EvTask (depth_of self st1)) st1)) as H2.
  destruct (runTask cfg (w_task w) self (log (EvTask (depth_of self st1)) st1)) as [r st2].
  cbn [snd] in H2. rewrite load_log in H2.
  destruct r as [u | |]; cbn [snd]; try congruence;
    (destruct (wrappedTask_guard self st2) as [st3 |] eqn:Hg; cbn [snd]; [| congruence];
     rewrite (wrappedTask_guard_totalQueued _ _ _ Hg); congruence).
Qed.

(** The path through [dispatch], whole: what [schedule] does after the
    dispatched handler has come back depends on how it came back. *)
Lemma schedule_dispatch_path (cfg : Options) (task : Task) (flags : ScheduleFlags)
    (self : ThreadIter) (ts : ThreadState) (st : Executor) :
  isRunning st = true ->
  kMayRecurse flags = true ->
  deref self (threads st) = Some ts ->
  int_add (recursionDepth ts) 1 < recursionLimit cfg ->
  let wrapped := wrapped_for task flags st in
  let handed :=
    log (EvDispatch wrapped)
      (addAndFetch (counter_of (w_pendingCounterPtr wrapped)) 1 st) in
  schedule cfg task flags (Some self) st
  = match wrappedTask cfg wrapped self handed with
    | (Ret _, st1) =>
        let st2 := addAndFetch _totalQueued 1
                     (set_lastScheduleTimer (tt_reset (now st1)) st1) in
        (Ret OK,
         if _isStarved st2 && negb (kDeferredTask flags)
         then log EvScheduleNotify st2 else st2)
    | (Exn, st1) => (Exn, st1)
    | (UB, st1) => (UB, st1)
    end.
Proof.
  intros Hrun Hmay Hd Hlim wrapped handed. subst wrapped handed.
  unfold schedule, schedule_gen, wrapped_for. cbv zeta. cbn [w_pendingCounterPtr].
  change (isRunning (addAndFetch _ 1 st)) with (isRunning st).
  change (threads (addAndFetch _ 1 st)) with (threads st).
  rewrite Hrun, Hmay, Hd. cbn [negb].
  destruct (Z.ltb_spec (int_add (recursionDepth ts) 1) (recursionLimit cfg)); [| lia].
  unfold dispatch.
  destruct (wrappedTask cfg _ self _) as [r st1]. destruct r; reflexivity.
Qed.

(** C7.  [schedule] counts the chosen pending counter up whether or not the
    executor runs.  On a stopped executor it returns [ShutdownInProgress] and
    leaves everything else alone: nothing is handed to the reactor, the
    schedule timer is not reset and [_totalQueued] is not counted.
    [_totalQueued] moves only in a call that has first handed its closure to
    [dispatch] or [post], and only after the hand-off has come back: on the
    path through [post] it is counted up once and the schedule timer is
    reset; on the path through [dispatch] it is counted up once, on top of
    what the dispatched handler left, when the handler returns, and when an
    exception leaves the handler [schedule] is left with it, with the
    executor exactly as the handler left it.  So for a task that submits
    nothing [_totalQueued] is one higher exactly when [schedule] returns
    [OK], and as before otherwise. *)
Theorem schedule_counts_pending_before_running_check
    (cfg : Options) (task : Task) (flags : ScheduleFlags) (caller : option ThreadIter)
    (st : Executor) :
  let wrapped := wrapped_for task flags st in
  let pending := counter_of (w_pendingCounterPtr wrapped) in
  let res := schedule cfg task flags caller st in
  (isRunning st = false ->
   fst res = Ret ShutdownInProgress
   /\ load pending (snd res) = incr 32 (load pending st)
   /\ ioQueue (snd res) = ioQueue st
   /\ events (snd res) = events st
   /\ lastScheduleTimer (snd res) = lastScheduleTimer st
   /\ load _totalQueued (snd res) = load _totalQueued st)
  /\ (load _totalQueued (snd res) <> load _totalQueued st ->
      first_event st (snd res) = Some (EvDispatch wrapped)
      \/ first_event st (snd res) = Some (EvPost wrapped))
  /\ (isRunning st = true -> kMayRecurse flags = false ->
      fst res = Ret OK
      /\ load pending (snd res) = incr 32 (load pending st)
      /\ ioQueue (snd res) = ioQueue st ++ [wrapped]
      /\ lastScheduleTimer (snd res) = tt_reset (now st)
      /\ load _totalQueued (snd res) = incr 64 (load _totalQueued st))
  /\ (forall self ts,
         isRunning st = true -> kMayRecurse flags = true ->
         caller = Some self ->
         deref self (threads st) = Some ts ->
         int_add (recursionDepth ts) 1 < recursionLimit cfg ->
         let ran := wrappedTask cfg wrapped self
                      (log (EvDispatch wrapped) (addAndFetch pending 1 st)) in
         match fst ran with
         | Ret _ =>
             fst res = Ret OK
             /\ load _totalQueued (snd res) = incr 64 (load _totalQueued (snd ran))
             /\ lastScheduleTimer (snd res) = tt_reset (now (snd ran))
         | Exn => res = (Exn, snd ran)
         | UB => res = (UB, snd ran)
         end)
  /\ (submits task = false ->
      load _totalQueued (snd res)
      = match fst res with
        | Ret OK => incr 64 (load _totalQueued st)
        | _ => load _totalQueued st
        end).
Proof.
  intros wrapped pending res.
  assert (Hpc : pending <> _totalQueued).
  { subst pending wrapped. simpl. destruct (kDeferredTask flags); discriminate. }
  assert (Hkeep : load _totalQueued (addAndFetch pending 1 st) = load _totalQueued st).
  { apply load_addAndFetch_neq. exact Hpc. }
  assert (Hstopped : isRunning st = false ->
            res = (Ret ShutdownInProgress, addAndFetch pending 1 st)).
  { intros Hrun. apply schedule_stopped. exact Hrun. }
  assert (Hnull : isRunning st = true -> kMayRecurse flags = true -> caller = None ->
            res = (UB, addAndFetch pending 1 st)).
  { intros Hrun Hmay Hc. subst res caller. unfold schedule, schedule_gen.
    change (isRunning (addAndFetch _ 1 st)) with (isRunning st).
    rewrite Hrun, Hmay. reflexivity. }
  assert (Hdangling : forall self,
            isRunning st = true -> kMayRecurse flags = true -> caller = Some self ->
            deref self (threads st) = None ->
            res = (UB, addAndFetch pending 1 st)).
  { intros self Hrun Hmay Hc Hd. subst res caller. unfold schedule, schedule_gen.
    change (isRunning (addAndFetch _ 1 st)) with (isRunning st).
    change (threads (addAndFetch _ 1 st)) with (threads st).
    rewrite Hrun, Hmay, Hd. reflexivity. }
  assert (Hdispatch : forall self ts,
            isRunning st = true -> kMayRecurse flags = true ->
            caller = Some self ->
            deref self (threads st) = Some ts ->
            int_add (recursionDepth ts) 1 < recursionLimit cfg ->
            match fst (wrappedTask cfg wrapped self
                         (log (EvDispatch wrapped) (addAndFetch pending 1 st))) with
            | Ret _ =>
                fst res = Ret OK
                /\ load _totalQueued (snd res)
                   = incr 64 (load _totalQueued
                                (snd (wrappedTask cfg wrapped self
                                        (log (EvDispatch wrapped)
                                           (addAndFetch pending 1 st)))))
                /\ lastScheduleTimer (snd res)
                   = tt_reset (now (snd (wrappedTask cfg wrapped self
                                           (log (EvDispatch wrapped)
                                              (addAndFetch pending 1 st)))))
            | Exn => res = (Exn, snd (wrappedTask cfg wrapped self
                                        (log (EvDispatch wrapped)
                                           (addAndFetch pending 1 st))))
            | UB => res = (UB, snd (wrappedTask cfg wrapped self
                                      (log (EvDispatch wrapped)
                                         (addAndFetch pending 1 st))))
            end).
  { intros self ts Hrun Hmay Hc Hd Hlim. subst res caller.
    rewrite (schedule_dispatch_path cfg task flags self ts st Hrun Hmay Hd Hlim).
    cbv zeta. fold wrapped. fold pending.
    destruct (wrappedTask cfg wrapped self
                (log (EvDispatch wrapped) (addAndFetch pending 1 st))) as [r st1].
    cbn [fst snd]. destruct r as [u | |]; [| reflexivity | reflexivity].
    cbn [fst snd]. split; [reflexivity |].
    destruct (_isStarved _ && negb (kDeferredTask flags));
      (split; [rewrite ?load_log, load_addAndFetch_eq; reflexivity | reflexivity]). }
  split; [| split; [| split; [| split]]].
  - intros Hrun. rewrite (Hstopped Hrun). cbn [fst snd].
    split; [reflexivity |]. split; [| repeat split; exact Hkeep].
    rewrite load_addAndFetch_eq. unfold incr. f_equal.
    subst pending wrapped. simpl. destruct (kDeferredTask flags); reflexivity.
  - intros Hmoved.
    destruct (isRunning st) eqn:Hrun.
    2:{ rewrite (Hstopped eq_refl) in Hmoved. cbn [snd] in Hmoved. contradiction. }
    destruct (kMayRecurse flags) eqn:Hmay.
    2:{ right.
        destruct (schedule_gen_posts (wrappedTask cfg) cfg task flags caller st Hrun
                    (or_introl Hmay)) as (_ & _ & (l & Hl & _) & _).
        exact (first_event_app _ _ _ _ Hl). }
    assert (Hub : res = (UB, addAndFetch pending 1 st) -> False).
    { intros E. rewrite E in Hmoved. cbn [snd] in Hmoved. contradiction. }
    destruct caller as [self |].
    2:{ exfalso. apply Hub. apply Hnull; reflexivity. }
    destruct (deref self (threads st)) as [ts |] eqn:Hd.
    2:{ exfalso. apply Hub. exact (Hdangling self eq_refl eq_refl eq_refl Hd). }
    destruct (Z.lt_ge_cases (int_add (recursionDepth ts) 1) (recursionLimit cfg))
      as [Hlim | Hlim].
    + left.
      destruct (schedule_dispatches cfg task flags self ts st Hrun Hmay Hd Hlim) as [l Hl].
      exact (first_event_app _ _ _ _ Hl).
    + right.
      destruct (schedule_gen_posts (wrappedTask cfg) cfg task flags (Some self) st Hrun)
        as (_ & _ & (l & Hl & _) & _).
      { right. exists self, ts. auto. }
      exact (first_event_app _ _ _ _ Hl).
  - intros Hrun Hmay.
    destruct (schedule_gen_posts (wrappedTask cfg) cfg task flags caller st Hrun
                (or_introl Hmay)) as (Hr & Hq & _ & Ht & Htq & _ & _ & _ & _ & Hp).
    repeat split; assumption.
  - intros self ts Hrun Hmay Hc Hd Hlim ran. subst ran.
    exact (Hdispatch self ts Hrun Hmay Hc Hd Hlim).
  - intros Hplain.
    destruct (isRunning st) eqn:Hrun.
    2:{ rewrite (Hstopped eq_refl). cbn [fst snd]. exact Hkeep. }
    assert (Hposts :
      (kMayRecurse flags = false
       \/ exists self ts,
            caller = Some self /\ deref self (threads st) = Some ts
            /\ recursionLimit cfg <= int_add (recursionDepth ts) 1) ->
      load _totalQueued (snd res)
      = match fst res with
        | Ret OK => incr 64 (load _totalQueued st)
        | _ => load _totalQueued st
        end).
    { intros Hwhy.
      destruct (schedule_gen_posts (wrappedTask cfg) cfg task flags caller st Hrun Hwhy)
        as (Hr & _ & _ & _ & Htq & _).
      fold (schedule cfg task flags caller st) in Hr, Htq. fold res in Hr, Htq.
      rewrite Hr. exact Htq. }
    destruct (kMayRecurse flags) eqn:Hmay; [| apply Hposts; left; reflexivity].
    destruct caller as [self |].
    2:{ rewrite (Hnull eq_refl eq_refl eq_refl). cbn [fst snd]. exact Hkeep. }
    destruct (deref self (threads st)) as [ts |] eqn:Hd.
    2:{ rewrite (Hdangling self eq_refl eq_refl eq_refl Hd). cbn [fst snd]. exact Hkeep. }
    destruct (Z.lt_ge_cases (int_add (recursionDepth ts) 1) (recursionLimit cfg))
      as [Hlim | Hlim]; [| apply Hposts; right; exists self, ts; auto].
    pose proof (Hdispatch self ts eq_refl eq_refl eq_refl Hd Hlim) as Hx.
    pose proof (wrappedTask_plain_totalQueued cfg wrapped self
                  (log (EvDispatch wrapped) (addAndFetch pending 1 st)) Hplain) as Hsame.
    rewrite load_log, Hkeep in Hsame.
    destruct (wrappedTask cfg wrapped self
                (log (EvDispatch wrapped) (addAndFetch pending 1 st))) as [r st1].
    cbn [fst snd] in Hx, Hsame. destruct r as [u | |].
    + destruct Hx as (Hr & Htq & _). rewrite Hr, Htq, Hsame. reflexivity.
    + rewrite Hx. cbn [fst snd]. exact Hsame.
    + rewrite Hx. cbn [fst snd]. exact Hsame.
Qed.

Lemma schedule_counts_pending_before_running_check_witness :
  (let st := executor_new 1000000 0 in
   let res := schedule sample_options (Work 5 Return) kEmptyFlags None st in
   fst res = Ret ShutdownInProgress
   /\ load _tasksQueued (snd res) = 1
   /\ load _totalQueued (snd res) = 0
   /\ ioQueue (snd res) = []
   /\ events (snd res) = [])
  /\ (let res := schedule sample_options (Work 7 Throw) mayRecurse (Some 0%nat)
                   sample_started in
      fst res = Exn
      /\ first_event sample_started (snd res)
         = Some (EvDispatch (wrapped_for (Work 7 Throw) mayRecurse sample_started))
      /\ load _totalQueued (snd res) = 0).
Proof.
  split.
  - destruct (schedule_counts_pending_before_running_check sample_options (Work 5 Return)
                kEmptyFlags None (executor_new 1000000 0)) as (Hstopped & _).
    destruct (Hstopped eq_refl) as (Hr & Hp & Hq & He & _ & Ht).
    repeat split; assumption.
  - destruct (schedule_counts_pending_before_running_check sample_options (Work 7 Throw)
                mayRecurse (Some 0%nat) sample_started) as (_ & _ & _ & _ & Hplain).
    cbv zeta. rewrite (Hplain eq_refl). vm_compute. repeat split.
Defined.

(** ** Nested tasks *)

Lemma nested_refl (st : Executor) : nested st st.
Proof.
  unfold nested. repeat split; try reflexivity; try lia.
  exists []. rewrite app_nil_r. split; reflexivity.
Qed.

Lemma nested_trans (a b c : Executor) : nested a b -> nested b c -> nested a c.
Proof.
  intros (Ht & Hu & Hn & l & He & Hx) (Ht' & Hu' & Hn' & l' & He' & Hx').
  unfold nested. split; [congruence |]. split; [congruence |]. split; [lia |].
  exists (l ++ l'). split.
  - rewrite He', He, app_assoc. reflexivity.
  - rewrite Hx', Hx, count_tasks_app, Nat.add_comm. symmetry. apply Nat.iter_add.
Qed.

(** A step that logs no task body and leaves the thread states,
    [_threadsInUse] and [_totalExecuted] alone. *)
Lemma nested_step (a b : Executor) (l : list Event) :
  threads b = threads a ->
  load _threadsInUse b = load _threadsInUse a ->
  now a <= now b ->
  events b = events a ++ l ->
  count_tasks l = O ->
  load _totalExecuted b = load _totalExecuted a ->
  nested a b.
Proof.
  intros Ht Hu Hn He Hc Hx. unfold nested. repeat split; try assumption.
  exists l. split; [exact He |]. rewrite Hc. exact Hx.
Qed.

(** [nested_step] with the log's new part [l] given: what is left are the
    sides that do not hold by computation. *)
Ltac nested_by_step l :=
  apply (nested_step _ _ l);
  [ try reflexivity
  | try reflexivity
  | first [ reflexivity | simpl; lia ]
  | first [ reflexivity | rewrite app_nil_r; reflexivity ]
  | reflexivity
  | try reflexivity ].

(** The wrapper of a dispatched task, on a worker that is already inside a
    task body: when the body it wraps is [nested], so is the wrapped call. *)
Lemma wrappedTask_gen_nested
    (task : ThreadIter -> Executor -> Result unit * Executor)
    (w : WrappedTask) (self : ThreadIter) (st : Executor) (ts : ThreadState) :
  deref self (threads st) = Some ts ->
  recursionDepth ts <> 0 ->
  is_int (recursionDepth ts) ->
  (forall st1,
      deref self (threads st1)
      = Some (set_recursionDepth (int_add (recursionDepth ts) 1) ts) ->
      fst (task self st1) <> UB /\ nested st1 (snd (task self st1))) ->
  fst (wrappedTask_gen task w self st) <> UB
  /\ nested st (snd (wrappedTask_gen task w self st)).
Proof.
  intros Hd Hnz Hint Hbody. unfold wrappedTask_gen.
  destruct (wrappedTask_enter_spec w self st ts Hd)
    as (st1 & He & Hth & Hu & Hx & _ & Hev & Hnow & _).
  rewrite He.
  destruct (Z.eqb_spec (recursionDepth ts) 0) as [| _]; [contradiction |].
  set (ts1 := set_recursionDepth (int_add (recursionDepth ts) 1) ts) in *.
  assert (Hd1 : deref self (threads st1) = Some ts1).
  { rewrite Hth. eapply deref_assign_same. exact Hd. }
  assert (Hdepth : depth_of self st1 = int_add (recursionDepth ts) 1).
  { unfold depth_of. rewrite Hd1. reflexivity. }
  rewrite Hdepth.
  set (st1' := log (EvTask (int_add (recursionDepth ts) 1)) st1).
  destruct (Hbody st1' Hd1) as [Hr (Ht2 & Hu2 & Hn2 & l & He2 & Hx2)].
  destruct (task self st1') as [r st2]. cbn [fst snd] in *.
  assert (Hd2 : deref self (threads st2) = Some ts1).
  { rewrite Ht2. exact Hd1. }
  destruct (wrappedTask_guard_spec self st2 ts1 Hd2)
    as (st3 & Hg & Hth3 & Hu3 & Hx3 & _ & Hev3 & Hnow3 & _).
  assert (Hback : int_sub (recursionDepth ts1) 1 = recursionDepth ts).
  { subst ts1. simpl. unfold int_sub, int_add. apply wrap_inc_dec; [lia | exact Hint]. }
  rewrite Hback in Hth3, Hu3.
  destruct (Z.eqb_spec (recursionDepth ts) 0) as [| _]; [contradiction |].
  assert (Hnested : nested st st3).
  { unfold nested. split; [| split; [| split]].
    - rewrite Hth3, Ht2. subst st1'. cbn [threads log set_events]. rewrite Hth.
      rewrite assign_assign.
      replace (set_recursionDepth (recursionDepth ts) ts1) with ts.
      + apply assign_deref_id. exact Hd.
      + subst ts1. destruct ts. reflexivity.
    - rewrite Hu3, Hu2. subst st1'. rewrite load_log. exact Hu.
    - rewrite Hnow3. subst st1'. simpl in Hn2. lia.
    - exists (EvTask (int_add (recursionDepth ts) 1) :: l). split.
      + rewrite Hev3, He2. subst st1'. simpl. rewrite Hev, <- app_assoc. reflexivity.
      + rewrite Hx3, Hx2. subst st1'. rewrite load_log, Hx. reflexivity. }
  rewrite Hg.
  destruct r as [u | |]; [| | contradiction]; (split; [discriminate | exact Hnested]).
Qed.

(** [schedule] called from inside a task body on the worker [self]: when the
    handler it may dispatch is [nested], so is the call. *)
Lemma schedule_gen_nested
    (inline : WrappedTask -> ThreadIter -> Executor -> Result unit * Executor)
    (cfg : Options) (task : Task) (flags : ScheduleFlags) (self : ThreadIter)
    (st : Executor) (ts : ThreadState) :
  deref self (threads st) = Some ts ->
  (forall w st1,
      deref self (threads st1) = Some ts ->
      int_add (recursionDepth ts) 1 < recursionLimit cfg ->
      fst (inline w self st1) <> UB /\ nested st1 (snd (inline w self st1))) ->
  fst (schedule_gen cfg inline task flags (Some self) st) <> UB
  /\ nested st (snd (schedule_gen cfg inline task flags (Some self) st)).
Proof.
  intros Hd Hin.
  set (pc := counter_of (if kDeferredTask flags then DeferredTasksQueued else TasksQueued)).
  assert (Hpc2 : pc <> _threadsInUse) by (subst pc; destruct (kDeferredTask flags); discriminate).
  assert (Hpc3 : pc <> _totalExecuted)
    by (subst pc; destruct (kDeferredTask flags); discriminate).
  assert (H0 : nested st (addAndFetch pc 1 st)).
  { nested_by_step (@nil Event); apply load_addAndFetch_neq; assumption. }
  destruct (isRunning st) eqn:Hrun.
  2:{ unfold schedule_gen. fold pc.
      change (isRunning (addAndFetch pc 1 st)) with (isRunning st). rewrite Hrun.
      cbn. split; [discriminate | exact H0]. }
  assert (Hposts : kMayRecurse flags = false
                   \/ (exists self0 ts0,
                          Some self = Some self0 /\ deref self0 (threads st) = Some ts0
                          /\ recursionLimit cfg <= int_add (recursionDepth ts0) 1) ->
                   fst (schedule_gen cfg inline task flags (Some self) st) <> UB
                   /\ nested st (snd (schedule_gen cfg inline task flags (Some self) st))).
  { intros Hwhy.
    destruct (schedule_gen_posts inline cfg task flags (Some self) st Hrun Hwhy)
      as (Hr & _ & (l & Hl & Hnote) & _ & _ & Hth & Hnow & Hu & Hx & _).
    split; [rewrite Hr; discriminate |].
    apply (nested_step _ _ (EvPost (wrapped_for task flags st) :: l)); try assumption.
    - lia.
    - destruct Hnote as [-> | ->]; reflexivity. }
  destruct (kMayRecurse flags) eqn:Hmay; [| apply Hposts; left; reflexivity].
  destruct (Z.lt_ge_cases (int_add (recursionDepth ts) 1) (recursionLimit cfg))
    as [Hlim | Hlim]; [| apply Hposts; right; exists self, ts; auto].
  unfold schedule_gen. fold pc.
  set (st0 := addAndFetch pc 1 st) in *.
  change (isRunning st0) with (isRunning st). change (threads st0) with (threads st).
  rewrite Hrun, Hmay, Hd. simpl negb. cbv iota.
  destruct (Z.ltb_spec (int_add (recursionDepth ts) 1) (recursionLimit cfg)); [| lia].
  set (w := Build_WrappedTask _ _ _).
  unfold dispatch.
  destruct (Hin w (log (EvDispatch w) st0) Hd Hlim) as [Hr Hn].
  destruct (inline w self (log (EvDispatch w) st0)) as [r st1]. cbn [fst snd] in *.
  assert (H1 : nested st st1).
  { eapply nested_trans; [exact H0 |]. eapply nested_trans; [| exact Hn].
    nested_by_step [EvDispatch w]. }
  destruct r as [u | |]; [| split; [discriminate | exact H1] | contradiction].
  split.
  - destruct (_isStarved _ && negb (kDeferredTask flags)); discriminate.
  - eapply nested_trans; [exact H1 |].
    destruct (_isStarved _ && negb (kDeferredTask flags)); cbn [snd].
    + nested_by_step [EvScheduleNotify].
    + nested_by_step (@nil Event).
Qed.

(** A task body run on a worker that is between 1 and [INT_MAX - 1] levels
    deep, with all that is dispatched within it, is [nested] and does not run
    into undefined behaviour. *)
Lemma runTask_nested (cfg : Options) (t : Task) :
  recursionLimit cfg <= INT_MAX ->
  forall (self : ThreadIter) (st : Executor) (ts : ThreadState),
    deref self (threads st) = Some ts ->
    1 <= recursionDepth ts < INT_MAX ->
    fst (runTask cfg t self st) <> UB /\ nested st (snd (runTask cfg t self st)).
Proof.
  intros Hlimit.
  induction t as [| | d k IHk | flags sub IHsub k IHk]; intros self st ts Hd Hdepth.
  - simpl. split; [discriminate | apply nested_refl].
  - simpl. split; [discriminate | apply nested_refl].
  - cbn [runTask].
    destruct (IHk self (advance d st) ts Hd Hdepth) as [Hr Hn].
    split; [exact Hr |]. eapply nested_trans; [| exact Hn].
    nested_by_step (@nil Event).
  - cbn [runTask].
    destruct (schedule_gen_nested (wrappedTask_gen (runTask cfg sub)) cfg sub flags self st ts Hd)
      as [Hr Hn].
    { intros w st1 Hd1 Hlim.
      assert (Hexact : int_add (recursionDepth ts) 1 = recursionDepth ts + 1).
      { apply int_add_exact. unfold is_int, in_range. unfold INT_MAX in *. simpl. lia. }
      apply (wrappedTask_gen_nested (runTask cfg sub) w self st1 ts Hd1).
      - lia.
      - unfold is_int, in_range. unfold INT_MAX in *. simpl. lia.
      - intros st2 Hd2. apply (IHsub self st2 _ Hd2). simpl.
        rewrite Hexact in *. unfold INT_MAX in *. lia. }
    destruct (schedule_gen cfg (wrappedTask_gen (runTask cfg sub)) sub flags (Some self) st)
      as [r st1].
    cbn [fst snd] in *.
    destruct r as [s | |]; [| split; [discriminate | exact Hn] | contradiction].
    assert (Hd1 : deref self (threads st1) = Some ts).
    { destruct Hn as (Ht & _). rewrite Ht. exact Hd. }
    destruct (IHk self st1 ts Hd1 Hdepth) as [Hr2 Hn2].
    split; [exact Hr2 | eapply nested_trans; eassumption].
Qed.

(** ** The accounting of the task wrapper *)

(** The wrapper of a task the reactor runs on a worker at depth 0: whatever is
    dispatched within the body, the thread holds [_threadsInUse] once, and one
    executing interval, from entry to exit, is folded into
    [executingCurRun]. *)
Lemma wrappedTask_outermost (cfg : Options) (w : WrappedTask) (self : ThreadIter)
    (st : Executor) (ts : ThreadState) :
  recursionLimit cfg <= INT_MAX ->
  deref self (threads st) = Some ts ->
  recursionDepth ts = 0 ->
  is_int (load _threadsInUse st) ->
  let res := wrappedTask cfg w self st in
  fst res <> UB
  /\ deref self (threads (snd res))
     = Some (set_executingCurRun (executingCurRun ts + (now (snd res) - now st))
               (set_executing
                  {| ct_timer := tt_reset (now st);
                     ct_accumulator := ct_accumulator (executing ts)
                                       + (now (snd res) - now st);
                     ct_running := false |} ts))
  /\ load _threadsInUse (snd res) = load _threadsInUse st
  /\ now st <= now (snd res)
  /\ exists l,
       events (snd res) = events st ++ EvTask 1 :: l
       /\ load _totalExecuted (snd res)
          = Nat.iter (S (count_tasks l)) (incr 64) (load _totalExecuted st).
Proof.
  intros Hlimit Hd Hzero Hint res. subst res. unfold wrappedTask, wrappedTask_gen.
  destruct (wrappedTask_enter_spec w self st ts Hd)
    as (st1 & He & Hth & Hu & Hx & _ & Hev & Hnow & _).
  rewrite He. rewrite Hzero in Hth, Hu. change (0 =? 0) with true in Hth, Hu.
  cbv iota in Hth, Hu. change (int_add 0 1) with 1 in Hth.
  set (ts1 := set_executing (markRunning (now st) (executing ts)) (set_recursionDepth 1 ts))
    in *.
  assert (Hd1 : deref self (threads st1) = Some ts1).
  { rewrite Hth. eapply deref_assign_same. exact Hd. }
  assert (Hdepth : depth_of self st1 = 1).
  { unfold depth_of. rewrite Hd1. reflexivity. }
  rewrite Hdepth.
  set (st1' := log (EvTask 1) st1).
  destruct (runTask_nested cfg (w_task w) Hlimit self st1' ts1 Hd1)
    as [Hr (Ht2 & Hu2 & Hn2 & l & He2 & Hx2)].
  { subst ts1. simpl. unfold INT_MAX. lia. }
  destruct (runTask cfg (w_task w) self st1') as [r st2]. cbn [fst snd] in *.
  assert (Hd2 : deref self (threads st2) = Some ts1).
  { rewrite Ht2. exact Hd1. }
  destruct (wrappedTask_guard_spec self st2 ts1 Hd2)
    as (st3 & Hg & Hth3 & Hu3 & Hx3 & _ & Hev3 & Hnow3 & _).
  change (int_sub (recursionDepth ts1) 1 =? 0) with true in Hth3, Hu3.
  cbv iota in Hth3, Hu3.
  rewrite Hg.
  assert (Hall :
    deref self (threads st3)
    = Some (set_executingCurRun (executingCurRun ts + (now st3 - now st))
              (set_executing
                 {| ct_timer := tt_reset (now st);
                    ct_accumulator := ct_accumulator (executing ts) + (now st3 - now st);
                    ct_running := false |} ts))
    /\ load _threadsInUse st3 = load _threadsInUse st
    /\ now st <= now st3
    /\ exists l0,
         events st3 = events st ++ EvTask 1 :: l0
         /\ load _totalExecuted st3
            = Nat.iter (S (count_tasks l0)) (incr 64) (load _totalExecuted st)).
  { split; [| split; [| split]].
    - rewrite Hth3. rewrite (deref_assign_same _ _ _ _ Hd2). f_equal.
      rewrite Hnow3. subst ts1. destruct ts as [rn ex cur dep]. simpl in Hzero. subst dep.
      reflexivity.
    - rewrite Hu3, Hu2. subst st1'. rewrite load_log, Hu.
      unfold incr. apply wrap_inc_dec; [lia | exact Hint].
    - rewrite Hnow3. subst st1'. simpl in Hn2. lia.
    - exists l. split.
      + rewrite Hev3, He2. subst st1'. simpl. rewrite Hev, <- app_assoc. reflexivity.
      + rewrite Hx3, Hx2. subst st1'. rewrite load_log, Hx. reflexivity. }
  destruct r as [u | |]; [| | contradiction]; (split; [discriminate | exact Hall]).
Qed.

(** C6.  The wrapper of a task, run on a worker [recursionDepth ts] levels
    deep.  On entry the depth goes up by one, and only from depth 0 is the
    executing stopwatch started and [_threadsInUse] counted up.  However the
    body ends, by returning or by throwing, and whatever is dispatched within
    it, the guard has brought the depth back; a wrapper entered at depth 0 has
    folded one executing interval, as long as the wrapped call, into
    [executingCurRun] and the stopwatch; a wrapper entered deeper has left the
    thread state as it was; [_threadsInUse] is back at its value; and
    [_totalExecuted] has been counted up once for every task body run in the
    call, at every depth. *)
Theorem wrappedTask_counts_outermost_only
    (cfg : Options) (w : WrappedTask) (self : ThreadIter) (st : Executor)
    (ts : ThreadState) :
  recursionLimit cfg <= INT_MAX ->
  deref self (threads st) = Some ts ->
  0 <= recursionDepth ts ->
  recursionDepth ts + 1 < INT_MAX ->
  is_int (load _threadsInUse st) ->
  let res := wrappedTask cfg w self st in
  let elapsed := now (snd res) - now st in
  (exists entered tsE,
      wrappedTask_enter w self st = Some entered
      /\ deref self (threads entered) = Some tsE
      /\ recursionDepth tsE = recursionDepth ts + 1
      /\ (recursionDepth ts = 0 ->
          executing tsE = markRunning (now st) (executing ts)
          /\ load _threadsInUse entered = incr 32 (load _threadsInUse st))
      /\ (recursionDepth ts <> 0 ->
          executing tsE = executing ts
          /\ load _threadsInUse entered = load _threadsInUse st))
  /\ fst res <> UB
  /\ (exists ts',
        deref self (threads (snd res)) = Some ts'
        /\ recursionDepth ts' = recursionDepth ts
        /\ (recursionDepth ts = 0 ->
            executingCurRun ts' = executingCurRun ts + elapsed
            /\ ct_accumulator (executing ts') = ct_accumulator (executing ts) + elapsed
            /\ ct_running (executing ts') = false)
        /\ (recursionDepth ts <> 0 -> ts' = ts))
  /\ load _threadsInUse (snd res) = load _threadsInUse st
  /\ 0 <= elapsed
  /\ (1 <= count_tasks (new_events st (snd res)))%nat
  /\ load _totalExecuted (snd res)
     = Nat.iter (count_tasks (new_events st (snd res))) (incr 64) (load _totalExecuted st).
Proof.
  intros Hlimit Hd Hlo Hhi Hint res elapsed. subst res elapsed.
  assert (Hexact : int_add (recursionDepth ts) 1 = recursionDepth ts + 1).
  { apply int_add_exact. unfold is_int, in_range. unfold INT_MAX in *. simpl. lia. }
  split.
  { destruct (wrappedTask_enter_spec w self st ts Hd) as (st1 & He & Hth & Hu & _).
    exists st1. eexists. split; [exact He |].
    split; [rewrite Hth; eapply deref_assign_same; exact Hd |].
    destruct (Z.eqb_spec (recursionDepth ts) 0) as [Hz | Hnz].
    - split; [simpl; exact Hexact |].
      split; [intros _; split; [reflexivity | exact Hu] | intros Hc; contradiction].
    - split; [simpl; exact Hexact |].
      split; [intros Hc; contradiction | intros _; split; [reflexivity | exact Hu]]. }
  destruct (Z.eq_dec (recursionDepth ts) 0) as [Hz | Hnz].
  - destruct (wrappedTask_outermost cfg w self st ts Hlimit Hd Hz Hint)
      as (Hr & Hd' & Hu & Hn & l & He & Hx).
    split; [exact Hr |]. split.
    { eexists. split; [exact Hd' |]. split; [reflexivity |].
      split; [intros _; repeat split | intros Hc; contradiction]. }
    split; [exact Hu |]. split; [lia |].
    rewrite (new_events_app _ _ _ He).
    change (count_tasks (EvTask 1 :: l)) with (S (count_tasks l)).
    split; [lia | exact Hx].
  - destruct (wrappedTask_gen_nested (runTask cfg (w_task w)) w self st ts Hd Hnz)
      as [Hr (Ht & Hu & Hn & l & He & Hx)].
    { unfold is_int, in_range. unfold INT_MAX in *. simpl. lia. }
    { intros st1 Hd1. apply (runTask_nested cfg (w_task w) Hlimit self st1 _ Hd1).
      simpl. rewrite Hexact. unfold INT_MAX in *. lia. }
    fold (wrappedTask cfg w self st) in Hr, Ht, Hu, Hn, He, Hx.
    split; [exact Hr |]. split.
    { exists ts. split; [rewrite Ht; exact Hd |]. split; [reflexivity |].
      split; [intros Hc; contradiction | intros _; reflexivity]. }
    split; [exact Hu |]. split; [lia |].
    rewrite (new_events_app _ _ _ He). split; [| exact Hx].
    destruct (wrappedTask_gen_events (runTask cfg (w_task w)) w self st ts
                (fun st1 => runTask_extends cfg (w_task w) self st1) Hd) as [l' Hl'].
    fold (wrappedTask cfg w self st) in Hl'.
    rewrite He in Hl'. apply app_inv_head in Hl'. subst l.
    change (count_tasks (EvTask (int_add (recursionDepth ts) 1) :: l'))
      with (S (count_tasks l')). lia.
Qed.

Lemma wrappedTask_counts_outermost_only_witness :
  let w := wrapped_for throwing_task kEmptyFlags sample_started in
  let res := wrappedTask sample_options w 0%nat sample_posted in
  fst res = Exn
  /\ load _threadsInUse (snd res) = 0
  /\ load _totalExecuted (snd res) = 2
  /\ option_map executingCurRun (deref 0%nat (threads (snd res))) = Some 9
  /\ option_map recursionDepth (deref 0%nat (threads (snd res))) = Some 0.
Proof.
  intros w res.
  assert (Hlimit : recursionLimit sample_options <= INT_MAX) by (vm_compute; discriminate).
  assert (Hint : is_int (load _threadsInUse sample_posted)).
  { unfold is_int, in_range. vm_compute. split; [discriminate | reflexivity]. }
  destruct (wrappedTask_counts_outermost_only sample_options w 0%nat sample_posted
              (ThreadState_new 0) Hlimit eq_refl)
    as (_ & _ & (ts' & Hd' & Hdepth & Hzero & _) & Hu & _ & _ & Hx);
    [simpl; lia | vm_compute; reflexivity | exact Hint |].
  fold res in Hd', Hu, Hx, Hzero.
  split; [reflexivity |]. split; [exact Hu |]. split; [rewrite Hx; reflexivity |].
  rewrite Hd'. simpl. destruct (Hzero eq_refl) as (Hcur & _).
  rewrite Hcur, Hdepth. split; reflexivity.
Defined.

(** ** The loops of the controller run to their end *)

Lemma startWorkerThread_running (st : Executor) :
  is_int (load _threadsRunning st) ->
  load _threadsRunning (_startWorkerThread st)
  = (if hd true (launchOracle st) then incr 32 (load _threadsRunning st)
     else load _threadsRunning st).
Proof.
  intros Hr. unfold _startWorkerThread, emplace_front, launchServiceWorkerThread. simpl.
  destruct (launchOracle st) as [| [|] rest] eqn:Ho; simpl; try reflexivity.
  unfold load, subtractAndFetch, addAndFetch, store, load. simpl.
  apply wrap_inc_dec; [lia | exact Hr].
Qed.

(** The fuel [replenish] gives its loop is enough: the loop ends with the
    reserve met. *)
Lemma replenish_loop_reaches_reserve (cfg : Options) (fuel : nat) :
  reservedThreads cfg <= INT_MAX ->
  forall st : Executor,
    is_int (load _threadsRunning st) ->
    (length (launchOracle st)
     + Z.to_nat (reservedThreads cfg - load _threadsRunning st) <= fuel)%nat ->
    reservedThreads cfg <= load _threadsRunning (replenish_loop cfg fuel st).
Proof.
  intros Hres. induction fuel as [| fuel IH]; intros st Hint Hfuel.
  - simpl. lia.
  - cbn [replenish_loop].
    destruct (Z.ltb_spec (load _threadsRunning st) (reservedThreads cfg)) as [Hlt | Hge];
      [| lia].
    pose proof (startWorkerThread_running st Hint) as Hrun.
    destruct (startWorkerThread_events st) as [_ Ho].
    assert (Hstep : incr 32 (load _threadsRunning st) = load _threadsRunning st + 1).
    { unfold incr. apply wrap_id; [lia |].
      unfold is_int, in_range, INT_MAX in *. simpl in *. lia. }
    apply IH.
    + rewrite Hrun. destruct (hd true (launchOracle st)); [| exact Hint].
      rewrite Hstep. unfold is_int, in_range, INT_MAX in *. simpl in *. lia.
    + rewrite Ho, Hrun.
      destruct (launchOracle st) as [| [|] rest]; simpl hd; simpl tl; simpl length in *;
        rewrite ?Hstep; lia.
Qed.

Lemma replenish_reaches_reserve (cfg : Options) (st : Executor) :
  reservedThreads cfg <= INT_MAX ->
  is_int (load _threadsRunning st) ->
  reservedThreads cfg <= load _threadsRunning (replenish cfg st).
Proof.
  intros Hres Hint. unfold replenish.
  apply replenish_loop_reaches_reserve; [exact Hres | exact Hint | lia].
Qed.

Lemma sleep_for_frame (cfg : Options) (st : Executor) :
  now st + 1 <= now (sleep_for cfg st)
  /\ ticksPerSecond (sleep_for cfg st) = ticksPerSecond st
  /\ load _threadsPending (sleep_for cfg st) = load _threadsPending st.
Proof.
  unfold sleep_for, advance, sleepTicks. simpl. repeat split.
  rewrite Z2N.id by lia. lia.
Qed.

(** The fuel [latencyWait] gives its loop is enough: the loop ends with no
    thread pending or with the stuck timeout elapsed. *)
Lemma latencyWait_loop_ends (cfg : Options) (c : Controller) (fuel : nat) :
  forall st : Executor,
    1 <= ticksPerMillisecond st ->
    stuckThreadTimeout cfg * ticksPerMillisecond st
    - sinceStartTicks (now st) (sinceLastControlRound c) <= Z.of_nat fuel ->
    let st' := latencyWait_loop cfg fuel c st in
    load _threadsPending st' <= 0
    \/ stuckThreadTimeout cfg
       <= sinceStart (ticksPerMillisecond st') (now st') (sinceLastControlRound c).
Proof.
  induction fuel as [| fuel IH]; intros st Htpm Hfuel; cbn [latencyWait_loop].
  - destruct (sleep_for_frame cfg st) as (Hnow & Htps & _).
    right. unfold sinceStart, int_div, ticksPerMillisecond in *. rewrite Htps.
    apply Z.quot_le_lower_bound; [lia |].
    unfold sinceStartTicks in *. simpl Z.of_nat in Hfuel. lia.
  - destruct (sleep_for_frame cfg st) as (Hnow & Htps & Hpend).
    set (st1 := sleep_for cfg st) in *.
    destruct (load _threadsPending st1 >? 0) eqn:Hp;
      destruct (sinceStart (ticksPerMillisecond st1) (now st1) (sinceLastControlRound c)
                <? stuckThreadTimeout cfg) eqn:Hlt; cbn [andb]; cbv zeta.
    + apply IH.
      * unfold ticksPerMillisecond in *. rewrite Htps. exact Htpm.
      * unfold ticksPerMillisecond, sinceStartTicks in *. rewrite Htps. lia.
    + right. apply Z.ltb_ge. exact Hlt.
    + left. pose proof (Zgt_cases (load _threadsPending st1) 0) as Hc.
      rewrite Hp in Hc. exact Hc.
    + left. pose proof (Zgt_cases (load _threadsPending st1) 0) as Hc.
      rewrite Hp in Hc. exact Hc.
Qed.

Lemma latencyWait_ends (cfg : Options) (c : Controller) (st : Executor) :
  1 <= ticksPerMillisecond st ->
  let st' := latencyWait cfg c st in
  load _threadsPending st' <= 0
  \/ stuckThreadTimeout cfg
     <= sinceStart (ticksPerMillisecond st') (now st') (sinceLastControlRound c).
Proof.
  intros Htpm. unfold latencyWait. apply latencyWait_loop_ends; [exact Htpm | lia].
Qed.

(** * Further properties of the executor *)

(** ** The options provider and the run time *)

(** X1.  One call of [reservedThreads()] settles the thread count: the value
    it returns is never -1, it is the value the parameter holds afterwards,
    and every later call returns it again and stores nothing, whatever the
    machine reports by then.  A configured count is returned as it is; an
    unconfigured one becomes the larger of 2 and half the cores the process
    may use (the cores of the machine when that is not known), so at least
    2. *)
Theorem reservedThreads_settles (pi pi' : ProcessInfo)
    (p : ServerParameterOptions.Parameters) :
  let stored := ServerParameterOptions.adaptiveServiceExecutorReservedThreads in
  let res := ServerParameterOptions.reservedThreads pi p in
  let cores := match getNumAvailableCores pi with
               | Some n => n
               | None => getNumCores pi
               end in
  fst res <> -1
  /\ stored (snd res) = fst res
  /\ ServerParameterOptions.reservedThreads pi' (snd res) = res
  /\ (stored p <> -1 -> res = (stored p, p))
  /\ (stored p = -1 -> fst res = Z.max (int_div cores 2) 2 /\ 2 <= fst res).
Proof.
  cbv zeta. unfold ServerParameterOptions.reservedThreads.
  destruct (Z.eqb_spec (ServerParameterOptions.adaptiveServiceExecutorReservedThreads p) (-1))
    as [Heq | Hne]; cbn [fst snd].
  - set (v := Z.max _ 2). assert (Hv : 2 <= v) by (subst v; lia).
    split; [lia |]. split; [reflexivity |]. split.
    + cbn. destruct (Z.eqb_spec v (-1)); [lia | reflexivity].
    + split; [intros Hc; contradiction | intros _; split; [reflexivity | exact Hv]].
  - split; [exact Hne |]. split; [reflexivity |]. split.
    + destruct (Z.eqb_spec (ServerParameterOptions.adaptiveServiceExecutorReservedThreads p)
                  (-1)); [contradiction | reflexivity].
    + split; [intros _; reflexivity | intros Hc; contradiction].
Qed.

(** X2.  With a non-negative jitter parameter, the run time of a worker's
    slices lies within the jitter of the configured run time; it is at most
    twice a non-negative run time (a draw above the run time is dropped); it
    is the configured run time when the jitter parameter is 0; and it is
    positive, as the loop asserts, whenever the jitter parameter is below the
    run time. *)
Theorem runTime_within_jitter (cfg : Options) (draw : Z) (it : ThreadIter) (pending : bool) :
  0 <= runTimeJitter cfg ->
  valid_draw cfg draw ->
  let wk := {| state := it; stillPending := pending;
               jitter := _getThreadJitter cfg draw |} in
  workerThreadRunTime cfg - runTimeJitter cfg <= runTime cfg wk
  /\ runTime cfg wk <= workerThreadRunTime cfg + runTimeJitter cfg
  /\ (0 <= workerThreadRunTime cfg -> runTime cfg wk <= 2 * workerThreadRunTime cfg)
  /\ (runTimeJitter cfg = 0 -> runTime cfg wk = workerThreadRunTime cfg)
  /\ (runTimeJitter cfg < workerThreadRunTime cfg -> dassert_runTime cfg wk = true).
Proof.
  unfold valid_draw, dassert_runTime, runTime. cbn [jitter]. intros HJ Hdraw.
  rewrite getThreadJitter_spec.
  destruct (Z.eqb_spec (runTimeJitter cfg) 0) as [Hz | Hnz]; cbn [orb].
  - repeat split; intros; try apply Z.gtb_lt; lia.
  - destruct (Z.gtb_spec draw (workerThreadRunTime cfg));
      repeat split; intros; try apply Z.gtb_lt; lia.
Qed.

Lemma runTime_within_jitter_witness :
  4500 <= runTime sample_options
            {| state := O; stillPending := true;
               jitter := _getThreadJitter sample_options (-500) |}
  /\ dassert_runTime sample_options
       {| state := O; stillPending := true;
          jitter := _getThreadJitter sample_options (-500) |} = true.
Proof.
  assert (HJ : 0 <= runTimeJitter sample_options) by (simpl; lia).
  assert (Hd : valid_draw sample_options (-500)) by (unfold valid_draw; simpl; lia).
  destruct (runTime_within_jitter sample_options (-500) O true HJ Hd) as (Hlo & _ & _ & _ & Hpos).
  split; [exact Hlo | apply Hpos; simpl; lia].
Defined.

(** ** Starvation and the controller's wake-up *)

(** [_isStarved] reads four of the atomic words and nothing else. *)
Lemma isStarved_reads (st st' : Executor) :
  load _threadsPending st' = load _threadsPending st ->
  load _tasksQueued st' = load _tasksQueued st ->
  load _threadsRunning st' = load _threadsRunning st ->
  load _threadsInUse st' = load _threadsInUse st ->
  _isStarved st' = _isStarved st.
Proof. unfold _isStarved. intros -> -> -> ->. reflexivity. Qed.

(** X3.  Right after [_startWorkerThread] has launched a thread the pool does
    not count as starved, however many tasks wait: the new thread is pending
    until it has completed its first slice. *)
Theorem spawn_masks_starvation (st : Executor) :
  hd true (launchOracle st) = true ->
  0 <= load _threadsPending st < INT_MAX ->
  load _threadsPending (_startWorkerThread st) = load _threadsPending st + 1
  /\ _isStarved (_startWorkerThread st) = false.
Proof.
  intros Hok Hp.
  destruct (startWorkerThread_launched st Hok) as (_ & _ & Hpend).
  assert (Hstep : incr 32 (load _threadsPending st) = load _threadsPending st + 1).
  { unfold incr. apply wrap_id; [lia |]. unfold in_range, INT_MAX in *. simpl. lia. }
  rewrite Hstep in Hpend. split; [exact Hpend |].
  unfold _isStarved. rewrite Hpend.
  destruct (Z.gtb_spec (load _threadsPending st + 1) 0); [reflexivity | lia].
Qed.

Lemma spawn_masks_starvation_witness :
  _isStarved sample_starved = true
  /\ _isStarved (_startWorkerThread sample_starved) = false.
Proof.
  split; [reflexivity |].
  apply (spawn_masks_starvation sample_starved); [reflexivity |].
  unfold INT_MAX. vm_compute. split; [discriminate | reflexivity].
Defined.

(** X4.  What a [schedule] call that goes through [post] tells the
    controller: it notifies [_scheduleCondition] exactly when the task is not
    deferred and the pool is starved once the task is counted; a deferred
    task never wakes the controller. *)
Theorem schedule_notifies_when_starved
    (cfg : Options) (task : Task) (flags : ScheduleFlags) (caller : option ThreadIter)
    (st : Executor) :
  isRunning st = true ->
  kMayRecurse flags = false ->
  new_events st (snd (schedule cfg task flags caller st))
  = EvPost (wrapped_for task flags st)
    :: (if negb (kDeferredTask flags) && _isStarved (addAndFetch _tasksQueued 1 st)
        then [EvScheduleNotify] else []).
Proof.
  intros Hrun Hmay. unfold schedule, schedule_gen.
  change (isRunning (addAndFetch _ 1 st)) with (isRunning st).
  rewrite Hrun, Hmay. simpl negb. cbv iota. cbv zeta.
  change (Build_WrappedTask task (now st)
            (if kDeferredTask flags then DeferredTasksQueued else TasksQueued))
    with (wrapped_for task flags st).
  set (w := wrapped_for task flags st).
  destruct (kDeferredTask flags) eqn:Hdef; cbn [negb andb counter_of].
  - rewrite andb_false_r. cbn [snd].
    apply new_events_app. reflexivity.
  - rewrite andb_true_r.
    match goal with
    | |- context [if _isStarved ?s then _ else _] =>
        replace (_isStarved s) with (_isStarved (addAndFetch _tasksQueued 1 st))
          by (symmetry; apply isStarved_reads; reflexivity)
    end.
    destruct (_isStarved (addAndFetch _tasksQueued 1 st)); cbn [snd];
      apply new_events_app; simpl; rewrite <- ?app_assoc; reflexivity.
Qed.

Lemma schedule_notifies_when_starved_witness :
  new_events sample_stuck
    (snd (schedule sample_options Return kEmptyFlags None sample_stuck))
  = [EvPost (wrapped_for Return kEmptyFlags sample_stuck); EvScheduleNotify]
  /\ new_events sample_stuck
       (snd (schedule sample_options Return
               {| kDeferredTask := true; kMayRecurse := false |} None sample_stuck))
     = [EvPost (wrapped_for Return {| kDeferredTask := true; kMayRecurse := false |}
                  sample_stuck)].
Proof.
  split.
  - exact (schedule_notifies_when_starved sample_options Return kEmptyFlags None
             sample_stuck eq_refl eq_refl).
  - exact (schedule_notifies_when_starved sample_options Return
             {| kDeferredTask := true; kMayRecurse := false |} None
             sample_stuck eq_refl eq_refl).
Defined.

(** ** A slice of no length *)

(** X5.  When the slice's stopwatch measured no tick at all, the ratio the
    retirement check computes is a division by zero in [double] (a NaN or an
    infinity), and its cast to [int] is undefined: a worker past its pending
    slice, in a pool above the reserve, runs into undefined behaviour instead
    of a decision. *)
Theorem zero_length_slice_undefined
    (cfg : Options) (wk : Worker) (st : Executor) (ts : ThreadState) :
  pctExecuting (executingCurRun ts) 0 = None
  /\ (stillPending wk = false ->
      load _threadsRunning st > reservedThreads cfg ->
      deref (state wk) (threads st) = Some ts ->
      afterRun cfg wk 0 st = (ExitUB, wk, st)).
Proof.
  assert (Hpct : forall e, pctExecuting e 0 = None).
  { intros e. unfold pctExecuting. change (to_double 0) with (S754_zero false).
    destruct (to_double e); reflexivity. }
  split; [apply Hpct |].
  intros Hp Hgt Hd. unfold afterRun. rewrite Hp, Hd, Hpct.
  destruct (Z.gtb_spec (load _threadsRunning st) (reservedThreads cfg)); [reflexivity | lia].
Qed.

Lemma zero_length_slice_undefined_witness :
  afterRun idle_58 (seasoned 0%nat) 0 sample_three = (ExitUB, seasoned 0%nat, sample_three).
Proof.
  destruct (deref 0%nat (threads sample_three)) as [ts |] eqn:Hd;
    [| vm_compute in Hd; discriminate].
  destruct (zero_length_slice_undefined idle_58 (seasoned 0%nat) sample_three ts) as [_ H].
  apply H; [reflexivity | vm_compute; reflexivity | exact Hd].
Defined.

(** ** What running tasks leaves alone *)

Section TaskFrame.

(** A relation between the executor before and after that every step of the
    admission path and of the task wrapper respects. *)
Variable R : Executor -> Executor -> Prop.
Hypothesis R_refl : forall st, R st st.
Hypothesis R_trans : forall a b c, R a b -> R b c -> R a c.
Hypothesis R_store : forall c v st, written_by_tasks c = true -> R st (store c v st).
Hypothesis R_log : forall e st, logged_by_tasks e = true -> R st (log e st).
Hypothesis R_assign : forall it ts st, R st (set_threads (assign it ts (threads st)) st).
Hypothesis R_advance : forall d st, R st (advance d st).
Hypothesis R_queue : forall q st, R st (set_ioQueue q st).
Hypothesis R_timer : forall t st, R st (set_lastScheduleTimer t st).

Variable cfg : Options.

Lemma frame_pending (p : PendingCounter) : written_by_tasks (counter_of p) = true.
Proof. destruct p; reflexivity. Qed.

Lemma frame_enter (w : WrappedTask) (self : ThreadIter) (st st1 : Executor) :
  wrappedTask_enter w self st = Some st1 -> R st st1.
Proof.
  unfold wrappedTask_enter. cbv zeta.
  set (sa := subtractAndFetch (counter_of (w_pendingCounterPtr w)) 1 st).
  set (sb := addAndFetch _totalSpentQueued (now sa - w_scheduleTime w) sa).
  assert (Hb : R st sb).
  { eapply R_trans; [apply (R_store (counter_of (w_pendingCounterPtr w))); apply frame_pending |].
    apply (R_store _totalSpentQueued). reflexivity. }
  destruct (deref self (threads sb)) as [ts |]; [| discriminate].
  destruct (recursionDepth ts =? 0); intros H; injection H as <-.
  - eapply R_trans; [exact Hb |]. change (threads st) with (threads sb).
    eapply R_trans; [apply R_assign |].
    apply (R_store _threadsInUse). reflexivity.
  - eapply R_trans; [exact Hb |]. change (threads st) with (threads sb). apply R_assign.
Qed.

Lemma frame_guard (self : ThreadIter) (st st' : Executor) :
  wrappedTask_guard self st = Some st' -> R st st'.
Proof.
  unfold wrappedTask_guard. cbv zeta.
  destruct (deref self (threads st)) as [ts |]; [| discriminate].
  destruct (int_sub (recursionDepth ts) 1 =? 0); intros H; injection H as <-.
  - unfold markStopped. eapply R_trans; [apply R_assign |].
    eapply R_trans; [apply (R_store _threadsInUse); reflexivity |].
    apply (R_store _totalExecuted). reflexivity.
  - eapply R_trans; [apply R_assign |]. apply (R_store _totalExecuted). reflexivity.
Qed.

Lemma frame_wrappedTask_gen
    (task : ThreadIter -> Executor -> Result unit * Executor)
    (w : WrappedTask) (self : ThreadIter) (st : Executor) :
  (forall st1, R st1 (snd (task self st1))) ->
  R st (snd (wrappedTask_gen task w self st)).
Proof.
  intros Htask. unfold wrappedTask_gen.
  destruct (wrappedTask_enter w self st) as [st1 |] eqn:He; [| apply R_refl].
  pose proof (Htask (log (EvTask (depth_of self st1)) st1)) as Hb.
  destruct (task self (log (EvTask (depth_of self st1)) st1)) as [r st2]. cbn [snd] in Hb.
  assert (H2 : R st st2).
  { eapply R_trans; [exact (frame_enter _ _ _ _ He) |].
    eapply R_trans; [apply (R_log (EvTask (depth_of self st1))); reflexivity | exact Hb]. }
  destruct r as [u | |]; [| | exact H2];
    (destruct (wrappedTask_guard self st2) as [st3 |] eqn:Hg; [| exact H2];
     eapply R_trans; [exact H2 | exact (frame_guard _ _ _ Hg)]).
Qed.

Lemma frame_schedule_gen
    (inline : WrappedTask -> ThreadIter -> Executor -> Result unit * Executor)
    (task : Task) (flags : ScheduleFlags) (caller : option ThreadIter) (st : Executor) :
  (forall w self st1, R st1 (snd (inline w self st1))) ->
  R st (snd (schedule_gen cfg inline task flags caller st)).
Proof.
  intros Hin. unfold schedule_gen. cbv zeta.
  set (pc := if kDeferredTask flags then DeferredTasksQueued else TasksQueued).
  set (st0 := addAndFetch (counter_of pc) 1 st).
  assert (H0 : R st st0) by (apply (R_store (counter_of pc)); apply frame_pending).
  destruct (negb (isRunning st0)); [exact H0 |].
  set (w := Build_WrappedTask _ _ _).
  assert (Hpost : R st (post w st0)).
  { eapply R_trans; [exact H0 |]. eapply R_trans; [apply (R_log (EvPost w)); reflexivity | apply R_queue]. }
  assert (Hfin : forall st1, R st st1 ->
            R st
              (if _isStarved
                    (addAndFetch _totalQueued 1
                       (set_lastScheduleTimer (tt_reset (now st1)) st1))
                  && negb (kDeferredTask flags)
               then log EvScheduleNotify
                      (addAndFetch _totalQueued 1
                         (set_lastScheduleTimer (tt_reset (now st1)) st1))
               else addAndFetch _totalQueued 1
                      (set_lastScheduleTimer (tt_reset (now st1)) st1))).
  { intros st1 H1.
    assert (H2 : R st (addAndFetch _totalQueued 1
                         (set_lastScheduleTimer (tt_reset (now st1)) st1))).
    { eapply R_trans; [exact H1 |]. eapply R_trans; [apply R_timer |].
      apply (R_store _totalQueued). reflexivity. }
    destruct (_isStarved _ && negb (kDeferredTask flags)); [| exact H2].
    eapply R_trans; [exact H2 | apply R_log; reflexivity]. }
  destruct (kMayRecurse flags); [| exact (Hfin _ Hpost)].
  destruct caller as [self |]; [| exact H0].
  destruct (deref self (threads st0)) as [ts |]; [| exact H0].
  destruct (int_add (recursionDepth ts) 1 <? recursionLimit cfg); [| exact (Hfin _ Hpost)].
  unfold dispatch.
  pose proof (Hin w self (log (EvDispatch w) st0)) as Hx.
  destruct (inline w self (log (EvDispatch w) st0)) as [r st1]. cbn [snd] in Hx.
  assert (H1 : R st st1).
  { eapply R_trans; [exact H0 |]. eapply R_trans; [apply (R_log (EvDispatch w)); reflexivity | exact Hx]. }
  destruct r; [exact (Hfin st1 H1) | exact H1 | exact H1].
Qed.

Lemma frame_runTask (t : Task) :
  forall (self : ThreadIter) (st : Executor), R st (snd (runTask cfg t self st)).
Proof.
  induction t as [| | d k IHk | flags sub IHsub k IHk]; intros self st; cbn [runTask].
  - apply R_refl.
  - apply R_refl.
  - eapply R_trans; [apply R_advance | apply IHk].
  - pose proof (frame_schedule_gen (wrappedTask_gen (runTask cfg sub)) sub flags
                  (Some self) st) as Hs.
    destruct (schedule_gen cfg (wrappedTask_gen (runTask cfg sub)) sub flags (Some self) st)
      as [r st1].
    cbn [snd] in Hs.
    assert (H1 : R st st1).
    { apply Hs. intros w self' st'. apply frame_wrappedTask_gen. intros st2. apply IHsub. }
    destruct r; [| exact H1 | exact H1].
    eapply R_trans; [exact H1 | apply IHk].
Qed.

Lemma frame_wrappedTask (w : WrappedTask) (self : ThreadIter) (st : Executor) :
  R st (snd (wrappedTask cfg w self st)).
Proof.
  unfold wrappedTask. apply frame_wrappedTask_gen. intros st1. apply frame_runTask.
Qed.

Lemma frame_schedule (task : Task) (flags : ScheduleFlags) (caller : option ThreadIter)
    (st : Executor) :
  R st (snd (schedule cfg task flags caller st)).
Proof.
  unfold schedule. apply frame_schedule_gen. intros w self st1. apply frame_wrappedTask.
Qed.

Lemma frame_run_handlers (n : nat) (self : ThreadIter) :
  forall st : Executor, R st (snd (run_handlers cfg n self st)).
Proof.
  induction n as [| n IH]; intros st; cbn [run_handlers]; [apply R_refl |].
  destruct (ioQueue st) as [| w rest]; [apply R_refl |].
  pose proof (frame_wrappedTask w self (set_ioQueue rest st)) as Hw.
  destruct (wrappedTask cfg w self (set_ioQueue rest st)) as [r st1]. cbn [snd] in Hw.
  assert (H1 : R st st1) by (eapply R_trans; [apply R_queue | exact Hw]).
  destruct r; [| exact H1 | exact H1].
  eapply R_trans; [exact H1 | apply IH].
Qed.

(** Either way a worker drives the reactor. *)
Lemma frame_run (env : SliceEnv) (pending : bool) (self : ThreadIter) (st : Executor) :
  R st (snd (if pending then run_one_for cfg env self st else run_for cfg env self st)).
Proof.
  assert (H : forall n, R st (snd (after_handlers env (run_handlers cfg n self st)))).
  { intros n. pose proof (frame_run_handlers n self st) as Hn.
    destruct (run_handlers cfg n self st) as [r st1]. cbn [snd] in Hn.
    destruct r; cbn [after_handlers snd]; [| exact Hn | exact Hn].
    eapply R_trans; [exact Hn | apply R_advance]. }
  destruct pending; [apply (H (Nat.min 1 (ready env))) | apply (H (ready env))].
Qed.

End TaskFrame.

Lemma map_fst_assign (it : ThreadIter) (ts : ThreadState) (l : ThreadList) :
  map fst (assign it ts l) = map fst l.
Proof.
  induction l as [| [i old] l IH]; [reflexivity |]. simpl.
  destruct (Nat.eqb i it); simpl; [reflexivity | rewrite IH; reflexivity].
Qed.

Lemma same_pool_refl (st : Executor) : same_pool st st.
Proof. unfold same_pool. repeat split; lia. Qed.

Lemma same_pool_trans (a b c : Executor) : same_pool a b -> same_pool b c -> same_pool a c.
Proof.
  unfold same_pool.
  intros (H1 & H2 & H3 & H4 & H5 & H6 & H7 & H8 & H9 & H10)
         (K1 & K2 & K3 & K4 & K5 & K6 & K7 & K8 & K9 & K10).
  repeat split; try congruence. lia.
Qed.

Lemma same_pool_store (c : Counter) (v : Z) (st : Executor) :
  written_by_tasks c = true -> same_pool st (store c v st).
Proof.
  intros Hc. unfold same_pool.
  repeat split; try reflexivity; try lia;
    apply load_store_neq; intros E; subst c; discriminate Hc.
Qed.

Lemma same_pool_tasks (cfg : Options) :
  (forall task flags caller st, same_pool st (snd (schedule cfg task flags caller st)))
  /\ (forall w self st, same_pool st (snd (wrappedTask cfg w self st)))
  /\ (forall n self st, same_pool st (snd (run_handlers cfg n self st)))
  /\ (forall env (pending : bool) self st,
         same_pool st
           (snd (if pending then run_one_for cfg env self st else run_for cfg env self st))).
Proof.
  assert (Hassign : forall it ts st,
            same_pool st (set_threads (assign it ts (threads st)) st)).
  { intros it ts st. unfold same_pool. repeat split; try reflexivity; try lia.
    apply map_fst_assign. }
  assert (Hadv : forall d st, same_pool st (advance d st)).
  { intros d st. unfold same_pool. repeat split; try reflexivity; simpl; lia. }
  assert (Hlog : forall e st, logged_by_tasks e = true -> same_pool st (log e st)).
  { intros e st _. unfold same_pool. repeat split; try reflexivity; simpl; lia. }
  assert (Hq : forall q st, same_pool st (set_ioQueue q st)).
  { intros q st. unfold same_pool. repeat split; try reflexivity; simpl; lia. }
  assert (Ht : forall t st, same_pool st (set_lastScheduleTimer t st)).
  { intros t st. unfold same_pool. repeat split; try reflexivity; simpl; lia. }
  split; [| split; [| split]].
  - intros. apply frame_schedule;
      first [exact same_pool_refl | exact same_pool_trans | exact same_pool_store
            | assumption].
  - intros. apply frame_wrappedTask;
      first [exact same_pool_refl | exact same_pool_trans | exact same_pool_store
            | assumption].
  - intros. apply frame_run_handlers;
      first [exact same_pool_refl | exact same_pool_trans | exact same_pool_store
            | assumption].
  - intros. apply frame_run;
      first [exact same_pool_refl | exact same_pool_trans | exact same_pool_store
            | assumption].
Qed.

Lemma no_launch_tasks (cfg : Options) :
  (forall task flags caller st, no_launch st (snd (schedule cfg task flags caller st)))
  /\ (forall n self st, no_launch st (snd (run_handlers cfg n self st)))
  /\ (forall env (pending : bool) self st,
         no_launch st
           (snd (if pending then run_one_for cfg env self st else run_for cfg env self st))).
Proof.
  assert (Hrefl : forall st, no_launch st st) by (intros; reflexivity).
  assert (Htrans : forall a b c, no_launch a b -> no_launch b c -> no_launch a c).
  { unfold no_launch. intros a b c H1 H2. congruence. }
  assert (Hstore : forall c v st, written_by_tasks c = true -> no_launch st (store c v st))
    by (intros; reflexivity).
  assert (Hlog : forall e st, logged_by_tasks e = true -> no_launch st (log e st)).
  { intros e st He. unfold no_launch. simpl. rewrite count_launches_app.
    destruct e; try discriminate He; unfold count_launches; simpl; lia. }
  assert (Hassign : forall it ts st,
            no_launch st (set_threads (assign it ts (threads st)) st))
    by (intros; reflexivity).
  assert (Hadv : forall d st, no_launch st (advance d st)) by (intros; reflexivity).
  assert (Hq : forall q st, no_launch st (set_ioQueue q st)) by (intros; reflexivity).
  assert (Ht : forall t st, no_launch st (set_lastScheduleTimer t st))
    by (intros; reflexivity).
  split; [| split].
  - intros. apply frame_schedule; assumption.
  - intros. apply frame_run_handlers; assumption.
  - intros. apply frame_run; assumption.
Qed.

(** X6.  Submitting and running tasks never changes the pool: whatever the
    task does, however it ends, [schedule] and the reactor's run of any number
    of handlers leave the running flag, [_threadsRunning], [_threadsPending],
    the accumulated times of past threads and the nodes of [_threads] as they
    were, launch no thread, and do not turn the clock back. *)
Theorem tasks_keep_the_pool
    (cfg : Options) (task : Task) (flags : ScheduleFlags) (caller : option ThreadIter)
    (n : nat) (self : ThreadIter) (st : Executor) :
  same_pool st (snd (schedule cfg task flags caller st))
  /\ no_launch st (snd (schedule cfg task flags caller st))
  /\ same_pool st (snd (run_handlers cfg n self st))
  /\ no_launch st (snd (run_handlers cfg n self st)).
Proof.
  destruct (same_pool_tasks cfg) as (Hs & _ & Hr & _).
  destruct (no_launch_tasks cfg) as (Ks & Kr & _).
  split; [apply Hs |]. split; [apply Ks |]. split; [apply Hr | apply Kr].
Qed.

(** ** The pool and its bookkeeping *)

Lemma wrap_wrap_sub (w a b : Z) : 0 < w -> wrap w (wrap w a - b) = wrap w (a - b).
Proof. intros Hw. unfold Z.sub. apply wrap_wrap_add. exact Hw. Qed.

Lemma iter_incr_exact (n : nat) (x : Z) :
  - 2 ^ 31 <= x -> x + Z.of_nat n <= INT_MAX ->
  Nat.iter n (incr 32) x = x + Z.of_nat n.
Proof.
  intros Hlo. induction n as [| n IH]; intros Hhi; [simpl; lia |].
  rewrite Nat.iter_succ, IH by lia. unfold incr.
  rewrite wrap_id; [lia | lia |]. unfold in_range, INT_MAX in *. simpl. lia.
Qed.

Lemma erase_length (it : ThreadIter) (ts : ThreadState) (l : ThreadList) :
  deref it l = Some ts -> S (length (erase it l)) = length l.
Proof.
  induction l as [| [i old] l IH]; simpl; [discriminate |].
  destruct (Nat.eqb i it); [reflexivity |].
  intros H. simpl. rewrite (IH H). reflexivity.
Qed.

(** What the exit guard of a worker does to the executor. *)
Lemma workerExit_spec (wk : Worker) (st st' : Executor) :
  workerExit wk st = Some st' ->
  exists ts,
    deref (state wk) (threads st) = Some ts
    /\ threads st' = erase (state wk) (threads st)
    /\ load _threadsRunning st' = wrap 32 (load _threadsRunning st - 1)
    /\ load _threadsPending st'
       = (if stillPending wk then wrap 32 (load _threadsPending st - 1)
          else load _threadsPending st)
    /\ load _pastThreadsSpentRunning st'
       = wrap 64 (load _pastThreadsSpentRunning st + totalTime (now st) (running ts))
    /\ load _pastThreadsSpentExecuting st'
       = wrap 64 (load _pastThreadsSpentExecuting st + totalTime (now st) (executing ts))
    /\ events st' = events st ++ [EvDeathNotify]
    /\ isRunning st' = isRunning st
    /\ now st' = now st
    /\ ioStopped st' = ioStopped st
    /\ launchOracle st' = launchOracle st.
Proof.
  unfold workerExit. cbv zeta.
  set (sa := if stillPending wk then subtractAndFetch _threadsPending 1 st else st).
  assert (Ha : threads sa = threads st /\ now sa = now st /\ events sa = events st
               /\ isRunning sa = isRunning st /\ ioStopped sa = ioStopped st
               /\ launchOracle sa = launchOracle st
               /\ load _threadsRunning sa = load _threadsRunning st
               /\ load _pastThreadsSpentRunning sa = load _pastThreadsSpentRunning st
               /\ load _pastThreadsSpentExecuting sa = load _pastThreadsSpentExecuting st
               /\ load _threadsPending sa
                  = (if stillPending wk then wrap 32 (load _threadsPending st - 1)
                     else load _threadsPending st)).
  { subst sa. destruct (stillPending wk); repeat split; reflexivity. }
  destruct Ha as (Hth & Hnow & Hev & Hrun & Hstop & Hor & Hr & Hpr & Hpe & Hp).
  change (threads (subtractAndFetch _threadsRunning 1 sa)) with (threads sa).
  rewrite Hth.
  destruct (deref (state wk) (threads st)) as [ts |] eqn:Hd; [| discriminate].
  intros H. injection H as <-. exists ts.
  split; [reflexivity |]. cbn [threads log set_events set_threads].
  change (threads (addAndFetch _pastThreadsSpentExecuting _ _)) with (threads sa).
  rewrite Hth. split; [reflexivity |].
  change (now (subtractAndFetch _threadsRunning 1 sa)) with (now sa).
  change (now (addAndFetch _pastThreadsSpentRunning _ _)) with (now sa).
  rewrite Hnow.
  split; [unfold load at 1; simpl; fold (load _threadsRunning sa); rewrite Hr; reflexivity |].
  split; [unfold load at 1; simpl; fold (load _threadsPending sa); exact Hp |].
  split; [unfold load at 1; simpl; fold (load _pastThreadsSpentRunning sa);
          rewrite Hpr; reflexivity |].
  split; [unfold load at 1; simpl; fold (load _pastThreadsSpentExecuting sa);
          rewrite Hpe; reflexivity |].
  split; [simpl; rewrite Hev; reflexivity |].
  repeat split; simpl; assumption.
Qed.

Lemma startWorkerThread_pool (st : Executor) :
  length (threads (_startWorkerThread st))
  = (if hd true (launchOracle st) then S (length (threads st)) else length (threads st))
  /\ load _threadsRunning (_startWorkerThread st)
     = (if hd true (launchOracle st) then wrap 32 (load _threadsRunning st + 1)
        else wrap 32 (wrap 32 (load _threadsRunning st + 1) - 1))
  /\ load _threadsPending (_startWorkerThread st)
     = (if hd true (launchOracle st) then wrap 32 (load _threadsPending st + 1)
        else wrap 32 (wrap 32 (load _threadsPending st + 1) - 1)).
Proof.
  unfold _startWorkerThread, emplace_front, launchServiceWorkerThread. simpl.
  destruct (launchOracle st) as [| [|] rest] eqn:Ho; simpl; try (repeat split; reflexivity).
  rewrite Nat.eqb_refl. repeat split; reflexivity.
Qed.

Lemma pool_consistent_spawn (st : Executor) :
  pool_consistent st ->
  Z.of_nat (length (threads st)) < INT_MAX ->
  pool_consistent (_startWorkerThread st).
Proof.
  unfold pool_consistent. intros Hc Hroom.
  destruct (startWorkerThread_pool st) as (Hlen & Hrun & _).
  rewrite Hlen, Hrun, Hc.
  destruct (hd true (launchOracle st)).
  - rewrite Nat2Z.inj_succ. apply wrap_id; [lia |].
    unfold in_range, INT_MAX in *. simpl. lia.
  - apply wrap_inc_dec; [lia |]. unfold in_range, INT_MAX in *. simpl. lia.
Qed.

Lemma pool_consistent_exit (wk : Worker) (st st' : Executor) :
  pool_consistent st ->
  Z.of_nat (length (threads st)) <= INT_MAX ->
  workerExit wk st = Some st' ->
  pool_consistent st'.
Proof.
  unfold pool_consistent. intros Hc Hroom He.
  destruct (workerExit_spec wk st st' He) as (ts & Hd & Hth & Hrun & _).
  rewrite Hrun, Hth, Hc. pose proof (erase_length _ _ _ Hd) as Hlen.
  rewrite wrap_id; [lia | lia |]. unfold in_range, INT_MAX in *. simpl. lia.
Qed.

Lemma pool_consistent_same (st st' : Executor) :
  same_pool st st' -> pool_consistent st -> pool_consistent st'.
Proof.
  unfold pool_consistent. intros (_ & Hr & _ & _ & _ & Hm & _) Hc.
  rewrite Hr, Hc. f_equal.
  rewrite <- (length_map fst (threads st')), Hm, length_map. reflexivity.
Qed.

(** X7.  [_threadsRunning] counts the nodes of [_threads], and every
    operation that touches either keeps it so: [_startWorkerThread], whether
    the launch succeeds or fails; the exit guard of a worker; and, trivially,
    submitting and running tasks. *)
Theorem threadsRunning_counts_threads (st : Executor) :
  pool_consistent st ->
  Z.of_nat (length (threads st)) < INT_MAX ->
  pool_consistent (_startWorkerThread st)
  /\ (forall wk st', workerExit wk st = Some st' -> pool_consistent st')
  /\ (forall cfg task flags caller,
         pool_consistent (snd (schedule cfg task flags caller st)))
  /\ (forall cfg n self, pool_consistent (snd (run_handlers cfg n self st))).
Proof.
  intros Hc Hroom. split; [apply pool_consistent_spawn; assumption |].
  split; [| split].
  - intros wk st' He. apply (pool_consistent_exit wk st st' Hc); [lia | exact He].
  - intros cfg task flags caller. eapply pool_consistent_same; [| exact Hc].
    apply same_pool_tasks.
  - intros cfg n self. eapply pool_consistent_same; [| exact Hc].
    apply same_pool_tasks.
Qed.

Lemma threadsRunning_counts_threads_witness :
  pool_consistent (_startWorkerThread sample_launch_fails)
  /\ pool_consistent sample_one_left.
Proof.
  assert (Hc : pool_consistent sample_launch_fails) by reflexivity.
  assert (Hroom : Z.of_nat (length (threads sample_launch_fails)) < INT_MAX)
    by (vm_compute; reflexivity).
  destruct (threadsRunning_counts_threads sample_launch_fails Hc Hroom) as (Hs & _).
  split; [exact Hs | reflexivity].
Defined.

Lemma startWorkerThreads_pending (n : nat) (st : Executor) :
  Forall (eq true) (next_launches n (launchOracle st)) ->
  load _threadsPending (startWorkerThreads n st)
  = Nat.iter n (incr 32) (load _threadsPending st).
Proof.
  revert st. induction n as [| n IH]; intros st Hall; [reflexivity |].
  rewrite next_launches_S in Hall. inversion Hall as [| ? ? Hhd Htl]; subst.
  cbn [startWorkerThreads].
  destruct (startWorkerThread_events st) as [_ Ho].
  destruct (startWorkerThread_launched st (eq_sym Hhd)) as (_ & _ & Hpend).
  rewrite <- Ho in Htl. rewrite (IH _ Htl), Hpend.
  symmetry. apply Nat.iter_succ_r.
Qed.

(** X8.  [start] on a stopped executor (its [invariant]) with no worker, when
    no launch fails:
    it returns OK with the running flag set and exactly [reservedThreads()]
    workers started, every one of them pending, so that [_threadsRunning],
    [_threadsPending] and the size of [_threads] all equal the reserve. *)
Theorem start_fills_the_reserve (cfg : Options) (st : Executor) :
  isRunning st = false ->
  0 <= reservedThreads cfg <= INT_MAX ->
  threads st = [] ->
  load _threadsRunning st = 0 ->
  load _threadsPending st = 0 ->
  Forall (eq true) (next_launches (Z.to_nat (reservedThreads cfg)) (launchOracle st)) ->
  let res := start cfg st in
  fst res = OK
  /\ isRunning (snd res) = true
  /\ Z.of_nat (spawned st (snd res)) = reservedThreads cfg
  /\ Z.of_nat (length (threads (snd res))) = reservedThreads cfg
  /\ load _threadsRunning (snd res) = reservedThreads cfg
  /\ load _threadsPending (snd res) = reservedThreads cfg.
Proof.
  intros _ Hres Hth Hrun Hpend Hall res. subst res. unfold start. cbn [fst snd].
  set (n := Z.to_nat (reservedThreads cfg)) in *.
  set (st0 := set_isRunning true st).
  assert (Hn : Z.of_nat n = reservedThreads cfg) by (subst n; apply Z2Nat.id; lia).
  split; [reflexivity |].
  split; [destruct (startWorkerThreads_frame n st0) as [_ H]; exact H |].
  split; [change (spawned st (startWorkerThreads n st0))
            with (spawned st0 (startWorkerThreads n st0));
          rewrite spawned_startWorkerThreads; exact Hn |].
  destruct (startWorkerThreads_launched n st0 Hall) as [Hlen Hr].
  pose proof (startWorkerThreads_pending n st0 Hall) as Hp.
  change (threads st0) with (threads st) in Hlen. rewrite Hth in Hlen.
  change (load _threadsRunning st0) with (load _threadsRunning st) in Hr.
  change (load _threadsPending st0) with (load _threadsPending st) in Hp.
  rewrite Hrun in Hr. rewrite Hpend in Hp.
  rewrite iter_incr_exact in Hr, Hp by (simpl; unfold INT_MAX in *; lia).
  split; [rewrite Hlen; simpl; lia |]. split; [rewrite Hr; lia | rewrite Hp; lia].
Qed.

Lemma start_fills_the_reserve_witness :
  load _threadsRunning sample_started = 2
  /\ load _threadsPending sample_started = 2
  /\ Z.of_nat (length (threads sample_started)) = 2.
Proof.
  assert (Hres : 0 <= reservedThreads sample_options <= INT_MAX)
    by (unfold INT_MAX; simpl; lia).
  destruct (start_fills_the_reserve sample_options (executor_new 1000000 0) eq_refl Hres
              eq_refl eq_refl eq_refl) as (_ & _ & _ & Hlen & Hr & Hp).
  - vm_compute. repeat constructor.
  - split; [exact Hr | split; [exact Hp | exact Hlen]].
Defined.

(** ** The timer totals *)

Lemma fold_left_plus (f : ThreadIter * ThreadState -> Z) (l : ThreadList) (a : Z) :
  fold_left (fun acc node => acc + f node) l a
  = a + fold_left (fun acc node => acc + f node) l 0.
Proof.
  revert a. induction l as [| n l IH]; intros a; simpl; [lia |].
  rewrite (IH (a + f n)), (IH (f n)). lia.
Qed.

Lemma fold_left_erase (g : ThreadState -> Z) (it : ThreadIter) (ts : ThreadState)
    (l : ThreadList) :
  deref it l = Some ts ->
  fold_left (fun acc (node : ThreadIter * ThreadState) => acc + g (snd node)) l 0
  = g ts
    + fold_left (fun acc (node : ThreadIter * ThreadState) => acc + g (snd node))
        (erase it l) 0.
Proof.
  induction l as [| [i old] l IH]; simpl; [discriminate |].
  destruct (Nat.eqb i it).
  - intros H. injection H as <-.
    rewrite (fold_left_plus (fun node => g (snd node)) l (g old)). reflexivity.
  - intros H. simpl.
    rewrite (fold_left_plus (fun node => g (snd node)) l (g old)),
      (fold_left_plus (fun node => g (snd node)) (erase it l) (g old)), (IH H). lia.
Qed.

Lemma getThreadTimerTotal_sum (which : ThreadTimer) (st : Executor) :
  _getThreadTimerTotal which st
  = load (past_of which) st
    + fold_left (fun acc (node : ThreadIter * ThreadState) =>
                   acc + totalTime (now st) (timer_of which (snd node)))
        (threads st) 0.
Proof.
  unfold _getThreadTimerTotal. destruct which; simpl; apply fold_left_plus.
Qed.

(** X9.  A worker that leaves takes nothing from the totals the controller
    reads: its exit guard adds the thread's running and executing time to the
    past-threads accumulators before it erases the node, so
    [_getThreadTimerTotal] is the same before and after, as long as the
    64-bit accumulator has room for the thread's time. *)
Theorem workerExit_keeps_timer_totals (wk : Worker) (st st' : Executor)
    (which : ThreadTimer) :
  workerExit wk st = Some st' ->
  (forall ts, deref (state wk) (threads st) = Some ts ->
     is_int64 (load (past_of which) st + totalTime (now st) (timer_of which ts))) ->
  _getThreadTimerTotal which st' = _getThreadTimerTotal which st.
Proof.
  intros He Hroom.
  destruct (workerExit_spec wk st st' He)
    as (ts & Hd & Hth & _ & _ & Hpr & Hpe & _ & _ & Hnow & _).
  specialize (Hroom ts Hd). unfold is_int64 in Hroom.
  rewrite !getThreadTimerTotal_sum, Hth, Hnow.
  rewrite (fold_left_erase (fun t => totalTime (now st) (timer_of which t))
             (state wk) ts (threads st) Hd).
  destruct which; simpl in *.
  - rewrite Hpr, wrap_id by (try lia; exact Hroom). lia.
  - rewrite Hpe, wrap_id by (try lia; exact Hroom). lia.
Qed.

Lemma workerExit_keeps_timer_totals_witness :
  let retiring := snd (workerSlice idle_58 slice_58_of_100 (seasoned 0%nat) sample_three) in
  exists st',
    workerExit (seasoned 0%nat) retiring = Some st'
    /\ _getThreadTimerTotal Running retiring = 120
    /\ _getThreadTimerTotal Running st' = 120
    /\ _getThreadTimerTotal Executing retiring = 58
    /\ _getThreadTimerTotal Executing st' = 58
    /\ load _pastThreadsSpentRunning retiring = 0
    /\ load _pastThreadsSpentRunning st' = 110.
Proof.
  cbv zeta. eexists. split; [vm_compute; reflexivity |].
  match goal with
  | |- _ /\ _getThreadTimerTotal Running ?s = _ /\ _ =>
      assert (He : workerExit (seasoned 0%nat)
                     (snd (workerSlice idle_58 slice_58_of_100 (seasoned 0%nat) sample_three))
                   = Some s) by (vm_compute; reflexivity);
      assert (Hroom : forall which ts,
                deref (state (seasoned 0%nat))
                  (threads (snd (workerSlice idle_58 slice_58_of_100 (seasoned 0%nat)
                                   sample_three))) = Some ts ->
                is_int64
                  (load (past_of which)
                     (snd (workerSlice idle_58 slice_58_of_100 (seasoned 0%nat) sample_three))
                   + totalTime
                       (now (snd (workerSlice idle_58 slice_58_of_100 (seasoned 0%nat)
                                    sample_three)))
                       (timer_of which ts)))
        by (intros which ts Hd; vm_compute in Hd; injection Hd as <-;
            destruct which; vm_compute; (split; [discriminate | reflexivity]));
      rewrite (workerExit_keeps_timer_totals (seasoned 0%nat) _ s Running He (Hroom Running));
      rewrite (workerExit_keeps_timer_totals (seasoned 0%nat) _ s Executing He
                 (Hroom Executing))
  end.
  vm_compute. repeat split.
Defined.

(** ** Shutdown *)

(** The tail of a pass is the code [workerSlice] runs after the reactor. *)
Lemma workerSlice_afterReactor (cfg : Options) (env : SliceEnv) (wk : Worker)
    (st : Executor) :
  workerSlice cfg env wk st
  = match deref (state wk) (threads st) with
    | None => (ExitUB, wk, st)
    | Some ts =>
        let ts := set_executingCurRun 0 ts in
        let ts := set_running (markRunning (now st) (running ts)) ts in
        let st := set_threads (assign (state wk) ts (threads st)) st in
        match (if stillPending wk then run_one_for cfg env (state wk) st
               else run_for cfg env (state wk) st) with
        | (UB, st) => (ExitUB, wk, st)
        | (Exn, st) => (ExitException, wk, _startWorkerThread st)
        | (Ret _, st) => afterReactor cfg wk st
        end
    end.
Proof.
  unfold workerSlice, afterReactor.
  destruct (deref (state wk) (threads st)) as [ts |]; [| reflexivity].
  cbv zeta.
  destruct (if stillPending wk then run_one_for cfg env (state wk) _
            else run_for cfg env (state wk) _) as [r st1].
  destruct r; reflexivity.
Qed.






(** ** The life of a worker *)

Lemma same_pool_assign (it : ThreadIter) (ts : ThreadState) (st : Executor) :
  same_pool st (set_threads (assign it ts (threads st)) st).
Proof.
  unfold same_pool. repeat split; try reflexivity; try lia. apply map_fst_assign.
Qed.

Lemma same_pool_restart (st : Executor) :
  same_pool st (if ioStopped st then restart st else st).
Proof.
  destruct (ioStopped st); [| apply same_pool_refl].
  unfold same_pool, restart. repeat split; try reflexivity; simpl; lia.
Qed.

(** One pass through the loop: the run leaves the pool as it was, and then
    the pass pays the pending count, or starts a replacement, or neither. *)
Lemma workerSlice_pool (cfg : Options) (env : SliceEnv) (wk wk' : Worker)
    (st st' : Executor) (step : WorkerStep) :
  workerSlice cfg env wk st = (step, wk', st') ->
  step <> ExitUB ->
  exists st1,
    same_pool st st1
    /\ state wk' = state wk
    /\ match step with
       | KeepRunning =>
           stillPending wk' = false
           /\ st' = (if stillPending wk then subtractAndFetch _threadsPending 1 st1 else st1)
       | ExitIdle => wk' = wk /\ stillPending wk = false /\ st' = st1
       | ExitException => wk' = wk /\ st' = _startWorkerThread st1
       | ExitShutdown | ExitUB => False
       end.
Proof.
  unfold workerSlice.
  destruct (deref (state wk) (threads st)) as [ts |]; [| intros H; injection H as <- _ _; congruence].
  cbv zeta.
  set (st0 := set_threads _ st).
  assert (H0 : same_pool st st0) by apply same_pool_assign.
  destruct (same_pool_tasks cfg) as (_ & _ & _ & Hrun).
  specialize (Hrun env (stillPending wk) (state wk) st0).
  destruct (if stillPending wk then run_one_for cfg env (state wk) st0
            else run_for cfg env (state wk) st0) as [r st2].
  cbn [snd] in Hrun.
  assert (H2 : same_pool st st2) by (eapply same_pool_trans; eassumption).
  destruct r.
  - set (st3 := if ioStopped st2 then restart st2 else st2).
    assert (H3 : same_pool st st3)
      by (eapply same_pool_trans; [exact H2 | apply same_pool_restart]).
    destruct (deref (state wk) (threads st3)) as [ts3 |];
      [| intros H; injection H as <- _ _; congruence].
    unfold markStopped. cbv zeta.
    set (st4 := set_threads _ st3).
    assert (H4 : same_pool st st4)
      by (eapply same_pool_trans; [exact H3 | apply same_pool_assign]).
    unfold afterRun.
    destruct (stillPending wk) eqn:Hp.
    + intros H. injection H as <- <- <-. intros _. exists st4; (split; [exact H4 | repeat split; solve [reflexivity | assumption]]).
    + destruct (load _threadsRunning st4 >? reservedThreads cfg).
      * destruct (deref (state wk) (threads st4)) as [ts4 |];
          [| intros H; injection H as <- _ _; congruence].
        destruct (pctExecuting _ _) as [pct |];
          [| intros H; injection H as <- _ _; congruence].
        destruct (pct <? idlePctThreshold cfg); intros H; injection H as <- <- <-; intros _;
          exists st4; (split; [exact H4 | repeat split; solve [reflexivity | assumption]]).
      * intros H. injection H as <- <- <-. intros _. exists st4; (split; [exact H4 | repeat split; solve [reflexivity | assumption]]).
  - intros H. injection H as <- <- <-. intros _. exists st2; (split; [exact H2 | repeat split; solve [reflexivity | assumption]]).
  - intros H. injection H as <- _ _. congruence.
Qed.

(** The whole loop: what the pool's bookkeeping is when the worker leaves the
    loop, before a replacement is started and before the exit guard runs. *)
Lemma workerLoop_pool (cfg : Options) (envs : list SliceEnv) :
  forall (wk wk' : Worker) (st st' : Executor) (step : WorkerStep),
    workerLoop cfg envs wk st = (step, wk', st') ->
    step <> ExitUB ->
    exists st1,
      load _threadsRunning st1 = load _threadsRunning st
      /\ map fst (threads st1) = map fst (threads st)
      /\ launchOracle st1 = launchOracle st
      /\ load _threadsPending st1
         = (if stillPending wk && negb (stillPending wk')
            then wrap 32 (load _threadsPending st - 1) else load _threadsPending st)
      /\ state wk' = state wk
      /\ (stillPending wk = false -> stillPending wk' = false)
      /\ st' = match step with ExitException => _startWorkerThread st1 | _ => st1 end.
Proof.
  induction envs as [| env envs IH]; intros wk wk' st st' step; cbn [workerLoop].
  - intros H _. injection H as <- <- <-. exists st.
    rewrite andb_negb_r. repeat split; auto.
  - destruct (isRunning st); cbn [negb].
    2:{ intros H _. injection H as <- <- <-. exists st.
        rewrite andb_negb_r. repeat split; auto. }
    destruct (workerSlice cfg env wk st) as [[s1 wk1] st1] eqn:Hs.
    assert (Hend : s1 <> KeepRunning -> (s1, wk1, st1) = (step, wk', st') ->
                   step <> ExitUB ->
                   exists st2,
                     load _threadsRunning st2 = load _threadsRunning st
                     /\ map fst (threads st2) = map fst (threads st)
                     /\ launchOracle st2 = launchOracle st
                     /\ load _threadsPending st2
                        = (if stillPending wk && negb (stillPending wk')
                           then wrap 32 (load _threadsPending st - 1)
                           else load _threadsPending st)
                     /\ state wk' = state wk
                     /\ (stillPending wk = false -> stillPending wk' = false)
                     /\ st' = match step with
                              | ExitException => _startWorkerThread st2
                              | _ => st2
                              end).
    { intros Hne H Hub. injection H as -> -> ->.
      destruct (workerSlice_pool _ _ _ _ _ _ _ Hs Hub)
        as (st2 & (_ & Hr & Hp & _ & _ & Hm & _ & Ho & _) & Hst & Hcase).
      exists st2.
      destruct step; try contradiction; try (exfalso; apply Hne; reflexivity).
      - destruct Hcase as (-> & Hsp & ->). rewrite Hsp. cbn [andb].
        repeat split; auto.
      - destruct Hcase as (-> & ->). rewrite andb_negb_r. repeat split; auto. }
    destruct s1; try (apply Hend; discriminate).
    intros Hl Hub.
    destruct (workerSlice_pool _ _ _ _ _ _ _ Hs ltac:(discriminate))
      as (st2 & (_ & Hr & Hp & _ & _ & Hm & _ & Ho & _) & Hst & Hsp1 & Heq).
    destruct (IH _ _ _ _ _ Hl Hub) as (st3 & Hr3 & Hm3 & Ho3 & Hp3 & Hst3 & Hsp3 & Hst').
    specialize (Hsp3 Hsp1). rewrite Hsp1 in Hp3. cbn [andb] in Hp3.
    exists st3. rewrite Hsp3.
    assert (Hframe : load _threadsRunning st1 = load _threadsRunning st
                     /\ map fst (threads st1) = map fst (threads st)
                     /\ launchOracle st1 = launchOracle st
                     /\ load _threadsPending st1
                        = (if stillPending wk then wrap 32 (load _threadsPending st - 1)
                           else load _threadsPending st)).
    { subst st1. destruct (stillPending wk).
      - rewrite load_subtractAndFetch_neq by discriminate.
        rewrite load_subtractAndFetch_eq, Hp. repeat split; assumption.
      - repeat split; assumption. }
    destruct Hframe as (Hr1 & Hm1 & Ho1 & Hp1).
    cbn [negb]. rewrite andb_true_r.
    repeat split; try congruence.
Qed.

(** Sums of wrapped 32-bit words: wrap once, at the end. *)
Ltac unwrap :=
  repeat match goal with
         | |- context [wrap ?w (wrap ?w ?a - ?b - ?c)] =>
             replace (wrap w a - b - c) with (wrap w a - (b + c)) by lia
         | |- context [wrap ?w (wrap ?w ?a + ?b - ?c)] =>
             replace (wrap w a + b - c) with (wrap w a + (b - c)) by lia
         | _ => rewrite wrap_wrap_sub by lia
         | _ => rewrite wrap_wrap_add by lia
         end;
  f_equal; lia.

(** X11.  The books of a worker's whole life.  When [_workerThreadRoutine]
    returns, whichever way its loop ended, [_threadsRunning] and
    [_threadsPending] are each one lower than when the thread started and
    [_threads] is one node shorter, plus one each if the loop ended in an
    exception and the replacement thread could be launched: the pending
    count the thread was started with is paid exactly once, in the first
    pass or in the exit guard. *)
Theorem worker_life_accounting (cfg : Options) (draw : Z) (envs : list SliceEnv)
    (it : ThreadIter) (st st' : Executor) (step : WorkerStep) :
  _workerThreadRoutine cfg draw envs it st = Some (step, st') ->
  let b := replaced step (launchOracle st) in
  load _threadsRunning st' = wrap 32 (load _threadsRunning st - 1 + b)
  /\ load _threadsPending st' = wrap 32 (load _threadsPending st - 1 + b)
  /\ Z.of_nat (length (threads st')) = Z.of_nat (length (threads st)) - 1 + b.
Proof.
  unfold _workerThreadRoutine. cbv zeta.
  set (wk := {| state := it; stillPending := true; jitter := _getThreadJitter cfg draw |}).
  destruct (workerLoop cfg envs wk st) as [[s wk'] stL] eqn:Hl.
  assert (Hgo : s <> KeepRunning -> s <> ExitUB ->
                match workerExit wk' stL with
                | Some st0 => Some (s, st0)
                | None => None
                end = Some (step, st') ->
                load _threadsRunning st' = wrap 32 (load _threadsRunning st - 1 + replaced step (launchOracle st))
                /\ load _threadsPending st' = wrap 32 (load _threadsPending st - 1 + replaced step (launchOracle st))
                /\ Z.of_nat (length (threads st'))
                   = Z.of_nat (length (threads st)) - 1 + replaced step (launchOracle st)).
  { intros Hk Hub.
    destruct (workerExit wk' stL) as [stE |] eqn:He; [| discriminate].
    intros H. injection H as -> ->.
    destruct (workerLoop_pool _ _ _ _ _ _ _ Hl Hub)
      as (st1 & Hr & Hm & Ho & Hp & _ & _ & HstL).
    destruct (workerExit_spec _ _ _ He) as (ts & Hd & Hth & HrE & HpE & _).
    pose proof (erase_length _ _ _ Hd) as Hlen. rewrite <- Hth in Hlen.
    assert (Hlen1 : length (threads st1) = length (threads st))
      by (rewrite <- (length_map fst (threads st1)), Hm, length_map; reflexivity).
    change (stillPending wk) with true in Hp. cbn [andb] in Hp.
    destruct (startWorkerThread_pool st1) as (Ksl & Ksr & Ksp). rewrite Ho in Ksl, Ksr, Ksp.
    assert (Hw : (0 < 32)) by lia.
    destruct step; try (exfalso; apply Hk; reflexivity); try (exfalso; apply Hub; reflexivity);
      subst stL; cbn [replaced].
    - (* ExitIdle *)
      rewrite HrE, HpE, Hr, Hp. split; [| split; [| lia]];
        destruct (stillPending wk'); cbn [negb]; unwrap.
    - (* ExitException *)
      rewrite HrE, HpE, Ksr, Ksp, Hr, Hp. rewrite Ksl in Hlen. revert Hlen.
      destruct (hd true (launchOracle st)); intros Hlen; (split; [| split; [| lia]]);
        destruct (stillPending wk'); cbn [negb]; unwrap.
    - (* ExitShutdown *)
      rewrite HrE, HpE, Hr, Hp. split; [| split; [| lia]];
        destruct (stillPending wk'); cbn [negb]; unwrap. }
  destruct s; try discriminate; intros H; apply Hgo; try discriminate; exact H.
Qed.

Lemma worker_life_accounting_witness :
  exists st',
    _workerThreadRoutine sample_options 0 [{| ready := 1; idle := 0 |}] 0%nat
      (snd (schedule sample_options throwing_task kEmptyFlags None sample_started))
    = Some (ExitException, st')
    /\ load _threadsRunning st' = 2
    /\ load _threadsPending st' = 2
    /\ Z.of_nat (length (threads st')) = 2.
Proof.
  eexists. split; [vm_compute; reflexivity |].
  match goal with
  | |- load _ ?s = _ /\ _ =>
      destruct (worker_life_accounting sample_options 0 [{| ready := 1; idle := 0 |}] 0%nat
                  (snd (schedule sample_options throwing_task kEmptyFlags None
                          sample_started))
                  s ExitException)
        as (Hr & Hp & Hl)
  end.
  - vm_compute. reflexivity.
  - rewrite Hr, Hp, Hl. vm_compute. repeat split; reflexivity.
Defined.

(** ** Executing time within running time *)

(** The handlers of one run, all entered at depth 0 on the thread [self]:
    the thread's running stopwatch is not touched, its depth is 0 again, and
    what the handlers add to [executingCurRun] is what they add to the
    executing accumulator and no more than the time that has passed. *)
Lemma run_handlers_executing (cfg : Options) (n : nat) (self : ThreadIter) :
  recursionLimit cfg <= INT_MAX ->
  forall (st : Executor) (ts : ThreadState),
    deref self (threads st) = Some ts ->
    recursionDepth ts = 0 ->
    is_int (load _threadsInUse st) ->
    fst (run_handlers cfg n self st) <> UB
    /\ exists ts',
         deref self (threads (snd (run_handlers cfg n self st))) = Some ts'
         /\ running ts' = running ts
         /\ recursionDepth ts' = 0
         /\ load _threadsInUse (snd (run_handlers cfg n self st)) = load _threadsInUse st
         /\ now st <= now (snd (run_handlers cfg n self st))
         /\ executingCurRun ts <= executingCurRun ts'
         /\ executingCurRun ts' - executingCurRun ts
            <= now (snd (run_handlers cfg n self st)) - now st
         /\ ct_accumulator (executing ts') - ct_accumulator (executing ts)
            = executingCurRun ts' - executingCurRun ts.
Proof.
  intros Hlim. induction n as [| n IH]; intros st ts Hd Hz Hi; cbn [run_handlers].
  - split; [discriminate |]. exists ts. cbn [snd]. repeat split; solve [assumption | lia].
  - destruct (ioQueue st) as [| w rest].
    + split; [discriminate |]. exists ts. cbn [snd]. repeat split; solve [assumption | lia].
    + pose proof (wrappedTask_outermost cfg w self (set_ioQueue rest st) ts Hlim Hd Hz Hi)
        as H.
      cbv zeta in H.
      destruct (wrappedTask cfg w self (set_ioQueue rest st)) as [r st1].
      cbn [fst snd] in H. destruct H as (Hub & Hd1 & Hu1 & Hn1 & _).
      change (now (set_ioQueue rest st)) with (now st) in *.
      change (load _threadsInUse (set_ioQueue rest st)) with (load _threadsInUse st) in *.
      destruct r as [u | |]; [| | contradiction].
      * assert (Hi1 : is_int (load _threadsInUse st1)) by (rewrite Hu1; exact Hi).
        destruct (IH st1 _ Hd1 Hz Hi1)
          as (Hub2 & ts2 & Hd2 & Hr2 & Hz2 & Hu2 & Hn2 & Hlo & Hhi & Hacc).
        split; [exact Hub2 |]. exists ts2. simpl in Hr2, Hlo, Hhi, Hacc.
        repeat split; solve [assumption | congruence | lia].
      * split; [discriminate |]. eexists. cbn [snd]. split; [exact Hd1 |]. simpl.
        repeat split; solve [assumption | lia].
Qed.

(** X12.  A pass through the worker's loop that gets to its end never counts
    more time as executing than as running.  For a thread that enters the
    pass outside any task: [executingCurRun] is between 0 and the running
    time the pass measured, the running accumulator has grown by that
    running time and the executing accumulator by [executingCurRun], and the
    thread leaves the pass outside any task again, with [_threadsInUse] as
    it was. *)
Theorem slice_executing_within_running (cfg : Options) (env : SliceEnv) (wk wk' : Worker)
    (st st' : Executor) (step : WorkerStep) (ts : ThreadState) :
  recursionLimit cfg <= INT_MAX ->
  deref (state wk) (threads st) = Some ts ->
  recursionDepth ts = 0 ->
  is_int (load _threadsInUse st) ->
  workerSlice cfg env wk st = (step, wk', st') ->
  step = KeepRunning \/ step = ExitIdle ->
  exists ts',
    deref (state wk) (threads st') = Some ts'
    /\ 0 <= executingCurRun ts' <= now st' - now st
    /\ ct_accumulator (running ts') = ct_accumulator (running ts) + (now st' - now st)
    /\ ct_accumulator (executing ts') = ct_accumulator (executing ts) + executingCurRun ts'
    /\ ct_running (running ts') = false
    /\ recursionDepth ts' = 0
    /\ load _threadsInUse st' = load _threadsInUse st.
Proof.
  intros Hlim Hd Hz Hi. unfold workerSlice. rewrite Hd. cbv zeta.
  set (ts0 := set_running (markRunning (now st) (running (set_executingCurRun 0 ts)))
                (set_executingCurRun 0 ts)).
  set (st0 := set_threads (assign (state wk) ts0 (threads st)) st).
  assert (Hd0 : deref (state wk) (threads st0) = Some ts0)
    by (apply (deref_assign_same _ _ ts); exact Hd).
  assert (Hrun : forall n,
             let res := after_handlers env (run_handlers cfg n (state wk) st0) in
             fst res = Ret tt ->
             exists ts1,
               deref (state wk) (threads (snd res)) = Some ts1
               /\ running ts1 = running ts0
               /\ recursionDepth ts1 = 0
               /\ load _threadsInUse (snd res) = load _threadsInUse st
               /\ 0 <= executingCurRun ts1 <= now (snd res) - now st
               /\ ct_accumulator (executing ts1)
                  = ct_accumulator (executing ts) + executingCurRun ts1).
  { intros n.
    destruct (run_handlers_executing cfg n (state wk) Hlim st0 ts0 Hd0 Hz Hi)
      as (_ & ts1 & Hd1 & Hr1 & Hz1 & Hu1 & Hn1 & Hlo & Hhi & Hacc).
    destruct (run_handlers cfg n (state wk) st0) as [r st1].
    cbn [snd] in *. destruct r as [u | |]; cbn [after_handlers fst snd]; try discriminate.
    intros _. exists ts1. simpl in Hlo, Hhi, Hacc, Hn1 |- *.
    change (load _threadsInUse st0) with (load _threadsInUse st) in Hu1.
    repeat split; solve [assumption | lia]. }
  assert (Hres : forall r st2,
             (if stillPending wk then run_one_for cfg env (state wk) st0
              else run_for cfg env (state wk) st0) = (r, st2) ->
             r = Ret tt ->
             exists ts1,
               deref (state wk) (threads st2) = Some ts1
               /\ running ts1 = running ts0
               /\ recursionDepth ts1 = 0
               /\ load _threadsInUse st2 = load _threadsInUse st
               /\ 0 <= executingCurRun ts1 <= now st2 - now st
               /\ ct_accumulator (executing ts1)
                  = ct_accumulator (executing ts) + executingCurRun ts1).
  { intros r st2 H Hr. unfold run_one_for, run_for in H.
    destruct (stillPending wk);
      [pose proof (Hrun (Nat.min 1 (ready env))) as K | pose proof (Hrun (ready env)) as K];
      cbv zeta in K; rewrite H in K; exact (K Hr). }
  destruct (if stillPending wk then run_one_for cfg env (state wk) st0
            else run_for cfg env (state wk) st0) as [r st2].
  specialize (Hres r st2 eq_refl).
  destruct r as [[] | |];
    [| intros H [K | K]; injection H as <- _ _; discriminate K
     | intros H [K | K]; injection H as <- _ _; discriminate K].
  destruct (Hres eq_refl) as (ts1 & Hd1 & Hr1 & Hz1 & Hu1 & Hb1 & Hacc1).
  set (st3 := if ioStopped st2 then restart st2 else st2).
  assert (H3 : threads st3 = threads st2 /\ now st3 = now st2
               /\ load _threadsInUse st3 = load _threadsInUse st2)
    by (subst st3; destruct (ioStopped st2); repeat split; reflexivity).
  destruct H3 as (Ht3 & Hn3 & Hu3).
  rewrite Ht3, Hd1. unfold markStopped. cbv zeta.
  set (ts4 := set_running _ ts1).
  set (st4 := set_threads (assign (state wk) ts4 (threads st2)) st3).
  assert (Hd4 : deref (state wk) (threads st4) = Some ts4)
    by (apply (deref_assign_same _ _ ts1); exact Hd1).
  assert (Hgoal : forall st5,
             threads st5 = threads st4 -> now st5 = now st4 ->
             load _threadsInUse st5 = load _threadsInUse st4 ->
             exists ts',
               deref (state wk) (threads st5) = Some ts'
               /\ 0 <= executingCurRun ts' <= now st5 - now st
               /\ ct_accumulator (running ts')
                  = ct_accumulator (running ts) + (now st5 - now st)
               /\ ct_accumulator (executing ts')
                  = ct_accumulator (executing ts) + executingCurRun ts'
               /\ ct_running (running ts') = false
               /\ recursionDepth ts' = 0
               /\ load _threadsInUse st5 = load _threadsInUse st).
  { intros st5 Ht5 Hn5 Hu5. exists ts4. rewrite Ht5, Hn5, Hu5.
    change (now st4) with (now st3). change (load _threadsInUse st4) with (load _threadsInUse st3).
    rewrite Hn3, Hu3. subst ts4. simpl. rewrite Hr1. simpl.
    unfold sinceStartTicks. simpl. rewrite ?Hn3.
    split; [apply (deref_assign_same _ _ ts1); exact Hd1 |].
    repeat split; solve [assumption | reflexivity | lia]. }
  unfold afterRun.
  destruct (stillPending wk).
  - intros H _. injection H as _ _ <-. apply Hgoal; reflexivity.
  - destruct (load _threadsRunning st4 >? reservedThreads cfg).
    + rewrite Hd4.
      destruct (pctExecuting _ _) as [pct |];
        [| intros H [K | K]; injection H as <- _ _; discriminate K].
      destruct (pct <? idlePctThreshold cfg); intros H _; injection H as _ _ <-;
        apply Hgoal; reflexivity.
    + intros H _. injection H as _ _ <-. apply Hgoal; reflexivity.
Qed.

Lemma slice_executing_within_running_witness :
  exists ts',
    deref 0%nat (threads (snd (workerSlice idle_58 slice_58_of_100 (seasoned 0%nat) sample_three)))
    = Some ts'
    /\ 0 <= executingCurRun ts' <= 100.
Proof.
  assert (Hs : workerSlice idle_58 slice_58_of_100 (seasoned 0%nat) sample_three
               = (ExitIdle, seasoned 0%nat,
                  snd (workerSlice idle_58 slice_58_of_100 (seasoned 0%nat) sample_three)))
    by (vm_compute; reflexivity).
  assert (Hd : exists ts, deref 0%nat (threads sample_three) = Some ts
                          /\ recursionDepth ts = 0)
    by (eexists; split; [vm_compute; reflexivity | reflexivity]).
  destruct Hd as (ts & Hd & Hz).
  destruct (slice_executing_within_running idle_58 slice_58_of_100
              (seasoned 0%nat) (seasoned 0%nat) sample_three
              (snd (workerSlice idle_58 slice_58_of_100 (seasoned 0%nat) sample_three))
              ExitIdle ts) as (ts' & Hd' & Hb & _); try assumption.
  - vm_compute. discriminate.
  - vm_compute. split; [discriminate | reflexivity].
  - right. reflexivity.
  - exists ts'. split; [exact Hd' |].
    replace 100 with (now (snd (workerSlice idle_58 slice_58_of_100 (seasoned 0%nat) sample_three))
                      - now sample_three) by (vm_compute; reflexivity).
    exact Hb.
Defined.

(** ** The pending counters and the reactor's queue *)

Lemma queued_cons (p : PendingCounter) (w : WrappedTask) (q : list WrappedTask) :
  queued p (w :: q) = if counts_against p w then S (queued p q) else queued p q.
Proof. unfold queued. simpl. destruct (counts_against p w); reflexivity. Qed.

Lemma queued_app (p : PendingCounter) (q1 q2 : list WrappedTask) :
  queued p (q1 ++ q2) = (queued p q1 + queued p q2)%nat.
Proof. unfold queued. rewrite filter_app, length_app. reflexivity. Qed.

Lemma counts_against_own (p : PendingCounter) (w : WrappedTask) :
  counts_against p w = true <-> p = w_pendingCounterPtr w.
Proof.
  unfold counts_against. destruct p, (w_pendingCounterPtr w); split; congruence.
Qed.

Lemma counter_of_inj (p p' : PendingCounter) : counter_of p = counter_of p' -> p = p'.
Proof. destruct p, p'; simpl; congruence. Qed.

Lemma width_counter_of (p : PendingCounter) : width (counter_of p) = 32.
Proof. destruct p; reflexivity. Qed.

(** What leaves the queue and both pending counters alone keeps the
    balance. *)
Lemma balanced_kept (taken : list WrappedTask) (st st' : Executor) :
  ioQueue st' = ioQueue st ->
  (forall p, load (counter_of p) st' = load (counter_of p) st) ->
  balanced taken st -> balanced taken st'.
Proof. unfold balanced. intros Hq Hl H p. rewrite Hq, Hl. apply H. Qed.

(** [pendingCounterPtr->subtractAndFetch(1)] accounts for a handler that has
    left the queue, [pendingCounterPtr->addAndFetch(1)] for one that is about
    to enter it. *)
Lemma balanced_take (w : WrappedTask) (taken : list WrappedTask) (st : Executor) :
  balanced (w :: taken) st ->
  balanced taken (subtractAndFetch (counter_of (w_pendingCounterPtr w)) 1 st).
Proof.
  unfold balanced. intros H p.
  change (ioQueue (subtractAndFetch _ 1 st)) with (ioQueue st).
  specialize (H p). change ((w :: taken) ++ ioQueue st) with (w :: taken ++ ioQueue st) in H.
  rewrite queued_cons in H.
  destruct (counts_against p w) eqn:Hc.
  - apply counts_against_own in Hc. subst p.
    rewrite load_subtractAndFetch_eq, width_counter_of, H, wrap_wrap_sub by lia.
    f_equal. lia.
  - rewrite load_subtractAndFetch_neq; [exact H |].
    intros E. apply counter_of_inj in E. symmetry in E.
    apply counts_against_own in E. congruence.
Qed.

Lemma balanced_add (w : WrappedTask) (taken : list WrappedTask) (st : Executor) :
  balanced taken st ->
  balanced (w :: taken) (addAndFetch (counter_of (w_pendingCounterPtr w)) 1 st).
Proof.
  unfold balanced. intros H p.
  change (ioQueue (addAndFetch _ 1 st)) with (ioQueue st).
  specialize (H p). change ((w :: taken) ++ ioQueue st) with (w :: taken ++ ioQueue st).
  rewrite queued_cons.
  destruct (counts_against p w) eqn:Hc.
  - apply counts_against_own in Hc. subst p.
    rewrite load_addAndFetch_eq, width_counter_of, H, wrap_wrap_add by lia.
    f_equal. lia.
  - rewrite load_addAndFetch_neq; [exact H |].
    intros E. apply counter_of_inj in E. symmetry in E.
    apply counts_against_own in E. congruence.
Qed.

Lemma balanced_post (w : WrappedTask) (st : Executor) :
  balanced [w] st -> balanced [] (post w st).
Proof.
  unfold balanced. intros H p. specialize (H p).
  change (load (counter_of p) (post w st)) with (load (counter_of p) st).
  change (ioQueue (post w st)) with (ioQueue st ++ [w]).
  rewrite H, !queued_app. f_equal. simpl. lia.
Qed.

Lemma balanced_pop (w : WrappedTask) (rest : list WrappedTask) (st : Executor) :
  ioQueue st = w :: rest -> balanced [] st -> balanced [w] (set_ioQueue rest st).
Proof.
  unfold balanced. intros Hq H p. specialize (H p). rewrite Hq in H. exact H.
Qed.

Lemma balanced_enter (w : WrappedTask) (self : ThreadIter) (st st1 : Executor) :
  wrappedTask_enter w self st = Some st1 ->
  isRunning st = true -> balanced [w] st ->
  isRunning st1 = true /\ balanced [] st1.
Proof.
  unfold wrappedTask_enter. cbv zeta. intros He Hrun Hb.
  apply balanced_take in Hb.
  set (sa := subtractAndFetch (counter_of (w_pendingCounterPtr w)) 1 st) in *.
  destruct (deref self (threads _)) as [ts |]; [| discriminate].
  destruct (recursionDepth ts =? 0); injection He as <-; (split; [exact Hrun |]);
    (apply (balanced_kept [] sa); [reflexivity | intros p; destruct p; reflexivity | exact Hb]).
Qed.

Lemma balanced_guard (self : ThreadIter) (st st1 : Executor) :
  wrappedTask_guard self st = Some st1 ->
  isRunning st = true -> balanced [] st ->
  isRunning st1 = true /\ balanced [] st1.
Proof.
  unfold wrappedTask_guard. cbv zeta. intros Hg Hrun Hb.
  destruct (deref self (threads st)) as [ts |]; [| discriminate].
  destruct (int_sub (recursionDepth ts) 1 =? 0); injection Hg as <-; (split; [exact Hrun |]);
    (apply (balanced_kept [] st); [reflexivity | intros p; destruct p; reflexivity | exact Hb]).
Qed.

Section Balance.

Variable cfg : Options.

Lemma balanced_wrappedTask_gen
    (task : ThreadIter -> Executor -> Result unit * Executor)
    (w : WrappedTask) (self : ThreadIter) (st : Executor) :
  (forall st1, isRunning st1 = true -> balanced [] st1 ->
               fst (task self st1) <> UB ->
               isRunning (snd (task self st1)) = true /\ balanced [] (snd (task self st1))) ->
  isRunning st = true -> balanced [w] st ->
  fst (wrappedTask_gen task w self st) <> UB ->
  isRunning (snd (wrappedTask_gen task w self st)) = true
  /\ balanced [] (snd (wrappedTask_gen task w self st)).
Proof.
  intros Htask Hrun Hb. unfold wrappedTask_gen.
  destruct (wrappedTask_enter w self st) as [st1 |] eqn:He; [| intros H; exfalso; apply H; reflexivity].
  destruct (balanced_enter _ _ _ _ He Hrun Hb) as [Hrun1 Hb1].
  pose proof (Htask (log (EvTask (depth_of self st1)) st1) Hrun1
                (balanced_kept [] st1 _ eq_refl (fun p => eq_refl) Hb1)) as Ht.
  destruct (task self (log (EvTask (depth_of self st1)) st1)) as [r st2].
  cbn [fst snd] in Ht.
  destruct r as [u | |]; [| | intros H; exfalso; apply H; reflexivity];
    (destruct Ht as [Hrun2 Hb2]; [discriminate |];
     destruct (wrappedTask_guard self st2) as [st3 |] eqn:Hg;
       [| intros H; exfalso; apply H; reflexivity];
     intros _; exact (balanced_guard _ _ _ Hg Hrun2 Hb2)).
Qed.

Lemma balanced_schedule_gen
    (inline : WrappedTask -> ThreadIter -> Executor -> Result unit * Executor)
    (task : Task) (flags : ScheduleFlags) (caller : option ThreadIter) (st : Executor) :
  (forall w self st1, isRunning st1 = true -> balanced [w] st1 ->
                      fst (inline w self st1) <> UB ->
                      isRunning (snd (inline w self st1)) = true
                      /\ balanced [] (snd (inline w self st1))) ->
  isRunning st = true -> balanced [] st ->
  fst (schedule_gen cfg inline task flags caller st) <> UB ->
  isRunning (snd (schedule_gen cfg inline task flags caller st)) = true
  /\ balanced [] (snd (schedule_gen cfg inline task flags caller st)).
Proof.
  intros Hin Hrun Hb. unfold schedule_gen. cbv zeta.
  set (pc := if kDeferredTask flags then DeferredTasksQueued else TasksQueued).
  set (w := Build_WrappedTask task (now st) pc).
  pose proof (balanced_add w [] st Hb) as Hb0. change (w_pendingCounterPtr w) with pc in Hb0.
  set (st0 := addAndFetch (counter_of pc) 1 st) in *.
  change (isRunning st0) with (isRunning st). rewrite Hrun. cbn [negb].
  assert (Hpost : isRunning (post w st0) = true /\ balanced [] (post w st0))
    by (split; [exact Hrun | apply balanced_post; exact Hb0]).
  assert (Hfin : forall st1,
            isRunning st1 = true /\ balanced [] st1 ->
            let st2 := addAndFetch _totalQueued 1
                         (set_lastScheduleTimer (tt_reset (now st1)) st1) in
            isRunning (if _isStarved st2 && negb (kDeferredTask flags)
                       then log EvScheduleNotify st2 else st2) = true
            /\ balanced [] (if _isStarved st2 && negb (kDeferredTask flags)
                            then log EvScheduleNotify st2 else st2)).
  { intros st1 [Hr1 Hb1] st2.
    destruct (_isStarved st2 && negb (kDeferredTask flags)); (split; [exact Hr1 |]);
      (apply (balanced_kept [] st1);
       [reflexivity | intros p; destruct p; reflexivity | exact Hb1]). }
  destruct (kMayRecurse flags); [| intros _; exact (Hfin _ Hpost)].
  destruct caller as [self |]; [| intros H; exfalso; apply H; reflexivity].
  destruct (deref self (threads st0)) as [ts |]; [| intros H; exfalso; apply H; reflexivity].
  destruct (int_add (recursionDepth ts) 1 <? recursionLimit cfg);
    [| intros _; exact (Hfin _ Hpost)].
  unfold dispatch.
  pose proof (Hin w self (log (EvDispatch w) st0) Hrun
                (balanced_kept [w] st0 _ eq_refl (fun p => eq_refl) Hb0)) as Hx.
  destruct (inline w self (log (EvDispatch w) st0)) as [r st1]. cbn [fst snd] in Hx.
  destruct r as [u | |];
    [intros _; exact (Hfin _ (Hx ltac:(discriminate)))
    | intros _; exact (Hx ltac:(discriminate))
    | intros H; exfalso; apply H; reflexivity].
Qed.

Lemma balanced_runTask (t : Task) :
  forall (self : ThreadIter) (st : Executor),
    isRunning st = true -> balanced [] st ->
    fst (runTask cfg t self st) <> UB ->
    isRunning (snd (runTask cfg t self st)) = true
    /\ balanced [] (snd (runTask cfg t self st)).
Proof.
  induction t as [| | d k IHk | flags sub IHsub k IHk]; intros self st Hrun Hb;
    cbn [runTask].
  - intros _. split; assumption.
  - intros _. split; assumption.
  - apply IHk; [exact Hrun |].
    apply (balanced_kept [] st); [reflexivity | intros p; destruct p; reflexivity | exact Hb].
  - pose proof (balanced_schedule_gen (wrappedTask_gen (runTask cfg sub)) sub flags
                  (Some self) st) as Hs.
    destruct (schedule_gen cfg (wrappedTask_gen (runTask cfg sub)) sub flags (Some self) st)
      as [r st1].
    cbn [fst snd] in Hs.
    assert (H1 : r <> UB -> isRunning st1 = true /\ balanced [] st1).
    { apply Hs; [| exact Hrun | exact Hb].
      intros w self' st' Hr' Hb'. apply balanced_wrappedTask_gen; [| exact Hr' | exact Hb'].
      intros st2 Hr2 Hb2. apply IHsub; assumption. }
    destruct r as [s | |]; [| intros _; apply H1; discriminate | intros H; exfalso; apply H; reflexivity].
    destruct (H1 ltac:(discriminate)) as [Hr1 Hb1]. apply IHk; assumption.
Qed.

Lemma balanced_wrappedTask (w : WrappedTask) (self : ThreadIter) (st : Executor) :
  isRunning st = true -> balanced [w] st ->
  fst (wrappedTask cfg w self st) <> UB ->
  isRunning (snd (wrappedTask cfg w self st)) = true
  /\ balanced [] (snd (wrappedTask cfg w self st)).
Proof.
  unfold wrappedTask. apply balanced_wrappedTask_gen.
  intros st1. apply balanced_runTask.
Qed.

Lemma balanced_schedule (task : Task) (flags : ScheduleFlags) (caller : option ThreadIter)
    (st : Executor) :
  isRunning st = true -> balanced [] st ->
  fst (schedule cfg task flags caller st) <> UB ->
  isRunning (snd (schedule cfg task flags caller st)) = true
  /\ balanced [] (snd (schedule cfg task flags caller st)).
Proof.
  unfold schedule. apply balanced_schedule_gen.
  intros w self st1. apply balanced_wrappedTask.
Qed.

Lemma balanced_run_handlers (n : nat) (self : ThreadIter) :
  forall st : Executor,
    isRunning st = true -> balanced [] st ->
    fst (run_handlers cfg n self st) <> UB ->
    isRunning (snd (run_handlers cfg n self st)) = true
    /\ balanced [] (snd (run_handlers cfg n self st)).
Proof.
  induction n as [| n IH]; intros st Hrun Hb; cbn [run_handlers].
  - intros _. split; assumption.
  - destruct (ioQueue st) as [| w rest] eqn:Hq; [intros _; split; assumption |].
    pose proof (balanced_wrappedTask w self (set_ioQueue rest st) Hrun
                  (balanced_pop w rest st Hq Hb)) as Hw.
    destruct (wrappedTask cfg w self (set_ioQueue rest st)) as [r st1].
    cbn [fst snd] in Hw.
    destruct r as [u | |];
      [| intros _; apply Hw; discriminate | intros H; exfalso; apply H; reflexivity].
    destruct (Hw ltac:(discriminate)) as [Hr1 Hb1]. apply IH; assumption.
Qed.

End Balance.

(** One count too many is never balanced: a 32-bit word and its successor
    differ. *)
Lemma wrap_succ_neq (w x : Z) : 1 < w -> wrap w (x + 1) <> wrap w x.
Proof.
  unfold wrap. intros Hw E.
  assert (Hm : 2 < 2 ^ w).
  { replace 2 with (2 ^ 1) at 1 by reflexivity. apply Z.pow_lt_mono_r; lia. }
  assert (E' : (x + 1 + 2 ^ (w - 1)) mod 2 ^ w = (x + 2 ^ (w - 1)) mod 2 ^ w) by lia.
  assert (H1 : ((x + 1 + 2 ^ (w - 1)) - (x + 2 ^ (w - 1))) mod 2 ^ w = 0).
  { rewrite Zminus_mod, E', Z.sub_diag. apply Z.mod_0_l. lia. }
  replace (x + 1 + 2 ^ (w - 1) - (x + 2 ^ (w - 1))) with 1 in H1 by lia.
  rewrite Z.mod_1_l in H1 by lia. discriminate H1.
Qed.

(** Starting workers touches neither the queue nor the pending counters. *)
Lemma balanced_startWorkerThread (taken : list WrappedTask) (st : Executor) :
  balanced taken st -> balanced taken (_startWorkerThread st).
Proof.
  apply balanced_kept.
  - apply startWorkerThread_frame.
  - intros p. unfold _startWorkerThread, emplace_front, launchServiceWorkerThread. simpl.
    destruct (launchOracle st) as [| [|] rest]; destruct p; reflexivity.
Qed.

Lemma balanced_startWorkerThreads (taken : list WrappedTask) (n : nat) :
  forall st : Executor, balanced taken st -> balanced taken (startWorkerThreads n st).
Proof.
  induction n as [| n IH]; intros st Hb; cbn [startWorkerThreads]; [exact Hb |].
  apply IH. apply balanced_startWorkerThread. exact Hb.
Qed.

(** A [schedule] call the stopped executor rejects has counted its task and
    queued nothing. *)
Lemma schedule_stopped_unbalanced (cfg : Options) (task : Task) (flags : ScheduleFlags)
    (caller : option ThreadIter) (st : Executor) :
  isRunning st = false ->
  balanced [] st ->
  ~ balanced [] (snd (schedule cfg task flags caller st)).
Proof.
  intros Hrun Hb Hb'. rewrite (schedule_stopped cfg task flags caller st Hrun) in Hb'.
  cbn [snd] in Hb'.
  set (pc := w_pendingCounterPtr (wrapped_for task flags st)) in *.
  specialize (Hb pc). specialize (Hb' pc).
  change (ioQueue (addAndFetch (counter_of pc) 1 st)) with (ioQueue st) in Hb'.
  rewrite load_addAndFetch_eq, width_counter_of, Hb, wrap_wrap_add in Hb' by lia.
  exact (wrap_succ_neq 32 _ ltac:(lia) Hb').
Qed.

(** X13.  Each pending counter holds, modulo 2^32, the number of handlers of
    its kind in the reactor's queue for as long as no [schedule] call has
    been rejected.  It is so in the executor as constructed; [start] keeps
    it; on a running executor [schedule] and the handlers the reactor runs
    keep it, through every nested dispatch and whether or not a task throws
    (a handler is counted when [schedule] builds it and discounted when it
    starts to run).  A [schedule] call on a stopped executor, before [start]
    or after [shutdown], breaks it: the task is counted and never queued. *)
Theorem pending_counters_track_queue (cfg : Options) :
  (forall tps t, balanced [] (executor_new tps t))
  /\ (forall st, balanced [] st -> balanced [] (snd (start cfg st)))
  /\ (forall st,
         isRunning st = true ->
         balanced [] st ->
         (forall task flags caller,
             fst (schedule cfg task flags caller st) <> UB ->
             balanced [] (snd (schedule cfg task flags caller st)))
         /\ (forall n self,
                fst (run_handlers cfg n self st) <> UB ->
                balanced [] (snd (run_handlers cfg n self st))))
  /\ (forall st,
         isRunning st = false ->
         balanced [] st ->
         forall task flags caller,
           ~ balanced [] (snd (schedule cfg task flags caller st))).
Proof.
  split; [| split; [| split]].
  - intros tps t p. destruct p; reflexivity.
  - intros st Hb. unfold start. cbn [snd].
    apply balanced_startWorkerThreads.
    apply (balanced_kept [] st); [reflexivity | reflexivity | exact Hb].
  - intros st Hrun Hb. split.
    + intros task flags caller Hub.
      apply (balanced_schedule cfg task flags caller st Hrun Hb Hub).
    + intros n self Hub. apply (balanced_run_handlers cfg n self st Hrun Hb Hub).
  - intros st Hrun Hb task flags caller.
    apply schedule_stopped_unbalanced; assumption.
Qed.

Lemma pending_counters_track_queue_witness :
  balanced []
    (snd (run_handlers sample_options 1 0%nat
            (snd (schedule sample_options throwing_task kEmptyFlags None sample_started))))
  /\ ~ balanced []
        (snd (start sample_options
                (snd (schedule sample_options Return kEmptyFlags None
                        (executor_new 1000000 0))))).
Proof.
  destruct (pending_counters_track_queue sample_options) as (Hnew & Hstart & Hrun & Hstop).
  split.
  - assert (H0 : balanced [] sample_started) by (apply Hstart; apply Hnew).
    destruct (Hrun sample_started eq_refl H0) as [Hs _].
    assert (H1 : balanced []
                   (snd (schedule sample_options throwing_task kEmptyFlags None
                           sample_started)))
      by (apply Hs; vm_compute; discriminate).
    destruct (Hrun (snd (schedule sample_options throwing_task kEmptyFlags None
                           sample_started)) eq_refl H1) as [_ Hr].
    apply Hr. vm_compute. discriminate.
  - intros Hb. specialize (Hb TasksQueued). vm_compute in Hb. discriminate Hb.
Defined.

(** ** The controller's round when its wait did not time out *)

Lemma sleep_for_launches (cfg : Options) (st : Executor) :
  (forall k, load k (sleep_for cfg st) = load k st)
  /\ launchOracle (sleep_for cfg st) = launchOracle st
  /\ count_launches (events (sleep_for cfg st)) = count_launches (events st).
Proof.
  unfold sleep_for. split; [reflexivity |]. split; [reflexivity |].
  simpl. rewrite count_launches_app. unfold count_launches. simpl. lia.
Qed.

(** The latency wait only sleeps: no atomic word, no launch. *)
Lemma latencyWait_loop_frame (cfg : Options) (c : Controller) (fuel : nat) :
  forall st : Executor,
    (forall k, load k (latencyWait_loop cfg fuel c st) = load k st)
    /\ launchOracle (latencyWait_loop cfg fuel c st) = launchOracle st
    /\ count_launches (events (latencyWait_loop cfg fuel c st)) = count_launches (events st).
Proof.
  induction fuel as [| fuel IH]; intros st; cbn [latencyWait_loop].
  - apply sleep_for_launches.
  - destruct (sleep_for_launches cfg st) as (Hl & Ho & He).
    destruct ((load _threadsPending (sleep_for cfg st) >? 0)
              && (sinceStart (ticksPerMillisecond (sleep_for cfg st)) (now (sleep_for cfg st))
                    (sinceLastControlRound c) <? stuckThreadTimeout cfg)).
    + destruct (IH (sleep_for cfg st)) as (Hl' & Ho' & He').
      split; [intros k; rewrite Hl'; apply Hl |]. split; congruence.
    + split; [exact Hl |]. split; assumption.
Qed.

(** The refill loop stops at the reserve. *)
Lemma replenish_loop_bounds (cfg : Options) (fuel : nat) :
  reservedThreads cfg <= INT_MAX ->
  forall st : Executor,
    is_int (load _threadsRunning st) ->
    load _threadsRunning st <= load _threadsRunning (replenish_loop cfg fuel st)
    /\ load _threadsRunning (replenish_loop cfg fuel st)
       <= Z.max (load _threadsRunning st) (reservedThreads cfg).
Proof.
  intros Hres. induction fuel as [| fuel IH]; intros st Hint; cbn [replenish_loop].
  - lia.
  - destruct (Z.ltb_spec (load _threadsRunning st) (reservedThreads cfg)) as [Hlt | Hge];
      [| lia].
    pose proof (startWorkerThread_running st Hint) as Hrun.
    assert (Hstep : incr 32 (load _threadsRunning st) = load _threadsRunning st + 1).
    { unfold incr. apply wrap_id; [lia |].
      unfold is_int, in_range, INT_MAX in *. simpl in *. lia. }
    rewrite Hstep in Hrun.
    assert (Hint1 : is_int (load _threadsRunning (_startWorkerThread st))).
    { rewrite Hrun. unfold is_int, in_range, INT_MAX in *. simpl in *.
      destruct (hd true (launchOracle st)); lia. }
    destruct (IH (_startWorkerThread st) Hint1) as [Hlo Hhi].
    rewrite Hrun in Hlo, Hhi. destruct (hd true (launchOracle st)); lia.
Qed.

Lemma is_int_bounds (x : Z) : -2147483648 <= x <= 2147483647 -> is_int x.
Proof. unfold is_int, in_range. change (2 ^ (32 - 1)) with 2147483648. lia. Qed.

(** A round that did not time out, step by step. *)
Lemma controllerRound_early (cfg : Options) (waited : N) (c : Controller) (st : Executor) :
  isRunning st = true ->
  ~ timed_out cfg c (advance waited st) ->
  snd (controllerRound cfg waited c st)
  = (let woken := advance waited st in
     let refilled :=
       if load _threadsRunning woken <? reservedThreads cfg then replenish cfg woken
       else woken in
     if dltb (fst (utilization c woken)) (to_double (idlePctThreshold cfg)) then refilled
     else
       let waited := latencyWait cfg (snd (utilization c woken)) refilled in
       if _isStarved waited then _startWorkerThread waited else waited).
Proof.
  unfold timed_out, controllerRound. intros Hrun Hto. cbv zeta.
  change (isRunning (advance waited st)) with (isRunning st). rewrite Hrun. cbn [negb].
  pose proof (utilization_timer c (advance waited st)) as Ht.
  destruct (utilization c (advance waited st)) as [u c']. cbn [fst snd] in *. rewrite Ht.
  destruct (Z.geb_spec
              (sinceStart (ticksPerMillisecond (advance waited st)) (now (advance waited st))
                 (sinceLastControlRound c)) (stuckThreadTimeout cfg)) as [Hge | _];
    [exfalso; apply Hto; lia |].
  destruct (dltb u (to_double (idlePctThreshold cfg))); reflexivity.
Qed.

(** X14.  A round of the running controller whose wait did not time out
    leaves the pool at or above the reserve, and at most one thread above
    what it found or above the reserve: the refill loop stops at the reserve
    and the starvation check adds one thread at most. *)
Theorem early_round_meets_reserve (cfg : Options) (waited : N) (c : Controller)
    (st : Executor) :
  isRunning st = true ->
  ~ timed_out cfg c (advance waited st) ->
  reservedThreads cfg < INT_MAX ->
  - 2 ^ 31 <= load _threadsRunning st < INT_MAX ->
  reservedThreads cfg <= load _threadsRunning (snd (controllerRound cfg waited c st))
  /\ load _threadsRunning (snd (controllerRound cfg waited c st))
     <= Z.max (load _threadsRunning st) (reservedThreads cfg) + 1.
Proof.
  intros Hrun Hto Hres Hr. rewrite (controllerRound_early cfg waited c st Hrun Hto).
  change INT_MAX with 2147483647 in *. change (2 ^ 31) with 2147483648 in *.
  cbv zeta. set (woken := advance waited st).
  change (load _threadsRunning woken) with (load _threadsRunning st).
  assert (Hint : is_int (load _threadsRunning woken)).
  { change (load _threadsRunning woken) with (load _threadsRunning st).
    apply is_int_bounds. lia. }
  set (refilled := if load _threadsRunning st <? reservedThreads cfg
                   then replenish cfg woken else woken).
  assert (Hb : reservedThreads cfg <= load _threadsRunning refilled
               /\ load _threadsRunning st <= load _threadsRunning refilled
                  <= Z.max (load _threadsRunning st) (reservedThreads cfg)).
  { subst refilled.
    destruct (Z.ltb_spec (load _threadsRunning st) (reservedThreads cfg)) as [Hlt | Hge].
    - assert (Hmax : reservedThreads cfg <= INT_MAX)
        by (change INT_MAX with 2147483647; lia).
      split; [apply replenish_reaches_reserve; [exact Hmax | exact Hint] |].
      unfold replenish.
      change (load _threadsRunning st) with (load _threadsRunning woken).
      apply (replenish_loop_bounds cfg _ Hmax woken Hint).
    - change (load _threadsRunning woken) with (load _threadsRunning st). lia. }
  destruct (dltb _ _); [lia |].
  set (c1 := snd (utilization c woken)).
  unfold latencyWait.
  set (fuel := Z.to_nat _).
  destruct (latencyWait_loop_frame cfg c1 fuel refilled) as (Hl & _ & _).
  set (slept := latencyWait_loop cfg fuel c1 refilled) in *.
  pose proof (Hl _threadsRunning) as Hr3.
  destruct (_isStarved slept); [| rewrite Hr3; lia].
  assert (Hint3 : is_int (load _threadsRunning slept)).
  { rewrite Hr3. apply is_int_bounds. lia. }
  rewrite (startWorkerThread_running slept Hint3), Hr3.
  assert (Hstep : incr 32 (load _threadsRunning refilled) = load _threadsRunning refilled + 1).
  { unfold incr. apply wrap_id; [lia |]. apply is_int_bounds. lia. }
  rewrite Hstep. destruct (hd true (launchOracle slept)); lia.
Qed.

Lemma early_round_meets_reserve_witness :
  load _threadsRunning sample_one_left = 1
  /\ 2 <= load _threadsRunning
            (snd (controllerRound sample_options 1000
                    (controller_start sample_one_left) sample_one_left)).
Proof.
  split; [reflexivity |].
  apply (early_round_meets_reserve sample_options 1000 (controller_start sample_one_left)
           sample_one_left).
  - reflexivity.
  - unfold timed_out. vm_compute. intros H. apply H. reflexivity.
  - vm_compute. reflexivity.
  - vm_compute. split; [discriminate | reflexivity].
Defined.

(** X15.  A round whose wait did not time out, on a pool at or above the
    reserve, starts at most one thread.  It starts none and leaves the
    executor as the wait left it when the utilization it measured is below
    the idle threshold, however many tasks are queued; it starts one exactly
    when the utilization is not below the threshold and the pool is starved
    once the latency wait is over. *)
Theorem early_round_spawns_at_most_one (cfg : Options) (waited : N) (c : Controller)
    (st : Executor) :
  isRunning st = true ->
  ~ timed_out cfg c (advance waited st) ->
  reservedThreads cfg <= load _threadsRunning st ->
  let woken := advance waited st in
  let st' := snd (controllerRound cfg waited c st) in
  (spawned woken st' <= 1)%nat
  /\ (dltb (fst (utilization c woken)) (to_double (idlePctThreshold cfg)) = true ->
      st' = woken)
  /\ (spawned woken st' = 1%nat <->
      dltb (fst (utilization c woken)) (to_double (idlePctThreshold cfg)) = false
      /\ _isStarved (latencyWait cfg (snd (utilization c woken)) woken) = true).
Proof.
  intros Hrun Hto Hge woken st'. subst st'.
  rewrite (controllerRound_early cfg waited c st Hrun Hto). cbv zeta. fold woken.
  change (load _threadsRunning woken) with (load _threadsRunning st).
  destruct (Z.ltb_spec (load _threadsRunning st) (reservedThreads cfg)) as [Hlt | _]; [lia |].
  destruct (dltb (fst (utilization c woken)) (to_double (idlePctThreshold cfg))).
  - unfold spawned. rewrite Nat.sub_diag.
    split; [lia |]. split; [reflexivity |]. split; [discriminate | intros [H _]; discriminate H].
  - set (c1 := snd (utilization c woken)).
    assert (Hev : count_launches (events (latencyWait cfg c1 woken))
                  = count_launches (events woken))
      by (unfold latencyWait; apply latencyWait_loop_frame).
    destruct (_isStarved (latencyWait cfg c1 woken)).
    + destruct (startWorkerThread_events (latencyWait cfg c1 woken)) as [He _].
      unfold spawned. rewrite He, count_launches_app, count_launches_map, next_launches_length, Hev.
      split; [lia |]. split; [discriminate |]. split; [intros _; split; reflexivity | lia].
    + unfold spawned. rewrite Hev, Nat.sub_diag.
      split; [lia |]. split; [discriminate |].
      split; [discriminate | intros [_ H]; discriminate H].
Qed.

Lemma early_round_spawns_at_most_one_witness :
  _isStarved sample_starved = true
  /\ snd (controllerRound sample_options 1000 (controller_start sample_starved) sample_starved)
     = advance 1000 sample_starved.
Proof.
  split; [reflexivity |].
  assert (Hto : ~ timed_out sample_options (controller_start sample_starved)
                    (advance 1000 sample_starved))
    by (unfold timed_out; vm_compute; intros H; apply H; reflexivity).
  assert (Hge : reservedThreads sample_options <= load _threadsRunning sample_starved)
    by (vm_compute; discriminate).
  destruct (early_round_spawns_at_most_one sample_options 1000
              (controller_start sample_starved) sample_starved eq_refl Hto Hge)
    as (_ & Hidle & _).
  apply Hidle. vm_compute. reflexivity.
Defined.
